(** * Training-loop machinery of the coffee-leaf classifiers

    A shallow embedding of [classifier/classifiers-backup.py]: the
    imbalance-aware [sampler], the metric helper [eval_metrics], the
    learning-rate schedule [adjust_learning_rate], and the epoch loops of the
    two classifiers ([EntireLeafClf], [LesionSpotClf]).

    Conventions of the embedding.
    - Python [int] is [Z]; sizes and loop indices that Python obtains from
      [len] or [range] are [nat].
    - Python and numpy floats are idealised as rationals ([Q]): rounding
      error, infinities and NaN are outside the model.  Statements about
      real-valued results use [==] ([Qeq]).
    - Python exceptions are explicit: a computation that may raise returns
      [py A], either [Ret a] or [Raise e].
    - numpy index arrays and masks are lists; a loop that assigns through a
      mask is a fold over the list it iterates. *)

From Stdlib Require Import String ZArith QArith Qround List Lia Lqa Bool.
From Stdlib Require Import Setoid Morphisms.
From Stdlib Require Import Sorted.
Import ListNotations.

Local Open Scope Q_scope.

(** ** Python results *)

Module Py.

Inductive exn : Type :=
| ValueError
| TypeError
| IndexError
| ZeroDivisionError
| RuntimeError.

Inductive py (A : Type) : Type :=
| Ret (a : A)
| Raise (e : exn).

Arguments Ret {A} a.
Arguments Raise {A} e.

Definition bind {A B : Type} (c : py A) (k : A -> py B) : py B :=
  match c with
  | Ret a => k a
  | Raise e => Raise e
  end.

Definition raises {A : Type} (c : py A) : bool :=
  match c with
  | Ret _ => false
  | Raise _ => true
  end.

End Py.
Import Py.

Notation "x <- c ;; k" := (Py.bind c (fun x => k))
  (at level 61, c at next level, right associativity).

(** ** Numeric helpers *)

Module Num.

(** Python's built-in [sum]: a left fold that starts from [0]. *)
Definition sum (l : list Q) : Q := fold_left Qplus l 0.

(** [x < y] on floats, as a boolean. *)
Definition Qlt_bool (x y : Q) : bool := negb (Qle_bool y x).

(** Python's [round] on a float: to the nearest integer, ties to the even
    neighbour. *)
Definition round (x : Q) : Z :=
  let f := Qfloor x in
  let d := x - inject_Z f in
  if Qlt_bool d (1 # 2) then f
  else if Qlt_bool (1 # 2) d then (f + 1)%Z
  else if Z.even f then f else (f + 1)%Z.

(** [len(l)] as a float operand. *)
Definition len {A : Type} (l : list A) : Q := inject_Z (Z.of_nat (length l)).

End Num.

(** ** Metric helper *)

Module Metrics.

(** Number of positions at which two label vectors agree. *)
Fixpoint agree (y_true y_pred : list Z) : nat :=
  match y_true, y_pred with
  | t :: y_true', p :: y_pred' =>
      (if (t =? p)%Z then 1 else 0)%nat + agree y_true' y_pred'
  | _, _ => 0%nat
  end.

(** [sklearn.metrics.accuracy_score(y_true, y_pred)] with its default
    arguments: the fraction of positions where the two vectors agree;
    vectors of different lengths are rejected with [ValueError], and so
    are two empty vectors, by the validation of the inputs (releases of
    sklearn without that validation yield NaN on them). *)
Definition accuracy_score (y_true y_pred : list Z) : py Q :=
  if (length y_true =? length y_pred)%nat
  then match y_true with
       | [] => Raise ValueError
       | _ :: _ =>
           Ret (inject_Z (Z.of_nat (agree y_true y_pred)) / Num.len y_true)
       end
  else Raise ValueError.

(** [eval_metrics(metric, y_pred, y_true, y2_true=None, lam=None)].
    The Python value [None] is [None]; multiplying by a missing [lam]
    raises [TypeError]. *)
Definition eval_metrics (metric : string) (y_pred y_true : list Z)
    (y2_true : option (list Z)) (lam : option Q) : py (option Q) :=
  match y2_true with
  | None =>
      if String.eqb metric "acc"
      then a <- accuracy_score y_true y_pred ;; Ret (Some a)
      else Ret None
  | Some y2 =>
      if String.eqb metric "acc"
      then
        a1 <- accuracy_score y_true y_pred ;;
        match lam with
        | None => Raise TypeError
        | Some l =>
            a2 <- accuracy_score y2 y_pred ;;
            Ret (Some (l * a1 + (1 - l) * a2))
        end
      else Ret None
  end.

(** The fraction of positions where prediction and label agree, written
    from the sentence of the specification: the agreeing pairs of the
    zipped vectors over the number of predictions. *)
Definition fraction_agree (pred labels : list Z) : Q :=
  Num.len (filter (fun pl => (fst pl =? snd pl)%Z) (combine pred labels))
  / Num.len pred.

End Metrics.

(** ** Run configuration *)

(** The argparse namespace [opt]: the fields the modelled code reads. *)
Record Options : Type := {
  select_classifier : Z;
  model : string;
  pretrained : bool;
  batch_size : Z;
  weight_decay : Q;
  optimizer : string;
  epochs : Z;
  data_augmentation : string;
  balanced_dataset : bool;
  output_std : string;
  output_filename : string
}.

(** ** Imbalance-aware sampler *)

Module Sampler.

(** The two dataset shapes the sampler reads: [data] rows of the
    entire-leaf dataset (column 1 is the disease, the last column the
    severity) and the [(path, class)] [samples] of an image folder. *)
Record Dataset : Type := {
  data : list (list Z);
  samples : list (string * Z)
}.

(** [torch.utils.data.sampler.WeightedRandomSampler(weights, num_samples)]:
    the draw weights and the length of the schedule. *)
Record WeightedRandomSampler : Type := {
  weights : list Q;
  num_samples : nat
}.

Definition balance_factor : Z := 20.

(** [np.array(dataset.data)] can be sliced by column when it is a
    two-dimensional array, that is when the rows have one length, and
    [data[:,1]] needs two columns at least.  On anything else (no row,
    rows of fewer than two columns, or rows of different lengths, which
    give a one-dimensional array of objects) the slice raises
    [IndexError]. *)
Definition sliceable (d : list (list Z)) : bool :=
  match d with
  | [] => false
  | row :: rows =>
      (2 <=? length row)%nat
      && forallb (fun r => (length r =? length row)%nat) rows
  end.

(** [data[:,1]] and [data[:,-1]] of an array that can be sliced; the
    default [0] is not reached there. *)
Definition dis_column (d : list (list Z)) : list Z :=
  map (fun row => nth 1 row 0%Z) d.
Definition sev_column (d : list (list Z)) : list Z :=
  map (fun row => last row 0%Z) d.

(** [[a and b for a, b in zip(dis==d, sev==s)]] *)
Definition cell_mask (dis sev : list Z) (d s : Z) : list bool :=
  map (fun ab => (fst ab =? d)%Z && (snd ab =? s)%Z) (combine dis sev).

(** [sum] of a list of booleans. *)
Definition sum_bool (m : list bool) : Z :=
  fold_left (fun acc (b : bool) => if b then (acc + 1)%Z else acc) m 0%Z.

(** [np.where(mask)[0]]: the positions at which the mask holds. *)
Definition where_ (mask : list bool) : list nat :=
  map fst (filter snd (combine (seq 0 (length mask)) mask)).

(** [w[i] = v].  The positions written by the sampler come from
    [np.where] over a mask no longer than [w], so the out-of-range case
    (an [IndexError] in numpy) cannot arise; it leaves [w] as it is. *)
Fixpoint update (i : nat) (v : Q) (w : list Q) : list Q :=
  match w, i with
  | [], _ => []
  | _ :: w', O => v :: w'
  | x :: w', S i' => x :: update i' v w'
  end.

(** [w[idx] = v] for an index array [idx]. *)
Definition assign_at (idx : list nat) (v : Q) (w : list Q) : list Q :=
  fold_left (fun w' i => update i v w') idx w.

(** [np.zeros(total)] *)
Definition zeros (total : nat) : list Q := repeat 0 total.

(** [range(5)] *)
Definition range5 : list Z := [0; 1; 2; 3; 4]%Z.

(** Body of the inner loop of the joint case. *)
Definition joint_cell (dis sev : list Z) (total : nat) (d s : Z)
    (samplesWeight : list Q) : list Q :=
  let targets_sum := sum_bool (cell_mask dis sev d s) in
  let idx := where_ (cell_mask dis sev d s) in
  assign_at idx
    (1 / ((inject_Z targets_sum + inject_Z balance_factor)
          / inject_Z (Z.of_nat total)))
    samplesWeight.

(** Weights of the joint case before normalisation: the two nested loops
    over [range(5)]. *)
Definition joint_weights (dis sev : list Z) : list Q :=
  let total := length dis in
  fold_left
    (fun w d => fold_left (fun w' s => joint_cell dis sev total d s w') range5 w)
    range5 (zeros total).

(** [np.unique]: the sorted distinct values. *)
Fixpoint insert_unique (x : Z) (l : list Z) : list Z :=
  match l with
  | [] => [x]
  | y :: l' =>
      if (x <? y)%Z then x :: l
      else if (x =? y)%Z then l
      else y :: insert_unique x l'
  end.

Definition unique (l : list Z) : list Z := fold_right insert_unique [] l.

(** [targets == t] *)
Definition class_mask (targets : list Z) (t : Z) : list bool :=
  map (fun x => (x =? t)%Z) targets.

(** Body of the loop of the single-label case. *)
Definition single_class (targets : list Z) (total : nat) (t : Z)
    (samplesWeight : list Q) : list Q :=
  let idx := where_ (class_mask targets t) in
  assign_at idx
    (1 / (Num.len idx / inject_Z (Z.of_nat total)))
    samplesWeight.

(** Weights of the single-label case before normalisation. *)
Definition single_weights (targets : list Z) : list Q :=
  let total := length targets in
  fold_left (fun w t => single_class targets total t w)
    (unique targets) (zeros total).

(** [samplesWeight / sum(samplesWeight)].  When the weights sum to zero
    numpy yields NaN entries; the rational quotient by zero is [0]. *)
Definition normalise (samplesWeight : list Q) : list Q :=
  map (fun x => x / Num.sum samplesWeight) samplesWeight.

(** The weights before normalisation, by the mode flag. *)
Definition raw_weights (dataset : Dataset) (opt : Options) : list Q :=
  if (select_classifier opt =? 1)%Z
  then joint_weights (dis_column (data dataset)) (sev_column (data dataset))
  else single_weights (map snd (samples dataset)).

(** [sampler(dataset, opt)].  Slicing the columns of a [data] array that
    is empty or has no second column raises [IndexError];
    [WeightedRandomSampler] rejects a schedule of length zero with
    [ValueError]. *)
Definition sampler (dataset : Dataset) (opt : Options)
    : py WeightedRandomSampler :=
  samplesWeight <-
    (if (select_classifier opt =? 1)%Z
     then
       if sliceable (data dataset)
       then Ret (joint_weights (dis_column (data dataset))
                               (sev_column (data dataset)))
       else Raise IndexError
     else Ret (single_weights (map snd (samples dataset)))) ;;
  let samplesWeight := normalise samplesWeight in
  match length samplesWeight with
  | O => Raise ValueError
  | n => Ret {| weights := samplesWeight; num_samples := n |}
  end.

(** Occurrence counts, as the specification words them: the number of
    examples of a (disease, severity) cell, and of a class. *)
Definition cell_count (dis sev : list Z) (d s : Z) : nat :=
  length (filter (fun ab => (fst ab =? d)%Z && (snd ab =? s)%Z)
                 (combine dis sev)).

Definition class_count (targets : list Z) (t : Z) : nat :=
  count_occ Z.eq_dec targets t.

(** The 5 x 5 grid of (disease, severity) cells the joint case iterates. *)
Definition in_grid (d s : Z) : bool :=
  (0 <=? d)%Z && (d <? 5)%Z && (0 <=? s)%Z && (s <? 5)%Z.

(** The weight the specification gives a member of a cell of [n] examples
    in a dataset of [total], and a member of a class of [n] examples. *)
Definition joint_formula (n total : nat) : Q :=
  1 / ((inject_Z (Z.of_nat n) + inject_Z balance_factor)
       / inject_Z (Z.of_nat total)).

Definition single_formula (n total : nat) : Q :=
  1 / (inject_Z (Z.of_nat n) / inject_Z (Z.of_nat total)).

(** The label columns and the target vector the two modes read. *)
Definition dis_of (dataset : Dataset) : list Z := dis_column (data dataset).
Definition sev_of (dataset : Dataset) : list Z := sev_column (data dataset).
Definition targets_of (dataset : Dataset) : list Z :=
  map snd (samples dataset).

(** Number of examples of the dataset the mode flag selects. *)
Definition size (dataset : Dataset) (opt : Options) : nat :=
  if (select_classifier opt =? 1)%Z
  then length (data dataset) else length (samples dataset).

(** A synthetic image-folder dataset: 100 samples, 90 of class 0 and 10
    of class 1. *)
Definition imbalanced_90_10 : Dataset :=
  {| data := [];
     samples := repeat ("majority"%string, 0%Z) 90
                ++ repeat ("minority"%string, 1%Z) 10 |}.

(** A small entire-leaf dataset: rows [id, disease, severity]. *)
Definition leaves_4 : Dataset :=
  {| data := [[10; 0; 0]; [11; 2; 1]; [12; 2; 1]; [13; 4; 3]]%Z;
     samples := [] |}.

(** Two balanced configurations: the entire-leaf classifier (joint
    labels) and the lesion-spot classifier (single label). *)
Definition joint_mode : Options :=
  {| select_classifier := 1; model := "resnet50"; pretrained := true;
     batch_size := 24; weight_decay := 5 # 10000; optimizer := "sgd";
     epochs := 10; data_augmentation := "standard";
     balanced_dataset := true; output_std := "multitask";
     output_filename := "leaf" |}.

Definition single_mode : Options :=
  {| select_classifier := 2; model := "resnet50"; pretrained := true;
     batch_size := 24; weight_decay := 5 # 10000; optimizer := "sgd";
     epochs := 10; data_augmentation := "standard";
     balanced_dataset := true; output_std := "disease";
     output_filename := "spot" |}.

End Sampler.

(** ** Learning-rate schedule *)

Module LearningRate.

(** A torch optimizer as far as the schedule touches it: the learning
    rate of each entry of [param_groups]. *)
Record Optimizer : Type := {
  param_groups : list Q
}.

Definition lr_values : list Q :=
  [1 # 100; 5 # 1000; 1 # 1000; 5 # 10000; 1 # 10000].

(** True division [a / b] of two Python integers. *)
Definition truediv (a b : Z) : py Q :=
  if (b =? 0)%Z then Raise ZeroDivisionError
  else Ret (inject_Z a / inject_Z b).

(** [l[i]] on a Python list: a negative index counts from the end, an
    index outside the list raises [IndexError]. *)
Definition getitem {A : Type} (l : list A) (i : Z) : py A :=
  let n := Z.of_nat (length l) in
  let k := if (i <? 0)%Z then (i + n)%Z else i in
  if (k <? 0)%Z then Raise IndexError
  else match nth_error l (Z.to_nat k) with
       | Some x => Ret x
       | None => Raise IndexError
       end.

(** [step = round(opt.epochs / 5)] *)
Definition lr_step (epochs : Z) : Z := Num.round (inject_Z epochs / 5).

(** [idx = min(math.floor(epoch/step), len(lr_values))] *)
Definition lr_index (epoch epochs : Z) : py Z :=
  q <- truediv epoch (lr_step epochs) ;;
  Ret (Z.min (Qfloor q) (Z.of_nat (length lr_values))).

(** [adjust_learning_rate(optimizer, epoch, opt)] *)
Definition adjust_learning_rate (optim : Optimizer) (epoch : Z)
    (opt : Options) : py Optimizer :=
  if String.eqb (optimizer opt) "sgd"
  then
    idx <- lr_index epoch (epochs opt) ;;
    learning_rate <- getitem lr_values idx ;;
    Ret {| param_groups := map (fun _ => learning_rate) (param_groups optim) |}
  else Ret optim.

(** The schedule over a whole run: the adjustment of every epoch of
    [range(epochs)], in order, stopping at the first exception. *)
Fixpoint adjust_all (optim : Optimizer) (epoch_list : list nat)
    (opt : Options) : py Optimizer :=
  match epoch_list with
  | [] => Ret optim
  | e :: rest =>
      optim' <- adjust_learning_rate optim (Z.of_nat e) opt ;;
      adjust_all optim' rest opt
  end.

(** An SGD configuration with the given number of epochs. *)
Definition sgd_run (n : Z) : Options :=
  {| select_classifier := 1; model := "resnet50"; pretrained := true;
     batch_size := 24; weight_decay := 5 # 10000; optimizer := "sgd";
     epochs := n; data_augmentation := "standard";
     balanced_dataset := false; output_std := "multitask";
     output_filename := "leaf" |}.

Definition sgd_optimizer : Optimizer := {| param_groups := [1 # 100] |}.

End LearningRate.

(** ** The torch interface *)

Module Torch.

(** A scalar tensor attached to the autograd graph: its value ([.data])
    and its gradient with respect to the model parameters, in whatever
    representation [G] the backend keeps gradients. *)
Record Scalar (G : Type) : Type := {
  data : Q;
  grad : G
}.
Arguments data {G} s.
Arguments grad {G} s.

(** A loss target: a vector of class indices, or a dense distribution over
    the classes per sample. *)
Inductive Target (D : Type) : Type :=
| Index (labels : list Z)
| Soft (dist : D).
Arguments Index {D} labels.
Arguments Soft {D} dist.

(** The two criterion objects the runs construct. *)
Inductive Criterion : Type :=
| CrossEntropyLoss
| KLDivLoss.

(** Result of [between_class(images, labels_dis, labels_sev)]. *)
Record BcOut (I D : Type) : Type := {
  bc_images : I;
  bc_dis : D;
  bc_sev : D
}.
Arguments bc_images {I D} b.
Arguments bc_dis {I D} b.
Arguments bc_sev {I D} b.

(** Result of [mixup_data(images, labels_dis, labels_sev)]. *)
Record MixOut (I : Type) : Type := {
  mix_images : I;
  mix_dis_a : list Z;
  mix_dis_b : list Z;
  mix_sev_a : list Z;
  mix_sev_b : list Z;
  mix_lam : Q
}.
Arguments mix_images {I} m.
Arguments mix_dis_a {I} m.
Arguments mix_dis_b {I} m.
Arguments mix_sev_a {I} m.
Arguments mix_sev_b {I} m.
Arguments mix_lam {I} m.

(** What the loops use of torch, of the network modules and of
    [utils.augmentation]: opaque collaborators, given by their signatures.
    The augmentation helpers draw random numbers, so they thread a
    generator state. *)
Class Backend : Type := {
  Images : Type;
  Scores : Type;
  Dense : Type;
  Model : Type;
  Grad : Type;
  OptState : Type;
  Rng : Type;
  (** [len(images)] *)
  batch_len : Images -> nat;
  (** [model(images)] of the two-headed network; the flag is the mode set
      by [model.train()] / [model.eval()]. *)
  forward : Model -> bool -> Images -> Scores * Scores;
  (** [model(images)] of the single-headed network. *)
  forward1 : Model -> bool -> Images -> Scores;
  (** [torch.max(outputs.data, 1)[1]] *)
  argmax : Scores -> list Z;
  (** [torch.max(labels_a, 1)[1]] *)
  argmax_dense : Dense -> list Z;
  (** [torch.softmax(outputs, dim=1).log()] *)
  log_softmax : Scores -> Scores;
  (** [nn.CrossEntropyLoss()(input, target)] *)
  cross_entropy : Scores -> Target Dense -> Scalar Grad;
  (** [nn.KLDivLoss(reduction='batchmean')(input, target)] *)
  kl_div : Scores -> Target Dense -> Scalar Grad;
  (** Gradient buffers: zero, accumulation, scaling. *)
  gzero : Grad;
  gadd : Grad -> Grad -> Grad;
  gscale : Q -> Grad -> Grad;
  (** [clip_grad_norm_(model.parameters(), max_norm)] *)
  clip_grad_norm_ : Grad -> Q -> Grad;
  (** [torch.optim.SGD(..., momentum=0.9, weight_decay=wd)] and
      [torch.optim.Adam(..., weight_decay=wd)]: the initial internal
      state. *)
  sgd_init : Q -> OptState;
  adam_init : Q -> OptState;
  (** [optimizer.step()]: from the learning rates of the parameter groups,
      the internal state, the parameters and their gradients. *)
  optimizer_step : list Q -> OptState -> Model -> Grad -> OptState * Model;
  between_class : Rng -> Images -> list Z -> list Z
                  -> Rng * BcOut Images Dense;
  between_class1 : Rng -> Images -> list Z -> Rng * (Images * Dense);
  mixup_data : Rng -> Images -> list Z -> list Z -> Rng * MixOut Images;
  mixup_data1 : Rng -> Images -> list Z
                -> Rng * (Images * list Z * list Z * Q)
}.

Section Tensors.
Context {B : Backend}.

(** [a + b] and [c * a] on graph scalars. *)
Definition sadd (a b : Scalar Grad) : Scalar Grad :=
  {| data := data a + data b; grad := gadd (grad a) (grad b) |}.

Definition smul (c : Q) (a : Scalar Grad) : Scalar Grad :=
  {| data := c * data a; grad := gscale c (grad a) |}.

(** [criterion(input, target)] *)
Definition apply_criterion (criterion : Criterion) (input : Scores)
    (target : Target Dense) : Scalar Grad :=
  match criterion with
  | CrossEntropyLoss => cross_entropy input target
  | KLDivLoss => kl_div input target
  end.

(** Modelled from the spec: [utils.augmentation.mixup_criterion] is not
    among the sources.  The loss under mixup is the linear combination of
    the criterion evaluated against both label sides, weighted by [lam]
    and [1 - lam]. *)
Definition mixup_criterion (criterion : Criterion) (pred : Scores)
    (y_a y_b : list Z) (lam : Q) : Scalar Grad :=
  sadd (smul lam (apply_criterion criterion pred (Index y_a)))
       (smul (1 - lam) (apply_criterion criterion pred (Index y_b))).

(** The optimizer object: learning rates of [param_groups] and internal
    state. *)
Record Optim : Type := {
  lrs : LearningRate.Optimizer;
  internal : OptState
}.

(** The mutable objects a training epoch works on. *)
Record Trainer : Type := {
  net : Model;
  grads : Grad;
  optim : Optim;
  rng : Rng
}.

(** [model.zero_grad()] and [loss.backward()] on the gradient buffers. *)
Definition zero_grad (g : Grad) : Grad := gzero.

Definition backward (loss : Scalar Grad) (g : Grad) : Grad :=
  gadd g (grad loss).

(** [optimizer.step()] *)
Definition step (o : Optim) (m : Model) (g : Grad) : Optim * Model :=
  let r := optimizer_step (LearningRate.param_groups (lrs o)) (internal o)
             m g in
  ({| lrs := lrs o; internal := fst r |}, snd r).

(** [x * len(images)] for the value returned by [eval_metrics]. *)
Definition times_len (x : option Q) (n : nat) : py Q :=
  match x with
  | Some q => Ret (q * inject_Z (Z.of_nat n))
  | None => Raise TypeError
  end.

(** A [for] loop whose body may raise. *)
Fixpoint for_each {S A : Type} (body : S -> A -> py S) (l : list A) (s : S)
    : py S :=
  match l with
  | [] => Ret s
  | a :: l' => s' <- body s a ;; for_each body l' s'
  end.

End Tensors.

End Torch.

(** ** Checkpoint policy shared by the two runs *)

Module Checkpoint.

(** The sentinel [best_loss] starts from. *)
Definition initial_best_loss : Q := 1000.

(** The guard [(curr_loss < best_loss) and epoch >= 5]. *)
Definition improves (curr_loss best_loss : Q) (epoch : nat) : bool :=
  Num.Qlt_bool curr_loss best_loss && (5 <=? epoch)%nat.

(** The epoch loop [for epoch in range(...)] of a run: it stops at the
    first exception, and the state kept is then that of the last completed
    epoch, which is what the artifacts on disk hold. *)
Fixpoint run_loop {S : Type} (body : S -> nat -> py S)
    (epoch_list : list nat) (st : S) : S * option exn :=
  match epoch_list with
  | [] => (st, None)
  | epoch :: rest =>
      match body st epoch with
      | Ret st' => run_loop body rest st'
      | Raise e => (st, Some e)
      end
  end.

(** The policy in the words of the specification, replayed on the list
    of validation losses of the completed epochs: the best loss recorded
    after them, whether epoch [e] wrote the checkpoint, and the epochs
    that wrote it. *)
Definition keep_min (best curr : Q) : Q :=
  if Num.Qlt_bool curr best then curr else best.

Definition best_after (losses : list Q) : Q :=
  fold_left keep_min (skipn 5 losses) initial_best_loss.

Definition written (losses : list Q) (e : nat) : bool :=
  (5 <=? e)%nat
  && Num.Qlt_bool (nth e losses 0) (best_after (firstn e losses)).

Definition expected_saves (losses : list Q) : list nat :=
  filter (written losses) (seq 0 (length losses)).

(** Strictly decreasing lists of losses. *)
Fixpoint strictly_decreasing (losses : list Q) : bool :=
  match losses with
  | [] => true
  | x :: rest =>
      match rest with
      | [] => true
      | y :: _ => Num.Qlt_bool y x && strictly_decreasing rest
      end
  end.

End Checkpoint.

(** ** Entire-leaf classifier *)

Module EntireLeafClf.
Import Torch.

Section Clf.
Context {B : Backend}.

(** The dict [{'loss', 'dis_acc', 'sev_acc'}]. *)
Record Metrics : Type := {
  loss : Q;
  dis_acc : Q;
  sev_acc : Q
}.

(** One item of a loader: [images, labels_dis, labels_sev]. *)
Record Batch : Type := {
  images : Images;
  labels_dis : list Z;
  labels_sev : list Z
}.

(** A [DataLoader]: the batches one pass yields and [len(loader.dataset)]. *)
Record Loader : Type := {
  batches : list Batch;
  dataset : nat
}.

(** The variables bound by the augmentation stage of a training step.
    The source tests [data_augmentation] again when it computes the loss
    and the accuracy; each of those tests selects the branch whose
    variables were bound here, so they are matches on the constructor. *)
Inductive Augmented : Type :=
| NoAug (imgs : Images) (l_dis l_sev : list Z)
| BcPlus (imgs : Images) (l_dis_a l_sev_a : Dense) (l_dis l_sev : list Z)
| Mixup (imgs : Images) (l_dis_a l_dis_b l_sev_a l_sev_b : list Z)
        (lam : Q) (l_dis l_sev : list Z).

Definition aug_images (a : Augmented) : Images :=
  match a with
  | NoAug imgs _ _ => imgs
  | BcPlus imgs _ _ _ _ => imgs
  | Mixup imgs _ _ _ _ _ _ _ => imgs
  end.

(** "Apply data augmentation" *)
Definition augment (data_augmentation : string) (r : Rng) (b : Batch)
    : Rng * Augmented :=
  if String.eqb data_augmentation "bc+" then
    let o := between_class r (images b) (labels_dis b) (labels_sev b) in
    (fst o,
     BcPlus (bc_images (snd o)) (bc_dis (snd o)) (bc_sev (snd o))
       (argmax_dense (bc_dis (snd o))) (argmax_dense (bc_sev (snd o))))
  else if String.eqb data_augmentation "mixup" then
    let o := mixup_data r (images b) (labels_dis b) (labels_sev b) in
    (fst o,
     Mixup (mix_images (snd o)) (mix_dis_a (snd o)) (mix_dis_b (snd o))
       (mix_sev_a (snd o)) (mix_sev_b (snd o)) (mix_lam (snd o))
       (labels_dis b) (labels_sev b))
  else (r, NoAug (images b) (labels_dis b) (labels_sev b)).

(** "Compute error": [(loss_dis, loss_sev)]. *)
Definition losses (criterion : Criterion) (a : Augmented)
    (outputs_dis outputs_sev : Scores) : Scalar Grad * Scalar Grad :=
  match a with
  | BcPlus _ l_dis_a l_sev_a _ _ =>
      (apply_criterion criterion (log_softmax outputs_dis) (Soft l_dis_a),
       apply_criterion criterion (log_softmax outputs_sev) (Soft l_sev_a))
  | Mixup _ l_dis_a l_dis_b l_sev_a l_sev_b lam _ _ =>
      (mixup_criterion criterion outputs_dis l_dis_a l_dis_b lam,
       mixup_criterion criterion outputs_sev l_sev_a l_sev_b lam)
  | NoAug _ l_dis l_sev =>
      (apply_criterion criterion outputs_dis (Index l_dis),
       apply_criterion criterion outputs_sev (Index l_sev))
  end.

(** "Getting gradients": the scalar [.backward()] is called on. *)
Definition backward_loss (output_std : string)
    (loss_dis loss_sev : Scalar Grad) : Scalar Grad :=
  if String.eqb output_std "multitask" then sadd loss_dis loss_sev
  else if String.eqb output_std "disease" then loss_dis
  else loss_sev.

(** "Loss": the value a step adds to [train_metrics['loss']], before the
    factor [len(images)]. *)
Definition logged_loss (output_std : string)
    (loss_dis loss_sev : Scalar Grad) : Q :=
  if String.eqb output_std "multitask"
  then data (sadd loss_dis loss_sev) / 2
  else if String.eqb output_std "disease" then data loss_dis
  else data loss_sev.

(** The accuracy a training step computes for the disease head and for
    the severity head. *)
Definition dis_accuracy (a : Augmented) (pred : list Z) : py (option Q) :=
  match a with
  | Mixup _ l_dis_a l_dis_b _ _ lam _ _ =>
      Metrics.eval_metrics "acc" pred l_dis_a (Some l_dis_b) (Some lam)
  | BcPlus _ _ _ l_dis _ => Metrics.eval_metrics "acc" pred l_dis None None
  | NoAug _ l_dis _ => Metrics.eval_metrics "acc" pred l_dis None None
  end.

Definition sev_accuracy (a : Augmented) (pred : list Z) : py (option Q) :=
  match a with
  | Mixup _ _ _ l_sev_a l_sev_b lam _ _ =>
      Metrics.eval_metrics "acc" pred l_sev_a (Some l_sev_b) (Some lam)
  | BcPlus _ _ _ _ l_sev => Metrics.eval_metrics "acc" pred l_sev None None
  | NoAug _ _ l_sev => Metrics.eval_metrics "acc" pred l_sev None None
  end.

(** [acc += x * len(images)] under [if torch.cuda.is_available():]. *)
Definition accumulate (cuda : bool) (acc : Q) (x : py (option Q)) (n : nat)
    : py Q :=
  if cuda then
    v <- x ;;
    w <- times_len v n ;;
    Ret (acc + w)
  else Ret acc.

(** The two losses a training step computes on batch [b]. *)
Definition step_losses (criterion : Criterion) (data_augmentation : string)
    (tr : Trainer) (b : Batch) : Scalar Grad * Scalar Grad :=
  let a := snd (augment data_augmentation (rng tr) b) in
  let outputs := forward (net tr) true (aug_images a) in
  losses criterion a (fst outputs) (snd outputs).

(** [len(images)] in a training step on batch [b]. *)
Definition step_len (data_augmentation : string) (tr : Trainer) (b : Batch)
    : nat :=
  batch_len (aug_images (snd (augment data_augmentation (rng tr) b))).

(** Body of the batch loop of [train]. *)
Definition train_step (opt : Options) (cuda : bool) (criterion : Criterion)
    (data_augmentation : string) (st : Trainer * Metrics) (b : Batch)
    : py (Trainer * Metrics) :=
  let tr := fst st in
  let train_metrics := snd st in
  let ra := augment data_augmentation (rng tr) b in
  let a := snd ra in
  let imgs := aug_images a in
  let outputs := forward (net tr) true imgs in
  let outputs_dis := fst outputs in
  let outputs_sev := snd outputs in
  let ls := losses criterion a outputs_dis outputs_sev in
  let loss_dis := fst ls in
  let loss_sev := snd ls in
  let g := zero_grad (grads tr) in
  let g := backward (backward_loss (output_std opt) loss_dis loss_sev) g in
  let g := clip_grad_norm_ g 5 in
  let om := step (optim tr) (net tr) g in
  let n := batch_len imgs in
  let loss' :=
    loss train_metrics
    + logged_loss (output_std opt) loss_dis loss_sev * inject_Z (Z.of_nat n) in
  dis' <- accumulate cuda (dis_acc train_metrics)
            (dis_accuracy a (argmax outputs_dis)) n ;;
  sev' <- accumulate cuda (sev_acc train_metrics)
            (sev_accuracy a (argmax outputs_sev)) n ;;
  Ret ({| net := snd om; grads := g; optim := fst om; rng := fst ra |},
       {| loss := loss'; dis_acc := dis'; sev_acc := sev' |}).

Definition zero_metrics : Metrics :=
  {| loss := 0; dis_acc := 0; sev_acc := 0 |}.

(** The closing loop over the dict: accuracies become percentages of the
    dataset size, the loss its mean.  A loader over an empty dataset
    yields no batch, and the float [0.0] divided by [0] raises. *)
Definition finish (m : Metrics) (dataset_len : nat) : py Metrics :=
  match dataset_len with
  | O => Raise ZeroDivisionError
  | _ =>
      let n := inject_Z (Z.of_nat dataset_len) in
      Ret {| loss := loss m / n;
             dis_acc := 100 * dis_acc m / n;
             sev_acc := 100 * sev_acc m / n |}
  end.

(** [train(train_loader, model, criterion, optimizer, data_augmentation)] *)
Definition train (opt : Options) (cuda : bool) (train_loader : Loader)
    (tr : Trainer) (criterion : Criterion) (data_augmentation : string)
    : py (Trainer * Metrics) :=
  r <- for_each (train_step opt cuda criterion data_augmentation)
         (batches train_loader) (tr, zero_metrics) ;;
  m <- finish (snd r) (dataset train_loader) ;;
  Ret (fst r, m).

(** The two losses a validation step computes on batch [b], and the two
    prediction vectors. *)
Definition val_losses (m : Model) (criterion : Criterion) (b : Batch)
    : Scalar Grad * Scalar Grad :=
  let outputs := forward m false (images b) in
  (apply_criterion criterion (fst outputs) (Index (labels_dis b)),
   apply_criterion criterion (snd outputs) (Index (labels_sev b))).

Definition val_pred_dis (m : Model) (b : Batch) : list Z :=
  argmax (fst (forward m false (images b))).

Definition val_pred_sev (m : Model) (b : Batch) : list Z :=
  argmax (snd (forward m false (images b))).

(** The per-batch figures of a validation pass, as the specification
    names them: the loss a batch reports, its two accuracies, and its
    size. *)
Definition val_batch_loss (opt : Options) (m : Model)
    (criterion : Criterion) (b : Batch) : Q :=
  logged_loss (output_std opt) (fst (val_losses m criterion b))
    (snd (val_losses m criterion b)).

Definition val_batch_dis_acc (m : Model) (b : Batch) : Q :=
  Metrics.fraction_agree (val_pred_dis m b) (labels_dis b).

Definition val_batch_sev_acc (m : Model) (b : Batch) : Q :=
  Metrics.fraction_agree (val_pred_sev m b) (labels_sev b).

Definition batch_size_of (b : Batch) : Q :=
  inject_Z (Z.of_nat (batch_len (images b))).

(** Body of the batch loop of [validation]. *)
Definition validation_step (opt : Options) (cuda : bool) (m : Model)
    (criterion : Criterion) (val_metrics : Metrics) (b : Batch)
    : py Metrics :=
  let outputs := forward m false (images b) in
  let outputs_dis := fst outputs in
  let outputs_sev := snd outputs in
  let loss_dis := apply_criterion criterion outputs_dis (Index (labels_dis b)) in
  let loss_sev := apply_criterion criterion outputs_sev (Index (labels_sev b)) in
  let n := batch_len (images b) in
  let loss' :=
    loss val_metrics
    + logged_loss (output_std opt) loss_dis loss_sev * inject_Z (Z.of_nat n) in
  dis' <- accumulate cuda (dis_acc val_metrics)
            (Metrics.eval_metrics "acc" (argmax outputs_dis) (labels_dis b)
               None None) n ;;
  sev' <- accumulate cuda (sev_acc val_metrics)
            (Metrics.eval_metrics "acc" (argmax outputs_sev) (labels_sev b)
               None None) n ;;
  Ret {| loss := loss'; dis_acc := dis'; sev_acc := sev' |}.

(** [validation(val_loader, model, criterion)] *)
Definition validation (opt : Options) (cuda : bool) (val_loader : Loader)
    (m : Model) (criterion : Criterion) : py Metrics :=
  r <- for_each (validation_step opt cuda m criterion)
         (batches val_loader) zero_metrics ;;
  finish r (dataset val_loader).

(** The dict [record]. *)
Record TrainingRecord : Type := {
  r_model : string;
  r_batch_size : Z;
  r_weight_decay : Q;
  r_optimizer : string;
  r_pretrained : bool;
  r_data_augmentation : string;
  r_epochs : Z;
  train_loss : list Q;
  val_loss : list Q;
  train_dis_acc : list Q;
  val_dis_acc : list Q;
  train_sev_acc : list Q;
  val_sev_acc : list Q
}.

Definition new_record (opt : Options) : TrainingRecord :=
  {| r_model := model opt; r_batch_size := batch_size opt;
     r_weight_decay := weight_decay opt; r_optimizer := optimizer opt;
     r_pretrained := pretrained opt;
     r_data_augmentation := data_augmentation opt; r_epochs := epochs opt;
     train_loss := []; val_loss := []; train_dis_acc := [];
     val_dis_acc := []; train_sev_acc := []; val_sev_acc := [] |}.

(** "Recording metrics": the six appends. *)
Definition append_metrics (r : TrainingRecord) (train_metrics val_metrics
    : Metrics) : TrainingRecord :=
  {| r_model := r_model r; r_batch_size := r_batch_size r;
     r_weight_decay := r_weight_decay r; r_optimizer := r_optimizer r;
     r_pretrained := r_pretrained r;
     r_data_augmentation := r_data_augmentation r; r_epochs := r_epochs r;
     train_loss := train_loss r ++ [loss train_metrics];
     val_loss := val_loss r ++ [loss val_metrics];
     train_dis_acc := train_dis_acc r ++ [dis_acc train_metrics];
     val_dis_acc := val_dis_acc r ++ [dis_acc val_metrics];
     train_sev_acc := train_sev_acc r ++ [sev_acc train_metrics];
     val_sev_acc := val_sev_acc r ++ [sev_acc val_metrics] |}.

(** The state of a run between two epochs: the live objects, the record,
    [best_loss], and the two artifacts on disk, with the epochs at which
    the checkpoint file was written (oldest first). *)
Record Run : Type := {
  trainer : Trainer;
  record : TrainingRecord;
  best_loss : Q;
  checkpoint : option Model;
  saved : list nat;
  log_file : option TrainingRecord
}.

(** [criterion_train] and [criterion_val] *)
Definition criterion_train (opt : Options) : Criterion :=
  if negb (String.eqb (data_augmentation opt) "bc+")
  then CrossEntropyLoss else KLDivLoss.

Definition criterion_val : Criterion := CrossEntropyLoss.

(** The optimizer the run constructs. *)
Definition new_optimizer (opt : Options) : Optim :=
  if String.eqb (optimizer opt) "sgd"
  then {| lrs := {| LearningRate.param_groups := [1 # 100] |};
          internal := sgd_init (weight_decay opt) |}
  else {| lrs := {| LearningRate.param_groups := [1 # 1000] |};
          internal := adam_init (weight_decay opt) |}.

(** Body of the epoch loop of [run_training]. *)
Definition epoch_body (opt : Options) (cuda : bool)
    (train_loader val_loader : Loader) (st : Run) (epoch : nat) : py Run :=
  t <- train opt cuda train_loader (trainer st) (criterion_train opt)
         (data_augmentation opt) ;;
  let tr := fst t in
  let train_metrics := snd t in
  val_metrics <- validation opt cuda val_loader (net tr) criterion_val ;;
  lr' <- LearningRate.adjust_learning_rate (lrs (optim tr))
           (Z.of_nat epoch) opt ;;
  let tr' := {| net := net tr; grads := grads tr;
                optim := {| lrs := lr'; internal := internal (optim tr) |};
                rng := rng tr |} in
  let record' := append_metrics (record st) train_metrics val_metrics in
  let curr_loss := loss val_metrics in
  if Checkpoint.improves curr_loss (best_loss st) epoch
  then Ret {| trainer := tr'; record := record'; best_loss := curr_loss;
              checkpoint := Some (net tr'); saved := saved st ++ [epoch];
              log_file := Some record' |}
  else Ret {| trainer := tr'; record := record'; best_loss := best_loss st;
              checkpoint := checkpoint st; saved := saved st;
              log_file := Some record' |}.

(** The epoch loop. *)
Definition run_epochs (opt : Options) (cuda : bool)
    (train_loader val_loader : Loader) (epoch_list : list nat) (st : Run)
    : Run * option exn :=
  Checkpoint.run_loop (epoch_body opt cuda train_loader val_loader)
    epoch_list st.

(** The state before the first epoch. *)
Definition start (opt : Options) (m : Model) (r : Rng) : Run :=
  {| trainer := {| net := m; grads := gzero; optim := new_optimizer opt;
                   rng := r |};
     record := new_record opt;
     best_loss := Checkpoint.initial_best_loss;
     checkpoint := None; saved := []; log_file := None |}.

(** [run_training()], from the loaders and the network that [data_loader]
    and [cnn_model] return. *)
Definition run_training (opt : Options) (cuda : bool)
    (train_loader val_loader : Loader) (m : Model) (r : Rng)
    : Run * option exn :=
  run_epochs opt cuda train_loader val_loader
    (seq 0 (Z.to_nat (epochs opt))) (start opt m r).

End Clf.
End EntireLeafClf.

(** ** Lesion-spot classifier *)

Module LesionSpotClf.
Import Torch.

Section Clf.
Context {B : Backend}.

(** The dict [{'loss', 'acc'}]. *)
Record Metrics : Type := {
  loss : Q;
  acc : Q
}.

(** One item of a loader: [images, labels]. *)
Record Batch : Type := {
  images : Images;
  labels : list Z
}.

Record Loader : Type := {
  batches : list Batch;
  dataset : nat
}.

(** The variables bound by the augmentation stage of a training step. *)
Inductive Augmented : Type :=
| NoAug (imgs : Images) (lbl : list Z)
| BcPlus (imgs : Images) (l_a : Dense) (lbl : list Z)
| Mixup (imgs : Images) (l_a l_b : list Z) (lam : Q) (lbl : list Z).

Definition aug_images (a : Augmented) : Images :=
  match a with
  | NoAug imgs _ => imgs
  | BcPlus imgs _ _ => imgs
  | Mixup imgs _ _ _ _ => imgs
  end.

(** The variable [labels] after the augmentation stage. *)
Definition aug_labels (a : Augmented) : list Z :=
  match a with
  | NoAug _ lbl => lbl
  | BcPlus _ _ lbl => lbl
  | Mixup _ _ _ _ lbl => lbl
  end.

Definition augment (data_augmentation : string) (r : Rng) (b : Batch)
    : Rng * Augmented :=
  if String.eqb data_augmentation "bc+" then
    let o := between_class1 r (images b) (labels b) in
    (fst o, BcPlus (fst (snd o)) (snd (snd o)) (argmax_dense (snd (snd o))))
  else if String.eqb data_augmentation "mixup" then
    let o := mixup_data1 r (images b) (labels b) in
    (fst o,
     Mixup (fst (fst (fst (snd o)))) (snd (fst (fst (snd o))))
       (snd (fst (snd o))) (snd (snd o)) (labels b))
  else (r, NoAug (images b) (labels b)).

Definition step_loss (criterion : Criterion) (a : Augmented)
    (outputs : Scores) : Scalar Grad :=
  match a with
  | BcPlus _ l_a _ => apply_criterion criterion (log_softmax outputs) (Soft l_a)
  | Mixup _ l_a l_b lam _ => mixup_criterion criterion outputs l_a l_b lam
  | NoAug _ lbl => apply_criterion criterion outputs (Index lbl)
  end.

Definition accuracy (a : Augmented) (pred : list Z) : py (option Q) :=
  match a with
  | Mixup _ l_a l_b lam _ =>
      Metrics.eval_metrics "acc" pred l_a (Some l_b) (Some lam)
  | BcPlus _ _ lbl => Metrics.eval_metrics "acc" pred lbl None None
  | NoAug _ lbl => Metrics.eval_metrics "acc" pred lbl None None
  end.

(** The loop variables of [train]: the metrics dict, [correct], [total]. *)
Record Counters : Type := {
  metrics : Metrics;
  correct : Q;
  total : nat
}.

(** [100.0 * float(correct) / total] *)
Definition percentage (correct : Q) (total : nat) : py Q :=
  match total with
  | O => Raise ZeroDivisionError
  | _ => Ret (100 * correct / inject_Z (Z.of_nat total))
  end.

(** Body of the batch loop of [train]. *)
Definition train_step (cuda : bool) (criterion : Criterion)
    (data_augmentation : string) (st : Trainer * Counters) (b : Batch)
    : py (Trainer * Counters) :=
  let tr := fst st in
  let c := snd st in
  let ra := augment data_augmentation (rng tr) b in
  let a := snd ra in
  let imgs := aug_images a in
  let g := zero_grad (grads tr) in
  let outputs := forward1 (net tr) true imgs in
  let l := step_loss criterion a outputs in
  let g := backward l g in
  let g := clip_grad_norm_ g 5 in
  let om := step (optim tr) (net tr) g in
  let n := batch_len imgs in
  let loss' := loss (metrics c) + data l * inject_Z (Z.of_nat n) in
  correct' <-
    (if cuda then
       v <- accuracy a (argmax outputs) ;;
       w <- times_len v n ;;
       Ret (correct c + w)
     else Ret (correct c)) ;;
  let total' := (total c + length (aug_labels a))%nat in
  acc' <- percentage correct' total' ;;
  Ret ({| net := snd om; grads := g; optim := fst om; rng := fst ra |},
       {| metrics := {| loss := loss'; acc := acc' |};
          correct := correct'; total := total' |}).

Definition zero_counters : Counters :=
  {| metrics := {| loss := 0; acc := 0 |}; correct := 0; total := 0 |}.

(** [metrics['loss'] = metrics['loss'] / len(loader.dataset)]; as for
    the entire-leaf classifier, an empty dataset yields no batch and the
    float [0.0] divided by [0] raises. *)
Definition finish (m : Metrics) (dataset_len : nat) : py Metrics :=
  match dataset_len with
  | O => Raise ZeroDivisionError
  | _ => Ret {| loss := loss m / inject_Z (Z.of_nat dataset_len);
                acc := acc m |}
  end.

(** [train(train_loader, model, criterion, optimizer, data_augmentation)] *)
Definition train (cuda : bool) (train_loader : Loader) (tr : Trainer)
    (criterion : Criterion) (data_augmentation : string)
    : py (Trainer * Metrics) :=
  r <- for_each (train_step cuda criterion data_augmentation)
         (batches train_loader) (tr, zero_counters) ;;
  m <- finish (metrics (snd r)) (dataset train_loader) ;;
  Ret (fst r, m).

(** [(pred == labels).sum()]: tensors of one size are compared element by
    element, a tensor of one element is broadcast against the other, and
    tensors of other sizes do not compare. *)
Definition count_equal (pred lbl : list Z) : py Q :=
  if (length pred =? length lbl)%nat
  then Ret (inject_Z (Z.of_nat (Metrics.agree lbl pred)))
  else
    match pred, lbl with
    | [p], _ => Ret (inject_Z (Z.of_nat (count_occ Z.eq_dec lbl p)))
    | _, [l] => Ret (inject_Z (Z.of_nat (count_occ Z.eq_dec pred l)))
    | _, _ => Raise RuntimeError
    end.

(** Body of the batch loop of [validation].  Its device test reads
    [if torch.cuda.is_available:], the function object itself, which is
    always true: the first branch is taken on every host. *)
Definition validation_step (m : Model) (criterion : Criterion)
    (c : Counters) (b : Batch) : py Counters :=
  let outputs := forward1 m false (images b) in
  let l := apply_criterion criterion outputs (Index (labels b)) in
  let n := batch_len (images b) in
  let loss' := loss (metrics c) + data l * inject_Z (Z.of_nat n) in
  let total' := (total c + length (labels b))%nat in
  k <- count_equal (argmax outputs) (labels b) ;;
  let correct' := correct c + k in
  acc' <- percentage correct' total' ;;
  Ret {| metrics := {| loss := loss'; acc := acc' |};
         correct := correct'; total := total' |}.

(** [validation(val_loader, model, criterion)] *)
Definition validation (val_loader : Loader) (m : Model)
    (criterion : Criterion) : py Metrics :=
  r <- for_each (validation_step m criterion) (batches val_loader)
         zero_counters ;;
  finish (metrics r) (dataset val_loader).

(** The dict [record]. *)
Record TrainingRecord : Type := {
  r_model : string;
  r_batch_size : Z;
  r_weight_decay : Q;
  r_optimizer : string;
  r_pretrained : bool;
  r_data_augmentation : string;
  r_epochs : Z;
  train_loss : list Q;
  val_loss : list Q;
  train_acc : list Q;
  val_acc : list Q
}.

Definition new_record (opt : Options) : TrainingRecord :=
  {| r_model := model opt; r_batch_size := batch_size opt;
     r_weight_decay := weight_decay opt; r_optimizer := optimizer opt;
     r_pretrained := pretrained opt;
     r_data_augmentation := data_augmentation opt; r_epochs := epochs opt;
     train_loss := []; val_loss := []; train_acc := []; val_acc := [] |}.

Definition append_metrics (r : TrainingRecord) (train_metrics val_metrics
    : Metrics) : TrainingRecord :=
  {| r_model := r_model r; r_batch_size := r_batch_size r;
     r_weight_decay := r_weight_decay r; r_optimizer := r_optimizer r;
     r_pretrained := r_pretrained r;
     r_data_augmentation := r_data_augmentation r; r_epochs := r_epochs r;
     train_loss := train_loss r ++ [loss train_metrics];
     val_loss := val_loss r ++ [loss val_metrics];
     train_acc := train_acc r ++ [acc train_metrics];
     val_acc := val_acc r ++ [acc val_metrics] |}.

Record Run : Type := {
  trainer : Trainer;
  record : TrainingRecord;
  best_loss : Q;
  checkpoint : option Model;
  saved : list nat;
  log_file : option TrainingRecord
}.

Definition criterion_train (opt : Options) : Criterion :=
  if negb (String.eqb (data_augmentation opt) "bc+")
  then CrossEntropyLoss else KLDivLoss.

Definition criterion_val : Criterion := CrossEntropyLoss.

Definition new_optimizer (opt : Options) : Optim :=
  if String.eqb (optimizer opt) "sgd"
  then {| lrs := {| LearningRate.param_groups := [1 # 100] |};
          internal := sgd_init (weight_decay opt) |}
  else {| lrs := {| LearningRate.param_groups := [1 # 1000] |};
          internal := adam_init (weight_decay opt) |}.

(** Body of the epoch loop of [run_training]. *)
Definition epoch_body (opt : Options) (cuda : bool)
    (train_loader val_loader : Loader) (st : Run) (epoch : nat) : py Run :=
  t <- train cuda train_loader (trainer st) (criterion_train opt)
         (data_augmentation opt) ;;
  let tr := fst t in
  let train_metrics := snd t in
  val_metrics <- validation val_loader (net tr) criterion_val ;;
  lr' <- LearningRate.adjust_learning_rate (lrs (optim tr))
           (Z.of_nat epoch) opt ;;
  let tr' := {| net := net tr; grads := grads tr;
                optim := {| lrs := lr'; internal := internal (optim tr) |};
                rng := rng tr |} in
  let record' := append_metrics (record st) train_metrics val_metrics in
  let curr_loss := loss val_metrics in
  if Checkpoint.improves curr_loss (best_loss st) epoch
  then Ret {| trainer := tr'; record := record'; best_loss := curr_loss;
              checkpoint := Some (net tr'); saved := saved st ++ [epoch];
              log_file := Some record' |}
  else Ret {| trainer := tr'; record := record'; best_loss := best_loss st;
              checkpoint := checkpoint st; saved := saved st;
              log_file := Some record' |}.

Definition run_epochs (opt : Options) (cuda : bool)
    (train_loader val_loader : Loader) (epoch_list : list nat) (st : Run)
    : Run * option exn :=
  Checkpoint.run_loop (epoch_body opt cuda train_loader val_loader)
    epoch_list st.

Definition start (opt : Options) (m : Model) (r : Rng) : Run :=
  {| trainer := {| net := m; grads := gzero; optim := new_optimizer opt;
                   rng := r |};
     record := new_record opt;
     best_loss := Checkpoint.initial_best_loss;
     checkpoint := None; saved := []; log_file := None |}.

(** [run_training()] *)
Definition run_training (opt : Options) (cuda : bool)
    (train_loader val_loader : Loader) (m : Model) (r : Rng)
    : Run * option exn :=
  run_epochs opt cuda train_loader val_loader
    (seq 0 (Z.to_nat (epochs opt))) (start opt m r).

End Clf.
End LesionSpotClf.

(** ** A small concrete backend

    A stand-in for torch on which the loops run on explicit inputs: an
    image is an integer [x], the disease head predicts [x mod 5] and the
    severity head [(x / 5) mod 5]; the network has one parameter [theta];
    every loss is [theta] plus the number of wrong predictions, with
    gradient 1; the optimizer takes plain gradient steps. *)

Module Toy.
Import Torch.

Definition target_labels (t : Target (list Z)) : list Z :=
  match t with
  | Index l => l
  | Soft d => d
  end.

Definition toy_loss (s : list Z * Q) (t : Target (list Z)) : Scalar Q :=
  {| data := snd s
             + inject_Z (Z.of_nat (length (fst s)
                                   - Metrics.agree (target_labels t) (fst s)));
     grad := 1 |}.

Definition backend : Backend :=
  {| Images := list Z;
     Scores := list Z * Q;
     Dense := list Z;
     Model := Q;
     Grad := Q;
     OptState := unit;
     Rng := nat;
     batch_len := fun imgs => length imgs;
     forward := fun theta _ imgs =>
       ((map (fun x => x mod 5)%Z imgs, theta),
        (map (fun x => (x / 5) mod 5)%Z imgs, theta));
     forward1 := fun theta _ imgs => (map (fun x => x mod 5)%Z imgs, theta);
     argmax := fun s => fst s;
     argmax_dense := fun d => d;
     log_softmax := fun s => s;
     cross_entropy := toy_loss;
     kl_div := toy_loss;
     gzero := 0;
     gadd := Qplus;
     gscale := Qmult;
     clip_grad_norm_ := fun g m => if Qle_bool g m then g else m;
     sgd_init := fun _ => tt;
     adam_init := fun _ => tt;
     optimizer_step := fun rates _ theta g =>
       (tt, Qred (theta - hd 0 rates * g));
     between_class := fun r imgs ld ls =>
       (S r, {| bc_images := imgs; bc_dis := ld; bc_sev := ls |});
     between_class1 := fun r imgs l => (S r, (imgs, l));
     mixup_data := fun r imgs ld ls =>
       (S r, {| mix_images := imgs; mix_dis_a := ld; mix_dis_b := rev ld;
                mix_sev_a := ls; mix_sev_b := rev ls; mix_lam := 1 # 2 |});
     mixup_data1 := fun r imgs l => (S r, (imgs, l, rev l, 1 # 2)) |}.

(** Two leaves, both classified correctly by both heads: image 7 is
    disease 2 with severity 1, image 13 is disease 3 with severity 2. *)
Definition leaf_batch : EntireLeafClf.Batch (B := backend) :=
  @EntireLeafClf.Build_Batch backend [7; 13]%Z [2; 3]%Z [1; 2]%Z.

(** The same two leaves with a wrong severity label on the second. *)
Definition leaf_batch' : EntireLeafClf.Batch (B := backend) :=
  @EntireLeafClf.Build_Batch backend [7; 13]%Z [2; 3]%Z [1; 4]%Z.

Definition leaf_loader : EntireLeafClf.Loader (B := backend) :=
  @EntireLeafClf.Build_Loader backend [leaf_batch] 2.

Definition leaf_loader' : EntireLeafClf.Loader (B := backend) :=
  @EntireLeafClf.Build_Loader backend [leaf_batch'] 2.

Definition spot_batch : LesionSpotClf.Batch (B := backend) :=
  @LesionSpotClf.Build_Batch backend [7; 13]%Z [2; 3]%Z.

Definition spot_loader : LesionSpotClf.Loader (B := backend) :=
  @LesionSpotClf.Build_Loader backend [spot_batch] 2.

(** A fresh trainer around a network of parameter [theta]. *)
Definition trainer (opt : Options) (theta : Q) : Trainer (B := backend) :=
  @Build_Trainer backend theta 0
    (EntireLeafClf.new_optimizer (B := backend) opt) O.

(** A configuration by its optimizer, epoch count, augmentation and output
    mode. *)
Definition config (optimizer_kind : string) (n : Z)
    (augmentation output_mode : string) : Options :=
  {| select_classifier := 1; model := "resnet50"; pretrained := true;
     batch_size := 2; weight_decay := 5 # 10000;
     optimizer := optimizer_kind; epochs := n;
     data_augmentation := augmentation; balanced_dataset := false;
     output_std := output_mode; output_filename := "leaf" |}.

(** Ten epochs of the entire-leaf classifier, and of the lesion-spot
    classifier, from a network of parameter [theta]; the validation loss
    of an epoch is the parameter after it, so it decreases from epoch to
    epoch. *)
Definition leaf_config : Options := config "sgd" 10 "standard" "multitask".

(** The same run with gradients routed to the disease head only. *)
Definition disease_config : Options := config "sgd" 10 "standard" "disease".

Definition leaf_run (theta : Q) : EntireLeafClf.Run * option exn :=
  EntireLeafClf.run_training (B := backend) leaf_config true
    leaf_loader leaf_loader theta O.

Definition spot_run (theta : Q) : LesionSpotClf.Run * option exn :=
  LesionSpotClf.run_training (B := backend) leaf_config true
    spot_loader spot_loader theta O.

End Toy.

(** ** Parameter count and test-time predictions *)

Module Evaluation.
Import Torch.

(** [get_n_params()], on the shapes [p.size()] of the parameters of the
    loaded model: the sum over the parameters of the product of their
    dimensions. *)
Definition get_n_params (parameters : list (list Z)) : Z :=
  fold_left
    (fun pp p => (pp + fold_left (fun nn s => (nn * s)%Z) p 1%Z)%Z)
    parameters 0%Z.

Section Predictions.
Context {B : Backend}.

(** The batch loop of [LesionSpotClf.run_test]: [y_pred] and [y_true]
    grow by concatenation, batch after batch. *)
Definition collect (m : Model) (bs : list LesionSpotClf.Batch)
    : list Z * list Z :=
  fold_left
    (fun acc b =>
       (fst acc ++ argmax (forward1 m false (LesionSpotClf.images b)),
        snd acc ++ LesionSpotClf.labels b))
    bs ([], []).

(** [acc = accuracy_score(y_true, y_pred)] of [run_test]. *)
Definition test_accuracy (m : Model) (bs : list LesionSpotClf.Batch)
    : py Q :=
  Metrics.accuracy_score (snd (collect m bs)) (fst (collect m bs)).

(** The loop of [EntireLeafClf.run_test]: the predictions and the labels
    of both heads, concatenated batch after batch, as
    [((y_pred_dis, y_true_dis), (y_pred_sev, y_true_sev))]. *)
Definition collect_leaf (m : Model) (bs : list EntireLeafClf.Batch)
    : (list Z * list Z) * (list Z * list Z) :=
  fold_left
    (fun acc b =>
       let outputs := forward m false (EntireLeafClf.images b) in
       ((fst (fst acc) ++ argmax (fst outputs),
         snd (fst acc) ++ EntireLeafClf.labels_dis b),
        (fst (snd acc) ++ argmax (snd outputs),
         snd (snd acc) ++ EntireLeafClf.labels_sev b)))
    bs (([], []), ([], [])).

(** [acc = accuracy_score(y_true_dis, y_pred_dis)] and
    [acc = accuracy_score(y_true_sev, y_pred_sev)] *)
Definition test_accuracy_dis (m : Model) (bs : list EntireLeafClf.Batch)
    : py Q :=
  Metrics.accuracy_score (snd (fst (collect_leaf m bs)))
    (fst (fst (collect_leaf m bs))).

Definition test_accuracy_sev (m : Model) (bs : list EntireLeafClf.Batch)
    : py Q :=
  Metrics.accuracy_score (snd (snd (collect_leaf m bs)))
    (fst (snd (collect_leaf m bs))).

End Predictions.

End Evaluation.

(** * Properties *)

(** ** Metric helper *)

Section MetricsFacts.
Import Metrics.

Lemma agree_filter (y_true y_pred : list Z) :
  agree y_true y_pred =
  length (filter (fun pl => (fst pl =? snd pl)%Z) (combine y_pred y_true)).
Proof.
  revert y_pred; induction y_true as [|t y_true IH]; intros [|p y_pred];
    simpl; try reflexivity.
  rewrite (Z.eqb_sym p t). destruct (t =? p)%Z; simpl; now rewrite IH.
Qed.

Lemma accuracy_score_fraction (y_true y_pred : list Z) :
  y_pred <> [] ->
  length y_pred = length y_true ->
  accuracy_score y_true y_pred = Ret (fraction_agree y_pred y_true).
Proof.
  intros Hne Hlen. unfold accuracy_score, fraction_agree, Num.len.
  rewrite Hlen, Nat.eqb_refl, agree_filter.
  destruct y_true as [|t y_true]; [|reflexivity].
  destruct y_pred; [congruence|discriminate].
Qed.

(** The score is returned on non-empty vectors of one length only. *)
Lemma accuracy_score_Ret (y_true y_pred : list Z) (q : Q) :
  accuracy_score y_true y_pred = Ret q ->
  y_pred <> [] /\ length y_pred = length y_true.
Proof.
  unfold accuracy_score.
  destruct (Nat.eqb_spec (length y_true) (length y_pred)) as [E|E];
    [|discriminate].
  destruct y_true as [|t y_true]; [discriminate|].
  intros _. split; [|congruence].
  destruct y_pred; [discriminate|congruence].
Qed.

Lemma accuracy_score_mismatch (y_true y_pred : list Z) :
  length y_pred <> length y_true ->
  accuracy_score y_true y_pred = Raise ValueError.
Proof.
  intros Hlen. unfold accuracy_score.
  destruct (Nat.eqb_spec (length y_true) (length y_pred)); congruence.
Qed.

Lemma fraction_agree_bounds (pred labels : list Z) :
  0 <= fraction_agree pred labels <= 1.
Proof.
  unfold fraction_agree, Num.len.
  set (k := length (filter _ _)).
  assert (Hk : (k <= length pred)%nat).
  { subst k. etransitivity; [apply filter_length_le|].
    rewrite length_combine. apply Nat.le_min_l. }
  destruct (length pred) as [|n] eqn:E.
  - assert (k = 0%nat) by lia. subst k. rewrite H. split; discriminate.
  - split.
    + apply Qle_shift_div_l; [reflexivity|].
      rewrite Qmult_0_l. rewrite <- (Zle_Qle 0). lia.
    + apply Qle_shift_div_r; [reflexivity|].
      rewrite Qmult_1_l. rewrite <- Zle_Qle. lia.
Qed.

(** Without a second label set the helper is the plain accuracy. *)
Lemma eval_metrics_plain (pred labels : list Z) :
  pred <> [] ->
  length pred = length labels ->
  eval_metrics "acc" pred labels None None
  = Ret (Some (fraction_agree pred labels)).
Proof.
  intros Hne Hlen. unfold eval_metrics. simpl.
  now rewrite accuracy_score_fraction.
Qed.

(** C1. For non-empty prediction and label vectors of one length and every
    mixing coefficient [lam] (in particular every [lam] in [0,1]), the
    mixed-label accuracy [eval_metrics('acc', pred, a, b, lam)] is [lam]
    times the plain accuracy of [pred] against [a] plus [1 - lam] times the
    plain accuracy of [pred] against [b], the plain accuracy being the
    fraction of positions where prediction and label agree.  (On empty
    vectors the accuracy is not defined: [accuracy_score] rejects them.) *)
Theorem eval_metrics_mixup_law (pred a b : list Z) (lam : Q) :
  pred <> [] ->
  length pred = length a ->
  length pred = length b ->
  eval_metrics "acc" pred a (Some b) (Some lam)
  = Ret (Some (lam * fraction_agree pred a
               + (1 - lam) * fraction_agree pred b))
  /\ eval_metrics "acc" pred a None None = Ret (Some (fraction_agree pred a))
  /\ eval_metrics "acc" pred b None None = Ret (Some (fraction_agree pred b)).
Proof.
  intros Hne Ha Hb. split; [|split].
  - unfold eval_metrics. simpl.
    rewrite !accuracy_score_fraction by assumption. reflexivity.
  - now apply eval_metrics_plain.
  - now apply eval_metrics_plain.
Qed.

Lemma eval_metrics_mixup_law_witness :
  eval_metrics "acc" [1; 2; 0; 3]%Z [1; 2; 2; 4]%Z (Some [0; 2; 0; 3]%Z)
    (Some (1 # 4))
  = Ret (Some ((1 # 4) * fraction_agree [1; 2; 0; 3]%Z [1; 2; 2; 4]%Z
               + (1 - (1 # 4)) * fraction_agree [1; 2; 0; 3]%Z [0; 2; 0; 3]%Z)).
Proof.
  apply (eval_metrics_mixup_law [1; 2; 0; 3]%Z [1; 2; 2; 4]%Z [0; 2; 0; 3]%Z
           (1 # 4)); [discriminate|reflexivity|reflexivity].
Defined.

(** For [lam] in [0,1] the mixed accuracy stays in [0,1]. *)
Lemma mixup_accuracy_bounds (pred a b : list Z) (lam : Q) :
  0 <= lam <= 1 ->
  0 <= lam * fraction_agree pred a + (1 - lam) * fraction_agree pred b <= 1.
Proof.
  intros Hl.
  pose proof (fraction_agree_bounds pred a).
  pose proof (fraction_agree_bounds pred b).
  nra.
Qed.

End MetricsFacts.

(** ** Sums of weights *)

Section SumFacts.

Lemma fold_left_Qplus_acc (l : list Q) (a : Q) :
  fold_left Qplus l a == a + fold_left Qplus l 0.
Proof.
  revert a; induction l as [|x l IH]; intros a; simpl.
  - ring.
  - rewrite (IH (a + x)), (IH (0 + x)). ring.
Qed.

Lemma sum_cons (x : Q) (l : list Q) : Num.sum (x :: l) == x + Num.sum l.
Proof.
  unfold Num.sum; simpl. rewrite fold_left_Qplus_acc. ring.
Qed.

Lemma sum_nonneg (l : list Q) :
  (forall x, In x l -> 0 <= x) -> 0 <= Num.sum l.
Proof.
  induction l as [|x l IH]; intros H.
  - discriminate.
  - rewrite sum_cons.
    assert (0 <= x) by (apply H; now left).
    assert (0 <= Num.sum l) by (apply IH; intros y Hy; apply H; now right).
    lra.
Qed.

Lemma sum_pos (l : list Q) (y : Q) :
  (forall x, In x l -> 0 <= x) -> In y l -> 0 < y -> 0 < Num.sum l.
Proof.
  induction l as [|x l IH]; intros H Hin Hy; [contradiction|].
  rewrite sum_cons.
  assert (0 <= x) by (apply H; now left).
  assert (0 <= Num.sum l) by (apply sum_nonneg; intros z Hz; apply H; now right).
  destruct Hin as [->|Hin].
  - lra.
  - assert (0 < Num.sum l) by (apply IH; auto; intros z Hz; apply H; now right).
    lra.
Qed.

Lemma sum_map_div (l : list Q) (s : Q) :
  Num.sum (map (fun x => x / s) l) == Num.sum l / s.
Proof.
  induction l as [|x l IH]; simpl.
  - unfold Num.sum; simpl. unfold Qdiv. ring.
  - rewrite !sum_cons, IH. unfold Qdiv. ring.
Qed.

End SumFacts.

(** ** Imbalance-aware sampler *)

Section SamplerFacts.
Import Sampler.

Lemma update_length (i : nat) (v : Q) (w : list Q) :
  length (update i v w) = length w.
Proof.
  revert i; induction w as [|x w IH]; intros [|i]; simpl; auto.
Qed.

Lemma nth_update (i j : nat) (v : Q) (w : list Q) (d : Q) :
  nth j (update i v w) d
  = if (i =? j)%nat && (j <? length w)%nat then v else nth j w d.
Proof.
  revert i j; induction w as [|x w IH]; intros i j.
  - destruct i, j; simpl; try reflexivity;
      now rewrite andb_false_r.
  - destruct i as [|i], j as [|j]; simpl; try reflexivity.
    rewrite IH. reflexivity.
Qed.

Lemma assign_at_length (idx : list nat) (v : Q) (w : list Q) :
  length (assign_at idx v w) = length w.
Proof.
  unfold assign_at. revert w; induction idx as [|i idx IH]; intros w; simpl.
  - reflexivity.
  - now rewrite IH, update_length.
Qed.

Lemma nth_assign_at (idx : list nat) (j : nat) (v : Q) (w : list Q) (d : Q) :
  nth j (assign_at idx v w) d
  = if existsb (Nat.eqb j) idx && (j <? length w)%nat then v else nth j w d.
Proof.
  unfold assign_at. revert w; induction idx as [|i idx IH]; intros w; simpl.
  - reflexivity.
  - rewrite IH, update_length, nth_update, (Nat.eqb_sym j i).
    destruct (i =? j)%nat, (existsb (Nat.eqb j) idx), (j <? length w)%nat;
      reflexivity.
Qed.

Lemma existsb_where_from (j k : nat) (m : list bool) :
  existsb (Nat.eqb j)
    (map fst (filter snd (combine (seq k (length m)) m)))
  = (k <=? j)%nat && nth (j - k) m false.
Proof.
  revert k; induction m as [|b m IH]; intros k; simpl.
  - destruct (j - k)%nat; now rewrite andb_false_r.
  - destruct b; simpl; rewrite IH.
    + destruct (Nat.eqb_spec j k) as [->|Hne].
      * rewrite Nat.leb_refl, Nat.sub_diag. reflexivity.
      * destruct (Nat.leb_spec k j), (Nat.leb_spec (S k) j); try lia; simpl; auto.
        replace (j - k)%nat with (S (j - S k)) by lia. reflexivity.
    + destruct (Nat.leb_spec k j), (Nat.leb_spec (S k) j); try lia; simpl; auto.
      * replace (j - k)%nat with (S (j - S k)) by lia. reflexivity.
      * replace (j - k)%nat with 0%nat by lia. reflexivity.
Qed.

Lemma existsb_where (j : nat) (m : list bool) :
  existsb (Nat.eqb j) (where_ m) = nth j m false.
Proof.
  unfold where_. rewrite existsb_where_from. simpl. now rewrite Nat.sub_0_r.
Qed.

Lemma length_where_from (k : nat) (m : list bool) :
  length (map fst (filter snd (combine (seq k (length m)) m)))
  = length (filter (fun b : bool => b) m).
Proof.
  revert k; induction m as [|b m IH]; intros k; simpl; [reflexivity|].
  destruct b; simpl; now rewrite IH.
Qed.

Lemma sum_bool_acc (m : list bool) (a : Z) :
  fold_left (fun acc (b : bool) => if b then (acc + 1)%Z else acc) m a
  = (a + Z.of_nat (length (filter (fun b : bool => b) m)))%Z.
Proof.
  revert a; induction m as [|b m IH]; intros a; simpl.
  - lia.
  - rewrite IH. destruct b; simpl; lia.
Qed.

Lemma sum_bool_count (m : list bool) :
  sum_bool m = Z.of_nat (length (filter (fun b : bool => b) m)).
Proof. unfold sum_bool. now rewrite sum_bool_acc. Qed.

Lemma length_where (m : list bool) :
  length (where_ m) = length (filter (fun b : bool => b) m).
Proof. apply length_where_from. Qed.

Lemma filter_map_id {A : Type} (f : A -> bool) (l : list A) :
  length (filter (fun b : bool => b) (map f l)) = length (filter f l).
Proof.
  induction l as [|x l IH]; simpl; [reflexivity|].
  destruct (f x); simpl; now rewrite IH.
Qed.

Lemma sum_bool_cell_mask (dis sev : list Z) (d s : Z) :
  sum_bool (cell_mask dis sev d s) = Z.of_nat (cell_count dis sev d s).
Proof.
  rewrite sum_bool_count. unfold cell_mask, cell_count.
  now rewrite filter_map_id.
Qed.

Lemma length_where_class_mask (targets : list Z) (t : Z) :
  length (where_ (class_mask targets t)) = class_count targets t.
Proof.
  rewrite length_where. unfold class_mask, class_count.
  rewrite filter_map_id.
  induction targets as [|x l IH]; simpl; [reflexivity|].
  destruct (Z.eq_dec x t) as [->|Hne].
  - rewrite Z.eqb_refl. simpl. now rewrite IH.
  - apply Z.eqb_neq in Hne. rewrite Hne. exact IH.
Qed.

Lemma nth_cell_mask (dis sev : list Z) (d s a b : Z) (j : nat) :
  nth_error dis j = Some a ->
  nth_error sev j = Some b ->
  nth j (cell_mask dis sev d s) false = (a =? d)%Z && (b =? s)%Z.
Proof.
  unfold cell_mask. revert sev j; induction dis as [|x dis IH];
    intros [|y sev] [|j]; simpl; try discriminate.
  - now intros [= ->] [= ->].
  - apply IH.
Qed.

Lemma joint_cell_length (dis sev : list Z) (total : nat) (d s : Z)
    (w : list Q) :
  length (joint_cell dis sev total d s w) = length w.
Proof. apply assign_at_length. Qed.

Lemma nth_joint_cell (dis sev : list Z) (total : nat) (d s a b : Z)
    (j : nat) (w : list Q) :
  nth_error dis j = Some a ->
  nth_error sev j = Some b ->
  length w = length dis ->
  nth j (joint_cell dis sev total d s w) 0
  = if (a =? d)%Z && (b =? s)%Z
    then joint_formula (cell_count dis sev a b) total
    else nth j w 0.
Proof.
  intros Ha Hb Hw. unfold joint_cell.
  rewrite nth_assign_at, existsb_where, (nth_cell_mask _ _ _ _ a b) by assumption.
  assert (Hj : (j <? length w)%nat = true).
  { apply Nat.ltb_lt. rewrite Hw. apply nth_error_Some. congruence. }
  rewrite Hj, andb_true_r.
  destruct (Z.eqb_spec a d) as [->|]; [|reflexivity].
  destruct (Z.eqb_spec b s) as [->|]; [|reflexivity].
  simpl. unfold joint_formula. now rewrite sum_bool_cell_mask.
Qed.

Lemma fold_left_nested {A B C : Type} (f : A -> B -> C -> C)
    (xs : list A) (ys : list B) (c : C) :
  fold_left (fun acc x => fold_left (fun acc' y => f x y acc') ys acc) xs c
  = fold_left (fun acc xy => f (fst xy) (snd xy) acc) (list_prod xs ys) c.
Proof.
  revert c; induction xs as [|x xs IH]; intros c; simpl; [reflexivity|].
  rewrite fold_left_app, IH. f_equal.
  clear IH. revert c. induction ys as [|y ys IHy]; intros c; simpl.
  - reflexivity.
  - apply IHy.
Qed.

Lemma nth_fold_cells (dis sev : list Z) (total : nat) (a b : Z) (j : nat)
    (cs : list (Z * Z)) (w : list Q) :
  nth_error dis j = Some a ->
  nth_error sev j = Some b ->
  length w = length dis ->
  nth j (fold_left (fun acc c => joint_cell dis sev total (fst c) (snd c) acc)
           cs w) 0
  = if existsb (fun c => (a =? fst c)%Z && (b =? snd c)%Z) cs
    then joint_formula (cell_count dis sev a b) total
    else nth j w 0.
Proof.
  intros Ha Hb. revert w; induction cs as [|c cs IH]; intros w Hw; simpl.
  - reflexivity.
  - rewrite IH by (now rewrite joint_cell_length).
    rewrite (nth_joint_cell _ _ _ _ _ a b) by assumption.
    destruct (existsb _ cs); [now rewrite orb_true_r|].
    now rewrite orb_false_r.
Qed.

Lemma existsb_grid (a b : Z) :
  existsb (fun c => (a =? fst c)%Z && (b =? snd c)%Z)
    (list_prod range5 range5)
  = in_grid a b.
Proof.
  unfold in_grid.
  destruct (existsb _ _) eqn:E.
  - apply existsb_exists in E. destruct E as [[d s] [Hin Hc]].
    apply in_prod_iff in Hin. simpl in *.
    apply andb_true_iff in Hc. destruct Hc as [Hd Hs].
    apply Z.eqb_eq in Hd, Hs. subst d s.
    symmetry. repeat (apply andb_true_iff; split);
      first [apply Z.leb_le | apply Z.ltb_lt]; lia.
  - symmetry. apply not_true_is_false. intros H.
    repeat (apply andb_true_iff in H; destruct H as [H ?]).
    apply Z.leb_le in H. apply Z.ltb_lt in H0, H2. apply Z.leb_le in H1.
    assert (Hex : existsb (fun c => (a =? fst c)%Z && (b =? snd c)%Z)
                    (list_prod range5 range5) = true).
    { apply existsb_exists. exists (a, b). split.
      - apply in_prod_iff. simpl. lia.
      - simpl. now rewrite !Z.eqb_refl. }
    congruence.
Qed.

Lemma joint_weights_length (dis sev : list Z) :
  length (joint_weights dis sev) = length dis.
Proof.
  unfold joint_weights. rewrite fold_left_nested.
  generalize (list_prod range5 range5). intros cs.
  assert (H : length (zeros (length dis)) = length dis)
    by apply repeat_length.
  revert H. generalize (zeros (length dis)).
  induction cs as [|c cs IH]; intros w Hw; simpl; [exact Hw|].
  apply IH. now rewrite joint_cell_length.
Qed.

(** The joint loops leave, at every example, the smoothed inverse
    frequency of its cell when the cell lies in the grid, and the initial
    zero otherwise. *)
Lemma nth_joint_weights (dis sev : list Z) (a b : Z) (j : nat) :
  nth_error dis j = Some a ->
  nth_error sev j = Some b ->
  nth j (joint_weights dis sev) 0
  = if in_grid a b
    then joint_formula (cell_count dis sev a b) (length dis)
    else 0.
Proof.
  intros Ha Hb. unfold joint_weights.
  rewrite fold_left_nested.
  rewrite (nth_fold_cells _ _ _ a b) by (auto; apply repeat_length).
  rewrite existsb_grid. destruct (in_grid a b); [reflexivity|].
  unfold zeros. apply nth_repeat.
Qed.

Lemma In_insert_unique (x y : Z) (l : list Z) :
  In x (insert_unique y l) <-> x = y \/ In x l.
Proof.
  induction l as [|z l IH]; simpl.
  - intuition.
  - destruct (y <? z)%Z; [simpl; intuition|].
    destruct (Z.eqb_spec y z) as [->|Hne]; simpl; intuition.
Qed.

(** [np.unique] returns exactly the observed classes. *)
Lemma In_unique (x : Z) (l : list Z) : In x (unique l) <-> In x l.
Proof.
  induction l as [|y l IH]; simpl; [tauto|].
  rewrite In_insert_unique, IH. intuition.
Qed.

Lemma nth_class_mask (targets : list Z) (t t' : Z) (j : nat) :
  nth_error targets j = Some t' ->
  nth j (class_mask targets t) false = (t' =? t)%Z.
Proof.
  unfold class_mask. revert j; induction targets as [|x l IH]; intros [|j];
    simpl; try discriminate.
  - now intros [= ->].
  - apply IH.
Qed.

Lemma single_class_length (targets : list Z) (total : nat) (t : Z)
    (w : list Q) :
  length (single_class targets total t w) = length w.
Proof. apply assign_at_length. Qed.

Lemma nth_single_class (targets : list Z) (total : nat) (t t' : Z) (j : nat)
    (w : list Q) :
  nth_error targets j = Some t' ->
  length w = length targets ->
  nth j (single_class targets total t w) 0
  = if (t' =? t)%Z
    then single_formula (class_count targets t') total
    else nth j w 0.
Proof.
  intros Ht Hw. unfold single_class.
  rewrite nth_assign_at, existsb_where, (nth_class_mask _ _ t') by assumption.
  assert (Hj : (j <? length w)%nat = true).
  { apply Nat.ltb_lt. rewrite Hw. apply nth_error_Some. congruence. }
  rewrite Hj, andb_true_r.
  destruct (Z.eqb_spec t' t) as [->|]; [|reflexivity].
  unfold single_formula, Num.len. now rewrite length_where_class_mask.
Qed.

Lemma nth_fold_classes (targets : list Z) (total : nat) (t' : Z) (j : nat)
    (ts : list Z) (w : list Q) :
  nth_error targets j = Some t' ->
  length w = length targets ->
  nth j (fold_left (fun acc t => single_class targets total t acc) ts w) 0
  = if existsb (Z.eqb t') ts
    then single_formula (class_count targets t') total
    else nth j w 0.
Proof.
  intros Ht. revert w; induction ts as [|t ts IH]; intros w Hw; simpl.
  - reflexivity.
  - rewrite IH by (now rewrite single_class_length).
    rewrite (nth_single_class _ _ _ t') by assumption.
    destruct (existsb _ ts); [now rewrite orb_true_r|].
    now rewrite orb_false_r.
Qed.

Lemma single_weights_length (targets : list Z) :
  length (single_weights targets) = length targets.
Proof.
  unfold single_weights. generalize (unique targets); intros ts.
  assert (H : length (zeros (length targets)) = length targets)
    by apply repeat_length.
  revert H. generalize (zeros (length targets)).
  induction ts as [|t ts IH]; intros w Hw; simpl; [exact Hw|].
  apply IH. now rewrite single_class_length.
Qed.

(** The single-label loop leaves, at every example, the inverse frequency
    of its class. *)
Lemma nth_single_weights (targets : list Z) (t : Z) (j : nat) :
  nth_error targets j = Some t ->
  nth j (single_weights targets) 0
  = single_formula (class_count targets t) (length targets).
Proof.
  intros Ht. unfold single_weights.
  rewrite (nth_fold_classes _ _ t) by (auto; apply repeat_length).
  assert (Hex : existsb (Z.eqb t) (unique targets) = true).
  { apply existsb_exists. exists t. split; [|apply Z.eqb_refl].
    apply In_unique. eapply nth_error_In; eauto. }
  now rewrite Hex.
Qed.

(** A cell without examples writes nothing. *)
Lemma joint_cell_empty (dis sev : list Z) (total : nat) (d s : Z)
    (w : list Q) :
  cell_count dis sev d s = 0%nat ->
  joint_cell dis sev total d s w = w.
Proof.
  intros H. unfold joint_cell.
  assert (Hw : where_ (cell_mask dis sev d s) = []).
  { apply length_zero_iff_nil. rewrite length_where.
    unfold cell_mask. now rewrite filter_map_id. }
  now rewrite Hw.
Qed.

Lemma joint_formula_pos (n total : nat) :
  (0 < total)%nat -> 0 < joint_formula n total.
Proof.
  intros Ht. unfold joint_formula, balance_factor.
  assert (0 < inject_Z (Z.of_nat total)) by (rewrite <- (Zlt_Qlt 0); lia).
  assert (0 <= inject_Z (Z.of_nat n)) by (rewrite <- (Zle_Qle 0); lia).
  unfold Qdiv at 1. rewrite Qmult_1_l. apply Qinv_lt_0_compat.
  apply Qlt_shift_div_l; [assumption|].
  rewrite Qmult_0_l. change (inject_Z 20) with 20. lra.
Qed.

Lemma single_formula_pos (n total : nat) :
  (0 < n)%nat -> (0 < total)%nat -> 0 < single_formula n total.
Proof.
  intros Hn Ht. unfold single_formula.
  assert (0 < inject_Z (Z.of_nat total)) by (rewrite <- (Zlt_Qlt 0); lia).
  assert (0 < inject_Z (Z.of_nat n)) by (rewrite <- (Zlt_Qlt 0); lia).
  unfold Qdiv at 1. rewrite Qmult_1_l. apply Qinv_lt_0_compat.
  apply Qlt_shift_div_l; [assumption|].
  now rewrite Qmult_0_l.
Qed.

Lemma class_count_pos (targets : list Z) (t : Z) (j : nat) :
  nth_error targets j = Some t -> (0 < class_count targets t)%nat.
Proof.
  intros H. apply count_occ_In. eapply nth_error_In; eauto.
Qed.

Lemma nth_normalise (w : list Q) (i : nat) :
  nth i (normalise w) 0 == nth i w 0 / Num.sum w.
Proof.
  unfold normalise.
  destruct (Nat.lt_ge_cases i (length w)) as [Hlt|Hge].
  - rewrite (nth_indep _ 0 (0 / Num.sum w)) by (now rewrite length_map).
    rewrite (map_nth (fun x => x / Num.sum w)). reflexivity.
  - rewrite !nth_overflow by (rewrite ?length_map; assumption).
    unfold Qdiv. ring.
Qed.

Lemma sum_normalise (w : list Q) :
  ~ Num.sum w == 0 -> Num.sum (normalise w) == 1.
Proof.
  intros H. unfold normalise. rewrite sum_map_div. now field.
Qed.

Lemma In_nth_nonneg (w : list Q) :
  (forall i, 0 <= nth i w 0) -> forall x, In x w -> 0 <= x.
Proof.
  intros H x Hin. destruct (In_nth _ _ 0 Hin) as [i [_ <-]]. apply H.
Qed.

Lemma normalise_nonneg (w : list Q) (i : nat) :
  (forall k, 0 <= nth k w 0) -> 0 <= nth i (normalise w) 0.
Proof.
  intros H. rewrite nth_normalise.
  assert (Hs : 0 <= Num.sum w) by (apply sum_nonneg, In_nth_nonneg, H).
  destruct (Qeq_dec (Num.sum w) 0) as [E|E].
  - rewrite E. unfold Qdiv, Qinv; simpl. rewrite Qmult_0_r. discriminate.
  - apply Qle_shift_div_l; [lra|]. rewrite Qmult_0_l. apply H.
Qed.

Lemma normalise_pos (w : list Q) (i : nat) :
  (forall k, 0 <= nth k w 0) -> 0 < nth i w 0 -> 0 < nth i (normalise w) 0.
Proof.
  intros H Hi. rewrite nth_normalise.
  assert (Hin : In (nth i w 0) w).
  { apply nth_In. destruct (Nat.lt_ge_cases i (length w)); [assumption|].
    rewrite nth_overflow in Hi by assumption. discriminate. }
  assert (Hs : 0 < Num.sum w)
    by (eapply sum_pos; eauto; apply In_nth_nonneg, H).
  apply Qlt_shift_div_l; [assumption|]. now rewrite Qmult_0_l.
Qed.

Lemma nth_error_dis_column (d : list (list Z)) (i : nat) (row : list Z) :
  nth_error d i = Some row ->
  nth_error (dis_column d) i = Some (nth 1 row 0%Z).
Proof. intros H. unfold dis_column. now rewrite nth_error_map, H. Qed.

Lemma nth_error_sev_column (d : list (list Z)) (i : nat) (row : list Z) :
  nth_error d i = Some row ->
  nth_error (sev_column d) i = Some (last row 0%Z).
Proof. intros H. unfold sev_column. now rewrite nth_error_map, H. Qed.

Lemma joint_weights_nonneg (d : list (list Z)) (k : nat) :
  0 <= nth k (joint_weights (dis_column d) (sev_column d)) 0.
Proof.
  destruct (nth_error d k) as [row|] eqn:E.
  - rewrite (nth_joint_weights _ _ _ _ _ (nth_error_dis_column _ _ _ E)
               (nth_error_sev_column _ _ _ E)).
    destruct (in_grid _ _); [|discriminate].
    apply Qlt_le_weak, joint_formula_pos.
    unfold dis_column. rewrite length_map.
    assert (k < length d)%nat by (apply nth_error_Some; congruence). lia.
  - rewrite nth_overflow; [discriminate|].
    rewrite joint_weights_length. unfold dis_column. rewrite length_map.
    now apply nth_error_None.
Qed.

Lemma single_weights_nonneg (targets : list Z) (k : nat) :
  0 <= nth k (single_weights targets) 0.
Proof.
  destruct (nth_error targets k) as [t|] eqn:E.
  - rewrite (nth_single_weights _ _ _ E).
    apply Qlt_le_weak, single_formula_pos.
    + eapply class_count_pos; eauto.
    + assert (k < length targets)%nat by (apply nth_error_Some; congruence).
      lia.
  - rewrite nth_overflow; [discriminate|].
    rewrite single_weights_length. now apply nth_error_None.
Qed.

Lemma raw_weights_nonneg (dataset : Dataset) (opt : Options) (k : nat) :
  0 <= nth k (raw_weights dataset opt) 0.
Proof.
  unfold raw_weights. destruct (select_classifier opt =? 1)%Z.
  - apply joint_weights_nonneg.
  - apply single_weights_nonneg.
Qed.

Lemma raw_weights_length (dataset : Dataset) (opt : Options) :
  length (raw_weights dataset opt)
  = if (select_classifier opt =? 1)%Z
    then length (data dataset) else length (samples dataset).
Proof.
  unfold raw_weights. destruct (select_classifier opt =? 1)%Z.
  - rewrite joint_weights_length. unfold dis_column. apply length_map.
  - rewrite single_weights_length. apply length_map.
Qed.

(** What a successful call returns: the normalised weights and a schedule
    as long as the (non-empty) dataset. *)
Lemma sampler_Ret (dataset : Dataset) (opt : Options)
    (smp : WeightedRandomSampler) :
  sampler dataset opt = Ret smp ->
  weights smp = normalise (raw_weights dataset opt)
  /\ num_samples smp = length (raw_weights dataset opt)
  /\ (0 < length (raw_weights dataset opt))%nat.
Proof.
  unfold sampler, raw_weights.
  destruct (select_classifier opt =? 1)%Z.
  - destruct (sliceable (data dataset)); [|discriminate].
    unfold Py.bind.
    set (w := joint_weights _ _).
    assert (Hn : length (normalise w) = length w)
      by (unfold normalise; apply length_map).
    destruct (length (normalise w)) eqn:El; [discriminate|].
    intros [= <-]; simpl. repeat split; lia.
  - simpl. set (w := single_weights _).
    assert (Hn : length (normalise w) = length w)
      by (unfold normalise; apply length_map).
    destruct (length (normalise w)) eqn:El; [discriminate|].
    intros [= <-]; simpl. repeat split; lia.
Qed.

(** In the joint case a successful call sliced a two-dimensional array
    with a second column. *)
Lemma sampler_Ret_sliceable (dataset : Dataset) (opt : Options)
    (smp : WeightedRandomSampler) :
  sampler dataset opt = Ret smp ->
  select_classifier opt = 1%Z ->
  sliceable (data dataset) = true.
Proof.
  unfold sampler. intros H Hsel. rewrite Hsel in H. simpl in H.
  destruct (sliceable (data dataset)); [reflexivity|discriminate].
Qed.

(** The sampler returns on every non-empty dataset whose [data] array, in
    the joint case, can be sliced by column. *)
Lemma sampler_returns (dataset : Dataset) (opt : Options) :
  (0 < length (raw_weights dataset opt))%nat ->
  (select_classifier opt = 1%Z -> sliceable (data dataset) = true) ->
  exists smp, sampler dataset opt = Ret smp.
Proof.
  intros Hlen Hsl. revert Hlen.
  unfold sampler, raw_weights.
  destruct (Z.eqb_spec (select_classifier opt) 1) as [Hsel|Hsel].
  - rewrite (Hsl Hsel). unfold Py.bind.
    set (w := joint_weights _ _). intros Hlen.
    assert (Hn : length (normalise w) = length w)
      by (unfold normalise; apply length_map).
    destruct (length (normalise w)) eqn:El; [lia|]. eauto.
  - simpl. set (w := single_weights _). intros Hlen.
    assert (Hn : length (normalise w) = length w)
      by (unfold normalise; apply length_map).
    destruct (length (normalise w)) eqn:El; [lia|]. eauto.
Qed.

Lemma sum_normalise_pos (w : list Q) (i : nat) :
  (forall k, 0 <= nth k w 0) -> 0 < nth i w 0 ->
  Num.sum (normalise w) == 1.
Proof.
  intros H Hi. apply sum_normalise.
  assert (Hin : In (nth i w 0) w).
  { apply nth_In. destruct (Nat.lt_ge_cases i (length w)); [assumption|].
    rewrite nth_overflow in Hi by assumption. discriminate. }
  assert (Hs : 0 < Num.sum w)
    by (eapply sum_pos; eauto; apply In_nth_nonneg, H).
  lra.
Qed.

(** Inverse-frequency law of the single-label case: after normalisation,
    weight times class size is the same for every example. *)
Lemma single_weights_ratio (targets : list Z) (i j : nat) (ti tj : Z) :
  nth_error targets i = Some ti ->
  nth_error targets j = Some tj ->
  nth i (normalise (single_weights targets)) 0
    * inject_Z (Z.of_nat (class_count targets ti))
  == nth j (normalise (single_weights targets)) 0
    * inject_Z (Z.of_nat (class_count targets tj)).
Proof.
  intros Hi Hj. rewrite !nth_normalise.
  rewrite (nth_single_weights _ _ _ Hi), (nth_single_weights _ _ _ Hj).
  pose proof (class_count_pos _ _ _ Hi) as Pi.
  pose proof (class_count_pos _ _ _ Hj) as Pj.
  assert (Ht : (0 < length targets)%nat)
    by (apply Nat.le_lt_trans with i; [lia|]; apply nth_error_Some; congruence).
  unfold single_formula.
  assert (~ inject_Z (Z.of_nat (length targets)) == 0).
  { intros E. assert (0 < inject_Z (Z.of_nat (length targets)))
      by (rewrite <- (Zlt_Qlt 0); lia). lra. }
  assert (~ inject_Z (Z.of_nat (class_count targets ti)) == 0).
  { intros E. assert (0 < inject_Z (Z.of_nat (class_count targets ti)))
      by (rewrite <- (Zlt_Qlt 0); lia). lra. }
  assert (~ inject_Z (Z.of_nat (class_count targets tj)) == 0).
  { intros E. assert (0 < inject_Z (Z.of_nat (class_count targets tj)))
      by (rewrite <- (Zlt_Qlt 0); lia). lra. }
  destruct (Qeq_dec (Num.sum (single_weights targets)) 0) as [E|E].
  - rewrite E. unfold Qdiv. change (/ 0) with 0. ring.
  - field. repeat split; assumption.
Qed.

Example leaves_4_weights :
  match sampler leaves_4 joint_mode with
  | Ret smp =>
      map Qred (weights smp) = [11 # 43; 21 # 86; 21 # 86; 11 # 43]
      /\ num_samples smp = 4%nat
  | Raise _ => False
  end.
Proof. vm_compute. split; reflexivity. Qed.

Example empty_dataset_rejected :
  sampler {| data := []; samples := [] |} joint_mode = Raise IndexError
  /\ sampler {| data := []; samples := [] |} single_mode = Raise ValueError.
Proof. split; reflexivity. Qed.

(** C2. Whenever the sampler returns, its weights are the
    pre-normalisation weights divided by their sum.  In the joint case the
    loops visit the 25 cells of the grid, a cell without examples writes
    nothing, and an example of a cell with [n] occurrences has the
    pre-normalisation weight [1 / ((n + 20) / total)]; in the single-label
    case the loop visits exactly the observed classes and an example of a
    class with [n] occurrences has the weight [1 / (n / total)]; the
    normalised weights sum to 1; and for 100 single-label samples split
    90/10 over two classes every minority example weighs 9 times every
    majority example. *)
Theorem sampler_weights_formula (dataset : Dataset) (opt : Options)
    (smp : WeightedRandomSampler) :
  sampler dataset opt = Ret smp ->
  weights smp
  = map (fun x => x / Num.sum (raw_weights dataset opt))
        (raw_weights dataset opt)
  /\ (select_classifier opt = 1%Z ->
      raw_weights dataset opt
      = fold_left
          (fun w c =>
             joint_cell (dis_of dataset) (sev_of dataset)
               (length (dis_of dataset)) (fst c) (snd c) w)
          (list_prod range5 range5) (zeros (length (dis_of dataset)))
      /\ length (list_prod range5 range5) = 25%nat
      /\ (forall d s w,
            cell_count (dis_of dataset) (sev_of dataset) d s = 0%nat ->
            joint_cell (dis_of dataset) (sev_of dataset)
              (length (dis_of dataset)) d s w = w)
      /\ (forall i d s,
            nth_error (dis_of dataset) i = Some d ->
            nth_error (sev_of dataset) i = Some s ->
            in_grid d s = true ->
            nth i (raw_weights dataset opt) 0
            = 1 / ((inject_Z (Z.of_nat
                      (cell_count (dis_of dataset) (sev_of dataset) d s))
                    + 20)
                   / inject_Z (Z.of_nat (length (dis_of dataset)))))
      /\ ((exists i d s,
             nth_error (dis_of dataset) i = Some d /\
             nth_error (sev_of dataset) i = Some s /\
             in_grid d s = true) ->
          Num.sum (weights smp) == 1))
  /\ (select_classifier opt <> 1%Z ->
      (forall t, In t (unique (targets_of dataset))
                 <-> In t (targets_of dataset))
      /\ (forall i t,
            nth_error (targets_of dataset) i = Some t ->
            nth i (raw_weights dataset opt) 0
            = 1 / (inject_Z (Z.of_nat (class_count (targets_of dataset) t))
                   / inject_Z (Z.of_nat (length (targets_of dataset)))))
      /\ Num.sum (weights smp) == 1
      /\ (length (targets_of dataset) = 100%nat ->
          forall i j cmin cmaj,
            nth_error (targets_of dataset) i = Some cmin ->
            nth_error (targets_of dataset) j = Some cmaj ->
            class_count (targets_of dataset) cmin = 10%nat ->
            class_count (targets_of dataset) cmaj = 90%nat ->
            nth i (weights smp) 0 == 9 * nth j (weights smp) 0)).
Proof.
  intros Hs. destruct (sampler_Ret _ _ _ Hs) as (Hw & _ & Hlen).
  split; [exact Hw|]. split.
  - intros Hsel. unfold raw_weights in *. rewrite Hsel in *. simpl in *.
    fold (dis_of dataset) in *. fold (sev_of dataset) in *.
    split; [|split; [|split; [|split]]].
    + unfold joint_weights.
      exact (fold_left_nested
               (fun d s w =>
                  joint_cell (dis_of dataset) (sev_of dataset)
                    (length (dis_of dataset)) d s w)
               range5 range5 _).
    + reflexivity.
    + intros d s w. apply joint_cell_empty.
    + intros i d s Hd Hv Hg.
      rewrite (nth_joint_weights _ _ _ _ _ Hd Hv), Hg. reflexivity.
    + intros (i & d & s & Hd & Hv & Hg). rewrite Hw.
      apply (sum_normalise_pos _ i).
      * intros k. apply joint_weights_nonneg.
      * rewrite (nth_joint_weights _ _ _ _ _ Hd Hv), Hg.
        apply joint_formula_pos.
        assert (i < length (dis_of dataset))%nat
          by (apply nth_error_Some; congruence). lia.
  - intros Hsel. apply Z.eqb_neq in Hsel.
    unfold raw_weights in *. rewrite Hsel in *.
    fold (targets_of dataset) in *.
    rewrite single_weights_length in Hlen.
    split; [|split; [|split]].
    + intros t. apply In_unique.
    + intros i t Ht. now rewrite (nth_single_weights _ _ _ Ht).
    + rewrite Hw.
      destruct (nth_error (targets_of dataset) 0) as [t|] eqn:E;
        [|apply nth_error_None in E; lia].
      apply (sum_normalise_pos _ 0%nat).
      * intros k. apply single_weights_nonneg.
      * rewrite (nth_single_weights _ _ _ E).
        apply single_formula_pos; [eapply class_count_pos; eauto|lia].
    + intros _ i j cmin cmaj Hi Hj Cmin Cmaj. rewrite Hw.
      pose proof (single_weights_ratio _ _ _ _ _ Hi Hj) as R.
      rewrite Cmin, Cmaj in R.
      change (inject_Z (Z.of_nat 10)) with 10 in R.
      change (inject_Z (Z.of_nat 90)) with 90 in R.
      lra.
Qed.

Lemma sampler_weights_formula_witness :
  exists smp,
    sampler imbalanced_90_10 single_mode = Ret smp
    /\ nth 95 (weights smp) 0 == 9 * nth 3 (weights smp) 0.
Proof.
  destruct (sampler_returns imbalanced_90_10 single_mode) as [smp Hs].
  - rewrite raw_weights_length. simpl. lia.
  - discriminate.
  - exists smp. split; [exact Hs|].
    destruct (sampler_weights_formula imbalanced_90_10 single_mode smp Hs)
      as (_ & _ & H).
    destruct (H ltac:(discriminate)) as (_ & _ & _ & R).
    apply (R eq_refl 95%nat 3%nat 1%Z 0%Z); reflexivity.
Defined.

(** C3. On every non-empty dataset of the label space the sampler returns
    one weight per example; every weight is non-negative; the weights sum
    to 1; and every example whose class or (disease, severity) combination
    is one of the label space receives a strictly positive weight.  In the
    joint case the dataset is a table with the disease in column 1 and the
    severity in the last column, and it holds an example whose combination
    is a cell of the 5 x 5 grid: on a table without a second column the
    slice raises, and with no label in the grid the weights sum to zero
    before the normalisation, which divides by that sum. *)
Theorem sampler_weights_distribution (dataset : Dataset) (opt : Options) :
  (0 < size dataset opt)%nat ->
  (select_classifier opt = 1%Z ->
   sliceable (data dataset) = true
   /\ exists i d s,
        nth_error (dis_of dataset) i = Some d /\
        nth_error (sev_of dataset) i = Some s /\
        in_grid d s = true) ->
  exists smp,
    sampler dataset opt = Ret smp
    /\ length (weights smp) = size dataset opt
    /\ (forall x, In x (weights smp) -> 0 <= x)
    /\ Num.sum (weights smp) == 1
    /\ (forall i,
          (i < size dataset opt)%nat ->
          (select_classifier opt = 1%Z ->
           exists d s,
             nth_error (dis_of dataset) i = Some d /\
             nth_error (sev_of dataset) i = Some s /\
             in_grid d s = true) ->
          0 < nth i (weights smp) 0).
Proof.
  intros Hsize Hjoint. unfold size in *.
  destruct (sampler_returns dataset opt) as [smp Hs].
  { now rewrite raw_weights_length. }
  { intros Hsel. apply (Hjoint Hsel). }
  exists smp. split; [exact Hs|].
  destruct (sampler_Ret _ _ _ Hs) as (Hw & _ & _).
  pose proof (raw_weights_nonneg dataset opt) as Hnn.
  pose proof (raw_weights_length dataset opt) as Hlen.
  split; [|split; [|split]].
  - rewrite Hw. unfold normalise. now rewrite length_map.
  - rewrite Hw. apply In_nth_nonneg. intros i. now apply normalise_nonneg.
  - rewrite Hw.
    unfold raw_weights in *.
    destruct (Z.eqb_spec (select_classifier opt) 1) as [Hsel|Hsel].
    + destruct (Hjoint Hsel) as (_ & i & d & s & Hd & Hv & Hg).
      apply (sum_normalise_pos _ i); [exact Hnn|].
      unfold dis_of, sev_of in *.
      rewrite (nth_joint_weights _ _ _ _ _ Hd Hv), Hg.
      apply joint_formula_pos.
      assert (i < length (dis_column (data dataset)))%nat
        by (apply nth_error_Some; congruence). lia.
    + destruct (nth_error (map snd (samples dataset)) 0) as [t|] eqn:E;
        [|apply nth_error_None in E; rewrite length_map in E; lia].
      apply (sum_normalise_pos _ 0%nat); [exact Hnn|].
      rewrite (nth_single_weights _ _ _ E).
      apply single_formula_pos; [eapply class_count_pos; eauto|].
      rewrite length_map. lia.
  - intros i Hi Hgrid. rewrite Hw. apply normalise_pos; [exact Hnn|].
    unfold raw_weights in *.
    destruct (Z.eqb_spec (select_classifier opt) 1) as [Hsel|Hsel].
    + destruct (Hgrid Hsel) as (d & s & Hd & Hv & Hg).
      unfold dis_of, sev_of in *.
      rewrite (nth_joint_weights _ _ _ _ _ Hd Hv), Hg.
      apply joint_formula_pos.
      unfold dis_column. rewrite length_map. lia.
    + destruct (nth_error (map snd (samples dataset)) i) as [t|] eqn:E;
        [|apply nth_error_None in E; rewrite length_map in E; lia].
      rewrite (nth_single_weights _ _ _ E).
      apply single_formula_pos; [eapply class_count_pos; eauto|].
      rewrite length_map. lia.
Qed.

Lemma sampler_weights_distribution_witness :
  exists smp,
    sampler leaves_4 joint_mode = Ret smp
    /\ length (weights smp) = 4%nat
    /\ Num.sum (weights smp) == 1
    /\ 0 < nth 3 (weights smp) 0.
Proof.
  destruct (sampler_weights_distribution leaves_4 joint_mode)
    as (smp & Hs & Hl & _ & Hsum & Hpos).
  - unfold size; simpl. lia.
  - intros _. split; [reflexivity|].
    exists 0%nat, 0%Z, 0%Z. split; [reflexivity|]. split; reflexivity.
  - exists smp. split; [exact Hs|]. split; [exact Hl|]. split.
    + exact Hsum.
    + apply Hpos; [unfold size; simpl; lia|].
      intros _. exists 4%Z, 3%Z. split; [reflexivity|]. split; reflexivity.
Defined.

End SamplerFacts.

(** ** Learning-rate schedule *)

Section LearningRateFacts.
Import LearningRate.

Example lr_step_10 : lr_step 10 = 2%Z.
Proof. reflexivity. Qed.

Example lr_index_10_9 : lr_index 9 10 = Ret 4%Z.
Proof. reflexivity. Qed.

Example lr_step_7 : lr_step 7 = 1%Z.
Proof. reflexivity. Qed.

Example lr_index_7_5 : lr_index 5 7 = Ret 5%Z.
Proof. reflexivity. Qed.

Example adjust_10_epochs :
  adjust_all sgd_optimizer (seq 0 10) (sgd_run 10)
  = Ret {| param_groups := [1 # 10000] |}.
Proof. reflexivity. Qed.

Lemma lr_step_spec (n : Z) : lr_step n = ((2 * n + 5) / 10)%Z.
Proof.
  unfold lr_step, Num.round, Num.Qlt_bool.
  change 5 with (inject_Z 5). rewrite <- Zdiv_Qdiv.
  assert (Hd : inject_Z n / inject_Z 5 - inject_Z (n / 5)
               == inject_Z (n mod 5) / inject_Z 5).
  { rewrite (Z.div_mod n 5) at 1 by lia.
    rewrite inject_Z_plus, inject_Z_mult. field. }
  rewrite !Hd. clear Hd.
  pose proof (Z.mod_pos_bound n 5 ltac:(lia)) as Hr.
  pose proof (Z.div_mod n 5 ltac:(lia)) as Hn.
  set (k := (n / 5)%Z) in *. set (rhs := ((2 * n + 5) / 10)%Z).
  assert (Hlo : ((n mod 5 <= 2)%Z -> k = rhs)).
  { intros Hle. subst rhs.
    apply Z.div_unique with (r := (2 * (n mod 5) + 5)%Z); lia. }
  assert (Hhi : ((3 <= n mod 5)%Z -> (k + 1)%Z = rhs)).
  { intros Hle. subst rhs.
    apply Z.div_unique with (r := (2 * (n mod 5) - 5)%Z); lia. }
  assert (Hc : (n mod 5 = 0 \/ n mod 5 = 1 \/ n mod 5 = 2
                \/ n mod 5 = 3 \/ n mod 5 = 4)%Z) by lia.
  destruct Hc as [E|[E|[E|[E|E]]]]; rewrite E in *;
    cbv [Qle_bool Qdiv Qmult Qinv inject_Z Qnum Qden negb Z.leb Z.compare
         Z.mul Pos.mul Pos.compare Pos.compare_cont];
    (apply Hlo || apply Hhi); lia.
Qed.

Lemma lr_index_spec (e n : Z) :
  lr_step n <> 0%Z ->
  lr_index e n = Ret (Z.min (e / lr_step n) 5).
Proof.
  intros Hs. unfold lr_index, truediv.
  apply Z.eqb_neq in Hs. rewrite Hs. unfold Py.bind.
  now rewrite <- Zdiv_Qdiv.
Qed.

Lemma getitem_lr_values (i : Z) :
  (0 <= i)%Z ->
  raises (getitem lr_values i) = negb (i <? 5)%Z.
Proof.
  intros Hi. unfold getitem.
  assert (Hn : (i <? 0)%Z = false) by (apply Z.ltb_ge; lia).
  rewrite Hn, Hn.
  destruct (Z.ltb_spec i 5).
  - assert (Hc : (i = 0 \/ i = 1 \/ i = 2 \/ i = 3 \/ i = 4)%Z) by lia.
    destruct Hc as [->|[->|[->|[->| ->]]]]; reflexivity.
  - destruct (nth_error lr_values (Z.to_nat i)) eqn:E; [|reflexivity].
    assert (Z.to_nat i < length lr_values)%nat
      by (apply nth_error_Some; congruence).
    simpl in *. lia.
Qed.

(** One adjustment of an SGD run succeeds exactly when the step is
    non-zero and the epoch lies below five steps. *)
Lemma adjust_learning_rate_raises (optim : Optimizer) (e : Z)
    (opt : Options) :
  optimizer opt = "sgd"%string ->
  (0 <= e)%Z -> (0 <= epochs opt)%Z ->
  raises (adjust_learning_rate optim e opt)
  = (lr_step (epochs opt) =? 0)%Z || (5 * lr_step (epochs opt) <=? e)%Z.
Proof.
  intros Ho He Hn. unfold adjust_learning_rate. rewrite Ho.
  change ("sgd" =? "sgd")%string with true. cbv iota.
  destruct (Z.eqb_spec (lr_step (epochs opt)) 0) as [Hz|Hz].
  - unfold lr_index, truediv. rewrite Hz. reflexivity.
  - rewrite lr_index_spec by assumption. unfold Py.bind at 1.
    rewrite orb_false_l.
    assert (Hpos : (0 < lr_step (epochs opt))%Z).
    { rewrite lr_step_spec in *.
      assert (0 <= (2 * epochs opt + 5) / 10)%Z
        by (apply Z.div_pos; lia). lia. }
    assert (Hq : (0 <= e / lr_step (epochs opt))%Z)
      by (apply Z.div_pos; lia).
    pose proof (getitem_lr_values (Z.min (e / lr_step (epochs opt)) 5)
                  ltac:(lia)) as G.
    destruct (getitem lr_values _) as [x|ex]; unfold Py.bind, raises in *.
    + symmetry. apply Z.leb_gt. symmetry in G.
      apply negb_false_iff, Z.ltb_lt in G.
      destruct (Z.lt_ge_cases e (5 * lr_step (epochs opt))); [assumption|].
      assert (5 <= e / lr_step (epochs opt))%Z
        by (apply Z.div_le_lower_bound; lia). lia.
    + symmetry. apply Z.leb_le. symmetry in G.
      apply negb_true_iff, Z.ltb_ge in G.
      assert (5 <= e / lr_step (epochs opt))%Z by lia.
      destruct (Z.lt_ge_cases e (5 * lr_step (epochs opt))); [|assumption].
      assert (e / lr_step (epochs opt) < 5)%Z
        by (apply Z.div_lt_upper_bound; lia). lia.
Qed.

(** X9. The epoch counts on which the schedule is safe: an SGD run of
    [n >= 1] epochs gets through every adjustment exactly when [n mod 5]
    is 0, 3 or 4. *)
Lemma schedule_safe_iff (optim : Optimizer) (opt : Options) :
  optimizer opt = "sgd"%string ->
  (1 <= epochs opt)%Z ->
  (forall e, (0 <= e < epochs opt)%Z ->
             raises (adjust_learning_rate optim e opt) = false)
  <-> (epochs opt mod 5 = 0 \/ epochs opt mod 5 = 3
       \/ epochs opt mod 5 = 4)%Z.
Proof.
  intros Ho Hn.
  pose proof (Z.mod_pos_bound (epochs opt) 5 ltac:(lia)) as Hr.
  pose proof (Z.div_mod (epochs opt) 5 ltac:(lia)) as Hd.
  pose proof (lr_step_spec (epochs opt)) as Hs.
  assert (Hstep : (epochs opt mod 5 <= 2 ->
                   lr_step (epochs opt) = epochs opt / 5)%Z).
  { intros Hle. rewrite Hs. symmetry.
    apply Z.div_unique with (r := (2 * (epochs opt mod 5) + 5)%Z); lia. }
  assert (Hstep' : (3 <= epochs opt mod 5 ->
                    lr_step (epochs opt) = epochs opt / 5 + 1)%Z).
  { intros Hle. rewrite Hs. symmetry.
    apply Z.div_unique with (r := (2 * (epochs opt mod 5) - 5)%Z); lia. }
  split.
  - intros Hsafe.
    destruct (Z.le_gt_cases 3 (epochs opt mod 5)) as [H3|H3]; [lia|].
    destruct (Z.eq_dec (epochs opt mod 5) 0) as [H0|H0]; [lia|].
    exfalso.
    specialize (Hsafe (epochs opt - 1)%Z ltac:(lia)).
    rewrite adjust_learning_rate_raises in Hsafe by (auto; lia).
    apply orb_false_iff in Hsafe. destruct Hsafe as [_ Hsafe].
    apply Z.leb_gt in Hsafe. rewrite Hstep in Hsafe by lia. lia.
  - intros Hmod e He.
    rewrite adjust_learning_rate_raises by (auto; lia).
    apply orb_false_iff. split.
    + apply Z.eqb_neq.
      destruct Hmod as [H|[H|H]].
      * rewrite Hstep by lia. lia.
      * rewrite Hstep' by lia.
        assert (0 <= epochs opt / 5)%Z by (apply Z.div_pos; lia). lia.
      * rewrite Hstep' by lia.
        assert (0 <= epochs opt / 5)%Z by (apply Z.div_pos; lia). lia.
    + apply Z.leb_gt.
      destruct Hmod as [H|[H|H]].
      * rewrite Hstep by lia. lia.
      * rewrite Hstep' by lia. lia.
      * rewrite Hstep' by lia. lia.
Qed.

(** C9 (violated by the code). With the SGD optimizer and 7 epochs the
    step is [round(7 / 5) = 1], so at epoch 5 the index is
    [min(floor(5 / 1), 5) = 5], one past the last entry of the five
    learning rates, and the lookup raises [IndexError]; with a single
    epoch the step is [round(1 / 5) = 0] and the division raises
    [ZeroDivisionError]. *)
Theorem adjust_learning_rate_out_of_range :
  lr_step 7 = 1%Z
  /\ lr_index 5 7 = Ret 5%Z
  /\ length lr_values = 5%nat
  /\ getitem lr_values 5 = Raise IndexError
  /\ adjust_learning_rate sgd_optimizer 5 (sgd_run 7) = Raise IndexError
  /\ adjust_all sgd_optimizer (seq 0 7) (sgd_run 7) = Raise IndexError
  /\ adjust_learning_rate sgd_optimizer 0 (sgd_run 1)
     = Raise ZeroDivisionError.
Proof. repeat split. Qed.

End LearningRateFacts.

(** ** Runs on the concrete backend *)

Section ToyRuns.
Import Torch Toy.

Example toy_train_epoch :
  match
    EntireLeafClf.train (B := backend) leaf_config true leaf_loader
      (trainer leaf_config 2) CrossEntropyLoss "standard"
  with
  | Ret (tr, m) =>
      EntireLeafClf.dis_acc m == 100 /\ EntireLeafClf.loss m == 2
      /\ net tr == 198 # 100
  | Raise _ => False
  end.
Proof. vm_compute. repeat split. Qed.

End ToyRuns.

(** ** The keep-best policy of the epoch loop *)

Section KeepBest.
Import Checkpoint.

Lemma Qlt_bool_iff (x y : Q) : Num.Qlt_bool x y = true <-> x < y.
Proof.
  unfold Num.Qlt_bool. rewrite negb_true_iff.
  split.
  - intros H. apply Qnot_le_lt. intros Hle.
    apply Qle_bool_iff in Hle. congruence.
  - intros H. apply not_true_is_false. intros Hle.
    apply Qle_bool_iff in Hle. apply (Qlt_not_le _ _ H Hle).
Qed.

Lemma improves_iff (curr best : Q) (e : nat) :
  improves curr best e = true <-> (5 <= e)%nat /\ curr < best.
Proof.
  unfold improves. rewrite andb_true_iff, Qlt_bool_iff, Nat.leb_le. tauto.
Qed.

Lemma run_loop_app {S : Type} (body : S -> nat -> py S)
    (l1 l2 : list nat) (st : S) :
  run_loop body (l1 ++ l2) st
  = match run_loop body l1 st with
    | (st1, None) => run_loop body l2 st1
    | (st1, Some e) => (st1, Some e)
    end.
Proof.
  revert st; induction l1 as [|e l1 IH]; intros st; simpl.
  - reflexivity.
  - destruct (body st e); [apply IH|reflexivity].
Qed.

Lemma best_after_short (l : list Q) :
  (length l <= 5)%nat -> best_after l = initial_best_loss.
Proof.
  intros H. unfold best_after. now rewrite skipn_all2.
Qed.

Lemma best_after_snoc (l : list Q) (c : Q) :
  best_after (l ++ [c])
  = if (5 <=? length l)%nat then keep_min (best_after l) c
    else best_after l.
Proof.
  destruct (Nat.leb_spec 5 (length l)) as [H|H].
  - unfold best_after. rewrite skipn_app.
    replace (5 - length l)%nat with 0%nat by lia.
    simpl skipn at 2. now rewrite fold_left_app.
  - rewrite !best_after_short; [reflexivity|lia|rewrite length_app; simpl; lia].
Qed.

Lemma keep_min_improves (curr best : Q) (e : nat) :
  (if improves curr best e then curr else best)
  = if (5 <=? e)%nat then keep_min best curr else best.
Proof.
  unfold improves, keep_min.
  destruct (Num.Qlt_bool curr best), (5 <=? e)%nat; reflexivity.
Qed.

Lemma written_snoc_old (l : list Q) (c : Q) (e : nat) :
  (e < length l)%nat -> written (l ++ [c]) e = written l e.
Proof.
  intros H. unfold written.
  rewrite app_nth1 by assumption.
  rewrite firstn_app. replace (e - length l)%nat with 0%nat by lia.
  simpl firstn at 2. now rewrite app_nil_r.
Qed.

Lemma written_snoc_new (l : list Q) (c : Q) :
  written (l ++ [c]) (length l) = improves c (best_after l) (length l).
Proof.
  unfold written, improves.
  rewrite app_nth2, Nat.sub_diag by lia. simpl nth.
  rewrite firstn_app, Nat.sub_diag, firstn_all. simpl firstn.
  rewrite app_nil_r. apply andb_comm.
Qed.

Lemma expected_saves_snoc (l : list Q) (c : Q) :
  expected_saves (l ++ [c])
  = expected_saves l
    ++ (if improves c (best_after l) (length l) then [length l] else []).
Proof.
  unfold expected_saves. rewrite length_app. simpl length.
  rewrite Nat.add_1_r, seq_S, filter_app. simpl.
  rewrite written_snoc_new. f_equal.
  apply filter_ext_in. intros e He. apply in_seq in He.
  apply written_snoc_old. lia.
Qed.

Variables (S : Type) (body : S -> nat -> py S).
Variables (best : S -> Q) (saves : S -> list nat) (vals : S -> list Q).

Hypothesis body_spec :
  forall st e st',
    body st e = Ret st' ->
    exists curr,
      vals st' = vals st ++ [curr]
      /\ best st' = (if improves curr (best st) e then curr else best st)
      /\ saves st'
         = (if improves curr (best st) e then saves st ++ [e] else saves st).

(** One completed epoch keeps the state on the replayed policy. *)
Lemma body_follows (st st' : S) :
  best st = best_after (vals st) ->
  saves st = expected_saves (vals st) ->
  body st (length (vals st)) = Ret st' ->
  best st' = best_after (vals st')
  /\ saves st' = expected_saves (vals st')
  /\ length (vals st') = Datatypes.S (length (vals st)).
Proof.
  intros Hb Hs Hrun.
  destruct (body_spec _ _ _ Hrun) as (curr & Hv & Hb' & Hs').
  rewrite Hv, Hb', Hs', Hb, Hs. clear Hb' Hs'. split; [|split].
  - rewrite best_after_snoc. apply keep_min_improves.
  - rewrite expected_saves_snoc.
    destruct (improves _ _ _); [reflexivity|now rewrite app_nil_r].
  - rewrite length_app. simpl. lia.
Qed.

(** The loop keeps the state on the replayed policy, whether it ends or
    is stopped by an exception. *)
Lemma run_loop_follows (n : nat) (st0 st : S) (o : option exn) :
  best st0 = best_after (vals st0) ->
  saves st0 = expected_saves (vals st0) ->
  run_loop body (seq (length (vals st0)) n) st0 = (st, o) ->
  best st = best_after (vals st)
  /\ saves st = expected_saves (vals st)
  /\ (length (vals st) <= length (vals st0) + n)%nat
  /\ (o = None -> length (vals st) = (length (vals st0) + n)%nat).
Proof.
  revert st0; induction n as [|n IH]; intros st0 Hb Hs; simpl.
  - intros [= <- <-]. repeat split; auto; lia.
  - destruct (body st0 (length (vals st0))) as [st1|e] eqn:E.
    + destruct (body_follows _ _ Hb Hs E) as (Hb1 & Hs1 & Hl1).
      rewrite <- Hl1. intros Hrun.
      destruct (IH st1 Hb1 Hs1 Hrun) as (? & ? & ? & Hn).
      repeat split; auto; [lia|]. intros Ho. specialize (Hn Ho). lia.
    + intros [= <- <-]. repeat split; auto; [lia|discriminate].
Qed.

End KeepBest.

Section PolicyFacts.
Import Checkpoint.

Lemma written_iff (ls : list Q) (e : nat) :
  written ls e = true
  <-> (5 <= e)%nat /\ nth e ls 0 < best_after (firstn e ls).
Proof.
  unfold written. now rewrite andb_true_iff, Nat.leb_le, Qlt_bool_iff.
Qed.

Lemma best_after_written (ls : list Q) (c : Q) :
  best_after (ls ++ [c])
  = if written (ls ++ [c]) (length ls) then c else best_after ls.
Proof.
  rewrite best_after_snoc, written_snoc_new. symmetry.
  apply keep_min_improves.
Qed.

Lemma written_first (ls : list Q) :
  written ls 5 = true <-> nth 5 ls 0 < 1000.
Proof.
  rewrite written_iff. rewrite best_after_short.
  - unfold initial_best_loss. intuition.
  - rewrite length_firstn. lia.
Qed.

Lemma fold_keep_min_choice (l : list Q) (a : Q) :
  fold_left keep_min l a = a \/ In (fold_left keep_min l a) l.
Proof.
  revert a; induction l as [|x l IH]; intros a; simpl; [now left|].
  destruct (IH (keep_min a x)) as [H|H]; [|now right; right].
  rewrite H. unfold keep_min. destruct (Num.Qlt_bool x a); auto.
Qed.

Lemma best_after_choice (l : list Q) :
  best_after l = initial_best_loss \/ In (best_after l) l.
Proof.
  unfold best_after.
  destruct (fold_keep_min_choice (skipn 5 l) initial_best_loss) as [H|H].
  - now left.
  - right. rewrite <- (firstn_skipn 5 l) at 2. apply in_or_app. now right.
Qed.

Lemma strictly_decreasing_tail (x : Q) (l : list Q) :
  strictly_decreasing (x :: l) = true -> strictly_decreasing l = true.
Proof.
  simpl. destruct l as [|y l]; [reflexivity|].
  intros H. now apply andb_true_iff in H.
Qed.

Lemma strictly_decreasing_head (x : Q) (l : list Q) (j : nat) :
  strictly_decreasing (x :: l) = true ->
  (j < length l)%nat -> nth j l 0 < x.
Proof.
  revert x j; induction l as [|y l IH]; intros x j H Hj; simpl in Hj; [lia|].
  assert (Hyx : y < x).
  { simpl in H. apply andb_true_iff in H. now apply Qlt_bool_iff. }
  destruct j as [|j]; simpl; [exact Hyx|].
  apply Qlt_trans with y; [|exact Hyx].
  apply IH; [|lia]. eapply strictly_decreasing_tail; eauto.
Qed.

Lemma strictly_decreasing_nth (l : list Q) (i j : nat) :
  strictly_decreasing l = true ->
  (i < j)%nat -> (j < length l)%nat -> nth j l 0 < nth i l 0.
Proof.
  revert i j; induction l as [|x l IH]; intros i j H Hij Hj; simpl in Hj;
    [lia|].
  destruct j as [|j]; [lia|]. destruct i as [|i]; simpl.
  - apply strictly_decreasing_head; [assumption|lia].
  - apply IH; [eapply strictly_decreasing_tail; eauto|lia|lia].
Qed.

(** On a strictly decreasing list of losses whose last entry is below the
    sentinel, the replayed policy writes last at the last epoch, never
    before epoch 5, and ends with the last loss as the best one. *)
Lemma decreasing_saves (ls : list Q) (n : nat) :
  length ls = Datatypes.S n ->
  (5 <= n)%nat ->
  strictly_decreasing ls = true ->
  nth n ls 0 < initial_best_loss ->
  (forall e, In e (expected_saves ls) -> (5 <= e)%nat)
  /\ last (expected_saves ls) 0%nat = n
  /\ In n (expected_saves ls)
  /\ best_after ls = nth n ls 0.
Proof.
  intros Hlen Hn Hdec Hlast.
  assert (Hsplit : ls = firstn n ls ++ [nth n ls 0]).
  { rewrite <- (firstn_skipn n ls) at 1. f_equal.
    assert (Hk : length (skipn n ls) = 1%nat) by (rewrite length_skipn; lia).
    destruct (skipn n ls) as [|x [|y t]] eqn:E; simpl in Hk; try lia.
    f_equal. rewrite <- (firstn_skipn n ls) at 1.
    rewrite app_nth2; rewrite length_firstn, Nat.min_l by lia; [|lia].
    now rewrite Nat.sub_diag, E. }
  assert (Hfl : length (firstn n ls) = n)
    by (rewrite length_firstn; lia).
  assert (Himp : improves (nth n ls 0) (best_after (firstn n ls)) n = true).
  { apply improves_iff. split; [assumption|].
    destruct (best_after_choice (firstn n ls)) as [E|Hin].
    - now rewrite E.
    - destruct (In_nth _ _ 0 Hin) as (j & Hj & Ej).
      rewrite <- Ej. rewrite Hfl in Hj.
      rewrite nth_firstn.
      assert (Hjn : (j <? n)%nat = true) by (apply Nat.ltb_lt; lia).
      rewrite Hjn. apply strictly_decreasing_nth; auto; lia. }
  assert (Hsaves : expected_saves ls = expected_saves (firstn n ls) ++ [n]).
  { rewrite Hsplit at 1. rewrite expected_saves_snoc, Hfl, Himp.
    reflexivity. }
  split; [|split; [|split]].
  - intros e He. unfold expected_saves in He.
    apply filter_In in He. destruct He as [_ He].
    now apply written_iff in He.
  - rewrite Hsaves. apply last_last.
  - rewrite Hsaves. apply in_or_app. right. now left.
  - rewrite Hsplit at 1. rewrite best_after_snoc, Hfl.
    rewrite <- keep_min_improves, Himp. reflexivity.
Qed.

End PolicyFacts.

(** ** The two runs follow the policy *)

Section RunFacts.
Import Torch Checkpoint.
Context {B : Backend}.

Lemma entire_leaf_body_spec (opt : Options) (cuda : bool)
    (train_loader val_loader : EntireLeafClf.Loader)
    (st : EntireLeafClf.Run) (e : nat) (st' : EntireLeafClf.Run) :
  EntireLeafClf.epoch_body opt cuda train_loader val_loader st e = Ret st' ->
  exists curr,
    EntireLeafClf.val_loss (EntireLeafClf.record st')
    = EntireLeafClf.val_loss (EntireLeafClf.record st) ++ [curr]
    /\ EntireLeafClf.best_loss st'
       = (if improves curr (EntireLeafClf.best_loss st) e
          then curr else EntireLeafClf.best_loss st)
    /\ EntireLeafClf.saved st'
       = (if improves curr (EntireLeafClf.best_loss st) e
          then EntireLeafClf.saved st ++ [e] else EntireLeafClf.saved st).
Proof.
  unfold EntireLeafClf.epoch_body.
  destruct (EntireLeafClf.train _ _ _ _ _ _) as [t|]; [|discriminate].
  unfold Py.bind at 1.
  destruct (EntireLeafClf.validation _ _ _ _ _) as [vm|]; [|discriminate].
  unfold Py.bind at 1.
  destruct (LearningRate.adjust_learning_rate _ _ _) as [lr'|];
    [|discriminate].
  unfold Py.bind. intros H.
  exists (EntireLeafClf.loss vm).
  destruct (improves _ _ _); injection H as <-; simpl; auto.
Qed.

Lemma lesion_spot_body_spec (opt : Options) (cuda : bool)
    (train_loader val_loader : LesionSpotClf.Loader)
    (st : LesionSpotClf.Run) (e : nat) (st' : LesionSpotClf.Run) :
  LesionSpotClf.epoch_body opt cuda train_loader val_loader st e = Ret st' ->
  exists curr,
    LesionSpotClf.val_loss (LesionSpotClf.record st')
    = LesionSpotClf.val_loss (LesionSpotClf.record st) ++ [curr]
    /\ LesionSpotClf.best_loss st'
       = (if improves curr (LesionSpotClf.best_loss st) e
          then curr else LesionSpotClf.best_loss st)
    /\ LesionSpotClf.saved st'
       = (if improves curr (LesionSpotClf.best_loss st) e
          then LesionSpotClf.saved st ++ [e] else LesionSpotClf.saved st).
Proof.
  unfold LesionSpotClf.epoch_body.
  destruct (LesionSpotClf.train _ _ _ _ _) as [t|]; [|discriminate].
  unfold Py.bind at 1.
  destruct (LesionSpotClf.validation _ _ _) as [vm|]; [|discriminate].
  unfold Py.bind at 1.
  destruct (LearningRate.adjust_learning_rate _ _ _) as [lr'|];
    [|discriminate].
  unfold Py.bind. intros H.
  exists (LesionSpotClf.loss vm).
  destruct (improves _ _ _); injection H as <-; simpl; auto.
Qed.

(** Every run of the entire-leaf classifier, completed or stopped by an
    exception, leaves [best_loss] and the checkpoint writes as the policy
    replayed on the recorded validation losses gives them. *)
Lemma entire_leaf_run_follows (opt : Options) (cuda : bool)
    (train_loader val_loader : EntireLeafClf.Loader) (m : Model) (r : Rng)
    (st : EntireLeafClf.Run) (o : option exn) :
  EntireLeafClf.run_training opt cuda train_loader val_loader m r = (st, o) ->
  EntireLeafClf.best_loss st
  = best_after (EntireLeafClf.val_loss (EntireLeafClf.record st))
  /\ EntireLeafClf.saved st
     = expected_saves (EntireLeafClf.val_loss (EntireLeafClf.record st))
  /\ (o = None ->
      length (EntireLeafClf.val_loss (EntireLeafClf.record st))
      = Z.to_nat (epochs opt)).
Proof.
  unfold EntireLeafClf.run_training, EntireLeafClf.run_epochs. intros H.
  destruct (run_loop_follows _ _ EntireLeafClf.best_loss EntireLeafClf.saved
              (fun s => EntireLeafClf.val_loss (EntireLeafClf.record s))
              (entire_leaf_body_spec opt cuda train_loader val_loader)
              (Z.to_nat (epochs opt)) (EntireLeafClf.start opt m r) st o)
    as (Hb & Hs & _ & Hn); try reflexivity; try exact H.
  repeat split; auto.
Qed.

Lemma lesion_spot_run_follows (opt : Options) (cuda : bool)
    (train_loader val_loader : LesionSpotClf.Loader) (m : Model) (r : Rng)
    (st : LesionSpotClf.Run) (o : option exn) :
  LesionSpotClf.run_training opt cuda train_loader val_loader m r = (st, o) ->
  LesionSpotClf.best_loss st
  = best_after (LesionSpotClf.val_loss (LesionSpotClf.record st))
  /\ LesionSpotClf.saved st
     = expected_saves (LesionSpotClf.val_loss (LesionSpotClf.record st))
  /\ (o = None ->
      length (LesionSpotClf.val_loss (LesionSpotClf.record st))
      = Z.to_nat (epochs opt)).
Proof.
  unfold LesionSpotClf.run_training, LesionSpotClf.run_epochs. intros H.
  destruct (run_loop_follows _ _ LesionSpotClf.best_loss LesionSpotClf.saved
              (fun s => LesionSpotClf.val_loss (LesionSpotClf.record s))
              (lesion_spot_body_spec opt cuda train_loader val_loader)
              (Z.to_nat (epochs opt)) (LesionSpotClf.start opt m r) st o)
    as (Hb & Hs & _ & Hn); try reflexivity; try exact H.
  repeat split; auto.
Qed.

End RunFacts.

Section DecreasingRuns.
Import Torch Checkpoint.

Lemma fold_keep_min_le (l : list Q) (a : Q) : fold_left keep_min l a <= a.
Proof.
  revert a; induction l as [|x l IH]; intros a; simpl; [apply Qle_refl|].
  apply Qle_trans with (keep_min a x); [apply IH|].
  unfold keep_min. destruct (Num.Qlt_bool x a) eqn:E.
  - apply Qlt_le_weak. now apply Qlt_bool_iff.
  - apply Qle_refl.
Qed.

Lemma best_after_le (l : list Q) : best_after l <= initial_best_loss.
Proof. apply fold_keep_min_le. Qed.

Lemma expected_saves_warm (ls : list Q) (e : nat) :
  In e (expected_saves ls)
  <-> (5 <= e < length ls)%nat /\ nth e ls 0 < best_after (firstn e ls).
Proof.
  unfold expected_saves. rewrite filter_In, in_seq, written_iff.
  split; intros H; repeat split; try tauto; lia.
Qed.

Lemma no_saves_above_sentinel (ls : list Q) :
  (forall e, (e < length ls)%nat -> initial_best_loss <= nth e ls 0) ->
  expected_saves ls = [].
Proof.
  intros H. destruct (expected_saves ls) as [|e l] eqn:E; [reflexivity|].
  assert (Hin : In e (expected_saves ls)) by (rewrite E; now left).
  apply expected_saves_warm in Hin. destruct Hin as [He Hlt].
  specialize (H e ltac:(lia)).
  pose proof (best_after_le (firstn e ls)). lra.
Qed.

(** The policy on ten strictly decreasing losses. *)
Lemma decreasing_policy (ls : list Q) :
  length ls = 10%nat ->
  strictly_decreasing ls = true ->
  (forall e, In e (expected_saves ls) -> (5 <= e)%nat)
  /\ (forall j, (j < 9)%nat -> nth 9 ls 0 < nth j ls 0)
  /\ (nth 9 ls 0 < 1000 ->
      last (expected_saves ls) 0%nat = 9%nat
      /\ In 9%nat (expected_saves ls)
      /\ best_after ls = nth 9 ls 0)
  /\ (1000 <= nth 9 ls 0 -> expected_saves ls = []).
Proof.
  intros Hlen Hdec. split; [|split; [|split]].
  - intros e He. apply expected_saves_warm in He. lia.
  - intros j Hj. apply strictly_decreasing_nth; auto; lia.
  - intros Hlast.
    destruct (decreasing_saves ls 9 Hlen ltac:(lia) Hdec Hlast)
      as (_ & H1 & H2 & H3).
    auto.
  - intros Hge. apply no_saves_above_sentinel. intros e He.
    unfold initial_best_loss.
    destruct (Nat.eq_dec e 9) as [->|Hne]; [assumption|].
    assert (nth 9 ls 0 < nth e ls 0)
      by (apply strictly_decreasing_nth; auto; lia).
    lra.
Qed.

(** C7 (amended). In a completed run of ten epochs (of either
    classifier) whose recorded validation losses are strictly decreasing,
    no checkpoint write occurs at an epoch of index below 5 and epoch 9
    has the minimum validation loss; when the loss of epoch 9 is below the
    initial [best_loss] of 1000, the last checkpoint write of the run is
    the one of epoch 9, which leaves that loss as [best_loss]; when it is
    not, the run writes no checkpoint. *)
Theorem decreasing_run_last_save {B : Backend} (opt : Options)
    (cuda : bool) :
  epochs opt = 10%Z ->
  (forall train_loader val_loader m r st,
      EntireLeafClf.run_training opt cuda train_loader val_loader m r
      = (st, None) ->
      strictly_decreasing (EntireLeafClf.val_loss (EntireLeafClf.record st))
      = true ->
      (forall e, In e (EntireLeafClf.saved st) -> (5 <= e)%nat)
      /\ (forall j, (j < 9)%nat ->
            nth 9 (EntireLeafClf.val_loss (EntireLeafClf.record st)) 0
            < nth j (EntireLeafClf.val_loss (EntireLeafClf.record st)) 0)
      /\ (nth 9 (EntireLeafClf.val_loss (EntireLeafClf.record st)) 0 < 1000 ->
          last (EntireLeafClf.saved st) 0%nat = 9%nat
          /\ In 9%nat (EntireLeafClf.saved st)
          /\ EntireLeafClf.best_loss st
             = nth 9 (EntireLeafClf.val_loss (EntireLeafClf.record st)) 0)
      /\ (1000 <= nth 9 (EntireLeafClf.val_loss (EntireLeafClf.record st)) 0 ->
          EntireLeafClf.saved st = []))
  /\ (forall train_loader val_loader m r st,
      LesionSpotClf.run_training opt cuda train_loader val_loader m r
      = (st, None) ->
      strictly_decreasing (LesionSpotClf.val_loss (LesionSpotClf.record st))
      = true ->
      (forall e, In e (LesionSpotClf.saved st) -> (5 <= e)%nat)
      /\ (forall j, (j < 9)%nat ->
            nth 9 (LesionSpotClf.val_loss (LesionSpotClf.record st)) 0
            < nth j (LesionSpotClf.val_loss (LesionSpotClf.record st)) 0)
      /\ (nth 9 (LesionSpotClf.val_loss (LesionSpotClf.record st)) 0 < 1000 ->
          last (LesionSpotClf.saved st) 0%nat = 9%nat
          /\ In 9%nat (LesionSpotClf.saved st)
          /\ LesionSpotClf.best_loss st
             = nth 9 (LesionSpotClf.val_loss (LesionSpotClf.record st)) 0)
      /\ (1000 <= nth 9 (LesionSpotClf.val_loss (LesionSpotClf.record st)) 0 ->
          LesionSpotClf.saved st = [])).
Proof.
  intros Hep. split.
  - intros tl vl m r st Hrun Hdec.
    destruct (entire_leaf_run_follows _ _ _ _ _ _ _ _ Hrun)
      as (Hb & Hs & Hn).
    specialize (Hn eq_refl). rewrite Hep in Hn.
    rewrite Hb, Hs. now apply decreasing_policy.
  - intros tl vl m r st Hrun Hdec.
    destruct (lesion_spot_run_follows _ _ _ _ _ _ _ _ Hrun)
      as (Hb & Hs & Hn).
    specialize (Hn eq_refl). rewrite Hep in Hn.
    rewrite Hb, Hs. now apply decreasing_policy.
Qed.

End DecreasingRuns.

Section CheckpointClaims.
Import Torch Checkpoint Toy.

Lemma decreasing_run_last_save_witness :
  last (EntireLeafClf.saved (fst (leaf_run 2))) 0%nat = 9%nat
  /\ EntireLeafClf.saved (fst (leaf_run 2)) = [5; 6; 7; 8; 9]%nat.
Proof.
  split; [|vm_compute; reflexivity].
  destruct (decreasing_run_last_save (B := backend) leaf_config true eq_refl)
    as [H _].
  assert (Hrun : EntireLeafClf.run_training (B := backend) leaf_config
                   true leaf_loader leaf_loader 2 O
                 = (fst (leaf_run 2), None))
    by (vm_compute; reflexivity).
  assert (Hdec : strictly_decreasing
                   (EntireLeafClf.val_loss
                      (EntireLeafClf.record (fst (leaf_run 2)))) = true)
    by (vm_compute; reflexivity).
  assert (Hlast : nth 9 (EntireLeafClf.val_loss
                           (EntireLeafClf.record (fst (leaf_run 2)))) 0
                  < 1000)
    by (vm_compute; reflexivity).
  destruct (H leaf_loader leaf_loader 2 O (fst (leaf_run 2)) Hrun Hdec)
    as (_ & _ & H9 & _).
  destruct (H9 Hlast) as (Hl & _ & _). exact Hl.
Defined.

(** C7 as stated fails: ten epochs from a network whose losses stay above
    the sentinel complete with strictly decreasing validation losses, and
    no checkpoint is written, at epoch 9 or at any other. *)
Lemma decreasing_run_without_save :
  snd (leaf_run 2000) = None
  /\ length (EntireLeafClf.val_loss (EntireLeafClf.record (fst (leaf_run 2000))))
     = 10%nat
  /\ strictly_decreasing
       (EntireLeafClf.val_loss (EntireLeafClf.record (fst (leaf_run 2000))))
     = true
  /\ EntireLeafClf.saved (fst (leaf_run 2000)) = []
  /\ EntireLeafClf.checkpoint (fst (leaf_run 2000)) = None
  /\ ~ In 9%nat (EntireLeafClf.saved (fst (leaf_run 2000))).
Proof.
  assert (E : EntireLeafClf.saved (fst (leaf_run 2000)) = [])
    by (vm_compute; reflexivity).
  split; [vm_compute; reflexivity|].
  split; [vm_compute; reflexivity|].
  split; [vm_compute; reflexivity|].
  split; [exact E|].
  split; [vm_compute; reflexivity|].
  rewrite E. intros [].
Qed.

(** C8 (amended). [best_loss] starts from the sentinel 1000.  Every run of
    either classifier, completed or stopped by an exception, ends with
    [best_loss] and the checkpoint writes that the policy gives on the
    recorded validation losses: epoch [e] writes exactly when [e >= 5] and
    its validation loss is strictly below the best recorded so far (the
    sentinel, lowered by every earlier write); each write makes that loss
    the best one; and epoch 5, the first after the warm-up, writes exactly
    when its validation loss is below 1000. *)
Theorem keep_best_policy {B : Backend} (opt : Options) (cuda : bool) :
  initial_best_loss = 1000
  /\ (forall train_loader val_loader m r st o,
        EntireLeafClf.run_training opt cuda train_loader val_loader m r
        = (st, o) ->
        EntireLeafClf.best_loss st
        = best_after (EntireLeafClf.val_loss (EntireLeafClf.record st))
        /\ EntireLeafClf.saved st
           = expected_saves
               (EntireLeafClf.val_loss (EntireLeafClf.record st)))
  /\ (forall train_loader val_loader m r st o,
        LesionSpotClf.run_training opt cuda train_loader val_loader m r
        = (st, o) ->
        LesionSpotClf.best_loss st
        = best_after (LesionSpotClf.val_loss (LesionSpotClf.record st))
        /\ LesionSpotClf.saved st
           = expected_saves
               (LesionSpotClf.val_loss (LesionSpotClf.record st)))
  /\ (forall losses e,
        In e (expected_saves losses)
        <-> (5 <= e < length losses)%nat
            /\ nth e losses 0 < best_after (firstn e losses))
  /\ (forall losses curr,
        best_after (losses ++ [curr])
        = if written (losses ++ [curr]) (length losses)
          then curr else best_after losses)
  /\ (forall losses,
        (5 < length losses)%nat ->
        (In 5%nat (expected_saves losses) <-> nth 5 losses 0 < 1000)).
Proof.
  split; [reflexivity|]. split; [|split; [|split; [|split]]].
  - intros tl vl m r st o H.
    destruct (entire_leaf_run_follows _ _ _ _ _ _ _ _ H) as (? & ? & _).
    now split.
  - intros tl vl m r st o H.
    destruct (lesion_spot_run_follows _ _ _ _ _ _ _ _ H) as (? & ? & _).
    now split.
  - apply expected_saves_warm.
  - apply best_after_written.
  - intros losses Hlen. rewrite expected_saves_warm.
    rewrite best_after_short by (rewrite length_firstn; lia).
    unfold initial_best_loss. split; [tauto|]. intros H.
    split; [lia|exact H].
Qed.

Lemma keep_best_policy_witness :
  EntireLeafClf.saved (fst (leaf_run 2))
  = expected_saves
      (EntireLeafClf.val_loss (EntireLeafClf.record (fst (leaf_run 2))))
  /\ LesionSpotClf.best_loss (fst (spot_run 2))
     = best_after
         (LesionSpotClf.val_loss (LesionSpotClf.record (fst (spot_run 2)))).
Proof.
  destruct (keep_best_policy (B := backend) leaf_config true)
    as (_ & H1 & H2 & _).
  unfold leaf_run, spot_run. split.
  - exact (proj2 (H1 leaf_loader leaf_loader 2 O _ _ (surjective_pairing _))).
  - exact (proj1 (H2 spot_loader spot_loader 2 O _ _ (surjective_pairing _))).
Defined.

(** C8 as stated fails: the sentinel is not above every validation loss.
    A loss equal to it, or larger, fails the improvement test at epoch 5;
    and in a run whose validation losses stay near 2000 epoch 5, the first
    epoch of index at least 5, writes no checkpoint. *)
Lemma first_warm_epoch_without_save :
  improves 1000 initial_best_loss 5 = false
  /\ improves 2000 initial_best_loss 5 = false
  /\ snd (spot_run 2000) = None
  /\ 1000 < nth 5 (LesionSpotClf.val_loss
                     (LesionSpotClf.record (fst (spot_run 2000)))) 0
  /\ ~ In 5%nat (LesionSpotClf.saved (fst (spot_run 2000)))
  /\ LesionSpotClf.best_loss (fst (spot_run 2000)) = 1000.
Proof.
  assert (E : LesionSpotClf.saved (fst (spot_run 2000)) = [])
    by (vm_compute; reflexivity).
  split; [vm_compute; reflexivity|].
  split; [vm_compute; reflexivity|].
  split; [vm_compute; reflexivity|].
  split; [vm_compute; reflexivity|].
  split; [rewrite E; intros []|].
  vm_compute; reflexivity.
Qed.

End CheckpointClaims.

(** ** Training and validation steps of the entire-leaf classifier *)

Section StepFacts.
Import Torch EntireLeafClf.
Context {B : Backend}.

Lemma accumulate_off (acc : Q) (x : py (option Q)) (n : nat) :
  accumulate false acc x n = Ret acc.
Proof. reflexivity. Qed.

Lemma accumulate_on (acc : Q) (x : py (option Q)) (n : nat) (r : Q) :
  accumulate true acc x n = Ret r ->
  exists q, x = Ret (Some q) /\ r = acc + q * inject_Z (Z.of_nat n).
Proof.
  unfold accumulate. destruct x as [[q|]|e]; simpl; try discriminate.
  intros [= <-]. eauto.
Qed.

(** What a training step leaves behind when it returns. *)
Lemma train_step_Ret (opt : Options) (cuda : bool) (criterion : Criterion)
    (aug : string) (tr : Trainer) (m : Metrics) (b : Batch)
    (tr' : Trainer) (m' : Metrics) :
  train_step opt cuda criterion aug (tr, m) b = Ret (tr', m') ->
  grads tr'
  = clip_grad_norm_
      (gadd gzero
         (grad (backward_loss (output_std opt)
                  (fst (step_losses criterion aug tr b))
                  (snd (step_losses criterion aug tr b))))) 5
  /\ net tr' = snd (step (optim tr) (net tr) (grads tr'))
  /\ optim tr' = fst (step (optim tr) (net tr) (grads tr'))
  /\ loss m'
     = loss m
       + logged_loss (output_std opt)
           (fst (step_losses criterion aug tr b))
           (snd (step_losses criterion aug tr b))
         * inject_Z (Z.of_nat (step_len aug tr b))
  /\ (cuda = false -> dis_acc m' = dis_acc m /\ sev_acc m' = sev_acc m).
Proof.
  unfold train_step. cbn [fst snd].
  destruct (accumulate cuda (dis_acc m) _ _) as [d|] eqn:Ed; [|discriminate].
  unfold Py.bind at 1.
  destruct (accumulate cuda (sev_acc m) _ _) as [v|] eqn:Ev; [|discriminate].
  unfold Py.bind. intros [= <- <-]. cbn [grads net optim loss dis_acc sev_acc].
  split; [reflexivity|]. split; [reflexivity|]. split; [reflexivity|].
  split; [reflexivity|].
  intros ->. rewrite accumulate_off in Ed, Ev. split; congruence.
Qed.

Lemma backward_loss_multitask (loss_dis loss_sev : Scalar Grad) :
  backward_loss "multitask" loss_dis loss_sev = sadd loss_dis loss_sev.
Proof. reflexivity. Qed.

Lemma backward_loss_disease (loss_dis loss_sev : Scalar Grad) :
  backward_loss "disease" loss_dis loss_sev = loss_dis.
Proof. reflexivity. Qed.

Lemma backward_loss_severity (loss_dis loss_sev : Scalar Grad) :
  backward_loss "severity" loss_dis loss_sev = loss_sev.
Proof. reflexivity. Qed.

End StepFacts.

Section GradientRouting.
Import Torch EntireLeafClf.

(** C4 (amended). In every training step that returns, [.backward()] is
    called on the scalar the output mode selects: [loss_dis + loss_sev]
    under 'multitask', [loss_dis] alone under 'disease', [loss_sev] alone
    under 'severity'.  The gradient buffers after the step are the clipped
    gradient of that scalar and the parameters are updated from them, so
    in the two single-head modes the loss of the other head, though
    computed, contributes no gradient; it does not enter the logged loss
    either, which is the selected loss alone (half the sum under
    'multitask') times the batch size. *)
Theorem train_step_gradient_routing {B : Backend} (opt : Options)
    (cuda : bool) (criterion : Criterion) (aug : string) (tr : Trainer)
    (m : Metrics) (b : Batch) (tr' : Trainer) (m' : Metrics) :
  train_step opt cuda criterion aug (tr, m) b = Ret (tr', m') ->
  (output_std opt = "multitask"%string ->
     grads tr'
     = clip_grad_norm_
         (gadd gzero
            (grad (sadd (fst (step_losses criterion aug tr b))
                        (snd (step_losses criterion aug tr b))))) 5
     /\ loss m'
        = loss m
          + (data (fst (step_losses criterion aug tr b))
             + data (snd (step_losses criterion aug tr b))) / 2
            * inject_Z (Z.of_nat (step_len aug tr b)))
  /\ (output_std opt = "disease"%string ->
     grads tr'
     = clip_grad_norm_
         (gadd gzero (grad (fst (step_losses criterion aug tr b)))) 5
     /\ loss m'
        = loss m
          + data (fst (step_losses criterion aug tr b))
            * inject_Z (Z.of_nat (step_len aug tr b)))
  /\ (output_std opt = "severity"%string ->
     grads tr'
     = clip_grad_norm_
         (gadd gzero (grad (snd (step_losses criterion aug tr b)))) 5
     /\ loss m'
        = loss m
          + data (snd (step_losses criterion aug tr b))
            * inject_Z (Z.of_nat (step_len aug tr b)))
  /\ net tr' = snd (step (optim tr) (net tr) (grads tr')).
Proof.
  intros H. destruct (train_step_Ret _ _ _ _ _ _ _ _ _ H)
    as (Hg & Hn & _ & Hl & _).
  split; [|split; [|split]].
  - intros E. rewrite E in Hg, Hl. split; assumption.
  - intros E. rewrite E in Hg, Hl. split; assumption.
  - intros E. rewrite E in Hg, Hl. split; assumption.
  - exact Hn.
Qed.

Lemma train_step_gradient_routing_witness :
  exists tr' m',
    train_step (B := Toy.backend) Toy.disease_config true CrossEntropyLoss
      "standard" (Toy.trainer Toy.disease_config 2, zero_metrics)
      Toy.leaf_batch'
    = Ret (tr', m')
    /\ grads tr'
       = clip_grad_norm_
           (gadd gzero
              (grad (fst (step_losses CrossEntropyLoss "standard"
                            (Toy.trainer Toy.disease_config 2)
                            Toy.leaf_batch')))) 5.
Proof.
  destruct (train_step (B := Toy.backend) Toy.disease_config true
              CrossEntropyLoss "standard"
              (Toy.trainer Toy.disease_config 2, zero_metrics)
              Toy.leaf_batch') as [[tr' m']|e] eqn:E;
    [|vm_compute in E; discriminate].
  exists tr', m'. split; [reflexivity|].
  destruct (train_step_gradient_routing _ _ _ _ _ _ _ _ _ E)
    as (_ & Hd & _).
  exact (proj1 (Hd eq_refl)).
Defined.

(** C4 as stated fails on "(and logged)".  Two disease-only steps from
    the same state, on batches that differ in a severity label, compute
    different severity losses (2 and 3), and the logged loss and the
    updated network are the same: the severity loss is not in the log.
    The logged value of a disease-only step does not determine the
    severity loss. *)
Lemma other_head_loss_not_logged :
  match
    train_step (B := Toy.backend) Toy.disease_config true CrossEntropyLoss
      "standard" (Toy.trainer Toy.disease_config 2, zero_metrics)
      Toy.leaf_batch,
    train_step (B := Toy.backend) Toy.disease_config true CrossEntropyLoss
      "standard" (Toy.trainer Toy.disease_config 2, zero_metrics)
      Toy.leaf_batch'
  with
  | Ret (tr1, m1), Ret (tr2, m2) =>
      loss m1 = loss m2 /\ net tr1 = net tr2
      /\ data (snd (step_losses (B := Toy.backend) CrossEntropyLoss
                      "standard" (Toy.trainer Toy.disease_config 2)
                      Toy.leaf_batch)) == 2
      /\ data (snd (step_losses (B := Toy.backend) CrossEntropyLoss
                      "standard" (Toy.trainer Toy.disease_config 2)
                      Toy.leaf_batch')) == 3
  | _, _ => False
  end
  /\ ~ (forall loss_dis loss_sev loss_sev'
               : Scalar (Grad (Backend := Toy.backend)),
          logged_loss (B := Toy.backend) "disease" loss_dis loss_sev
          == logged_loss (B := Toy.backend) "disease" loss_dis loss_sev' ->
          data loss_sev == data loss_sev').
Proof.
  split.
  - vm_compute. repeat split.
  - intros H.
    specialize (H {| data := 1; grad := 0 |} {| data := 2; grad := 0 |}
                  {| data := 3; grad := 0 |} (Qeq_refl _)).
    vm_compute in H. discriminate.
Qed.

End GradientRouting.

Section CriterionFacts.
Import Torch EntireLeafClf.

Lemma criterion_train_bc (opt : Options) :
  criterion_train opt = KLDivLoss <-> data_augmentation opt = "bc+"%string.
Proof.
  unfold criterion_train.
  destruct (String.eqb_spec (data_augmentation opt) "bc+"); simpl;
    split; intros; congruence.
Qed.

Lemma criterion_train_other (opt : Options) :
  criterion_train opt = CrossEntropyLoss
  <-> data_augmentation opt <> "bc+"%string.
Proof.
  unfold criterion_train.
  destruct (String.eqb_spec (data_augmentation opt) "bc+"); simpl;
    split; intros; congruence.
Qed.

Lemma validation_step_Ret {B : Backend} (opt : Options) (cuda : bool)
    (m : Model) (criterion : Criterion) (vm : Metrics) (b : Batch)
    (vm' : Metrics) :
  validation_step opt cuda m criterion vm b = Ret vm' ->
  loss vm'
  = loss vm
    + logged_loss (output_std opt) (fst (val_losses m criterion b))
        (snd (val_losses m criterion b))
      * inject_Z (Z.of_nat (batch_len (images b)))
  /\ accumulate cuda (dis_acc vm)
       (Metrics.eval_metrics "acc" (val_pred_dis m b) (labels_dis b)
          None None) (batch_len (images b))
     = Ret (dis_acc vm')
  /\ accumulate cuda (sev_acc vm)
       (Metrics.eval_metrics "acc" (val_pred_sev m b) (labels_sev b)
          None None) (batch_len (images b))
     = Ret (sev_acc vm').
Proof.
  unfold validation_step, val_losses, val_pred_dis, val_pred_sev.
  cbn [fst snd].
  destruct (accumulate cuda (dis_acc vm) _ _) as [d|]; [|discriminate].
  unfold Py.bind at 1.
  destruct (accumulate cuda (sev_acc vm) _ _) as [v|]; [|discriminate].
  unfold Py.bind. intros [= <-]. cbn [loss dis_acc sev_acc].
  split; [reflexivity|]. split; reflexivity.
Qed.

(** C5. The training criterion of a run is the KL-divergence loss exactly
    when [data_augmentation] is 'bc+', and the index cross-entropy
    otherwise.  Every training step of the run that returns computes two
    losses with that criterion, takes its gradient from them and logs
    them, and they are, per head: under 'bc+' the KL divergence between
    the log-softmax of the outputs and the dense target distribution;
    under 'mixup' the combination
    [lam * CE(outputs, labels_a) + (1 - lam) * CE(outputs, labels_b)];
    otherwise the cross-entropy against the labels of the batch.
    Validation always uses the index cross-entropy, on the images and
    labels of the batch as the loader yields them. *)
Theorem criterion_by_augmentation {B : Backend} (opt : Options) :
  (criterion_train opt = KLDivLoss <-> data_augmentation opt = "bc+"%string)
  /\ (criterion_train opt = CrossEntropyLoss
      <-> data_augmentation opt <> "bc+"%string)
  /\ LesionSpotClf.criterion_train opt = criterion_train opt
  /\ criterion_val = CrossEntropyLoss
  /\ LesionSpotClf.criterion_val = CrossEntropyLoss
  /\ (forall cuda tr m b tr' m',
        train_step opt cuda (criterion_train opt) (data_augmentation opt)
          (tr, m) b = Ret (tr', m') ->
        exists loss_dis loss_sev,
          grads tr'
          = clip_grad_norm_
              (gadd gzero
                 (grad (backward_loss (output_std opt) loss_dis loss_sev))) 5
          /\ loss m'
             = loss m
               + logged_loss (output_std opt) loss_dis loss_sev
                 * inject_Z
                     (Z.of_nat (step_len (data_augmentation opt) tr b))
          /\ (data_augmentation opt = "bc+"%string ->
              forall o,
                o = snd (between_class (rng tr) (images b) (labels_dis b)
                           (labels_sev b)) ->
                loss_dis
                = kl_div
                    (log_softmax
                       (fst (forward (net tr) true (bc_images o))))
                    (Soft (bc_dis o))
                /\ loss_sev
                   = kl_div
                       (log_softmax
                          (snd (forward (net tr) true (bc_images o))))
                       (Soft (bc_sev o)))
          /\ (data_augmentation opt = "mixup"%string ->
              forall o,
                o = snd (mixup_data (rng tr) (images b) (labels_dis b)
                           (labels_sev b)) ->
                loss_dis
                = sadd
                    (smul (mix_lam o)
                       (cross_entropy
                          (fst (forward (net tr) true (mix_images o)))
                          (Index (mix_dis_a o))))
                    (smul (1 - mix_lam o)
                       (cross_entropy
                          (fst (forward (net tr) true (mix_images o)))
                          (Index (mix_dis_b o))))
                /\ loss_sev
                   = sadd
                       (smul (mix_lam o)
                          (cross_entropy
                             (snd (forward (net tr) true (mix_images o)))
                             (Index (mix_sev_a o))))
                       (smul (1 - mix_lam o)
                          (cross_entropy
                             (snd (forward (net tr) true (mix_images o)))
                             (Index (mix_sev_b o)))))
          /\ (data_augmentation opt <> "bc+"%string ->
              data_augmentation opt <> "mixup"%string ->
              loss_dis
              = cross_entropy (fst (forward (net tr) true (images b)))
                  (Index (labels_dis b))
              /\ loss_sev
                 = cross_entropy (snd (forward (net tr) true (images b)))
                     (Index (labels_sev b))))
  /\ (forall cuda m vm b vm',
        validation_step opt cuda m criterion_val vm b = Ret vm' ->
        loss vm'
        = loss vm
          + logged_loss (output_std opt)
              (cross_entropy (fst (forward m false (images b)))
                 (Index (labels_dis b)))
              (cross_entropy (snd (forward m false (images b)))
                 (Index (labels_sev b)))
            * inject_Z (Z.of_nat (batch_len (images b))))
  /\ (forall cuda train_loader val_loader st e st',
        epoch_body opt cuda train_loader val_loader st e = Ret st' ->
        exists t vm,
          train opt cuda train_loader (trainer st) (criterion_train opt)
            (data_augmentation opt) = Ret t
          /\ validation opt cuda val_loader (net (fst t)) CrossEntropyLoss
             = Ret vm
          /\ record st' = append_metrics (record st) (snd t) vm).
Proof.
  split; [apply criterion_train_bc|].
  split; [apply criterion_train_other|].
  split; [reflexivity|]. split; [reflexivity|]. split; [reflexivity|].
  split; [|split].
  - intros cuda tr m b tr' m' H.
    destruct (train_step_Ret _ _ _ _ _ _ _ _ _ H) as (Hg & _ & _ & Hl & _).
    exists (fst (step_losses (criterion_train opt) (data_augmentation opt)
                   tr b)),
           (snd (step_losses (criterion_train opt) (data_augmentation opt)
                   tr b)).
    split; [exact Hg|]. split; [exact Hl|].
    split; [|split].
    + intros E o ->.
      assert (Hc : criterion_train opt = KLDivLoss)
        by now apply criterion_train_bc.
      unfold step_losses, augment. rewrite Hc, E. split; reflexivity.
    + intros E o ->.
      assert (Hc : criterion_train opt = CrossEntropyLoss).
      { apply criterion_train_other. rewrite E. discriminate. }
      unfold step_losses, augment. rewrite Hc, E. split; reflexivity.
    + intros E1 E2.
      assert (Hc : criterion_train opt = CrossEntropyLoss)
        by now apply criterion_train_other.
      unfold step_losses, augment. rewrite Hc.
      apply String.eqb_neq in E1, E2. rewrite E1, E2. split; reflexivity.
  - intros cuda m vm b vm' H.
    destruct (validation_step_Ret _ _ _ _ _ _ _ H) as (Hl & _).
    exact Hl.
  - intros cuda tl vl st e st'. unfold epoch_body.
    destruct (train _ _ _ _ _ _) as [t|] eqn:Et; [|discriminate].
    unfold Py.bind at 1. unfold criterion_val.
    destruct (validation _ _ _ _ _) as [vm|] eqn:Ev; [|discriminate].
    unfold Py.bind at 1.
    destruct (LearningRate.adjust_learning_rate _ _ _) as [lr'|];
      [|discriminate].
    unfold Py.bind. intros H. exists t, vm.
    split; [reflexivity|]. split; [exact Ev|].
    destruct (Checkpoint.improves _ _ _); injection H as <-; reflexivity.
Qed.

Lemma criterion_by_augmentation_witness :
  criterion_train (Toy.config "sgd" 10 "bc+" "multitask") = KLDivLoss
  /\ criterion_train (Toy.config "sgd" 10 "mixup" "multitask")
     = CrossEntropyLoss.
Proof.
  split.
  - apply (proj1 (criterion_by_augmentation (B := Toy.backend)
                    (Toy.config "sgd" 10 "bc+" "multitask"))).
    reflexivity.
  - apply (proj1 (proj2 (criterion_by_augmentation (B := Toy.backend)
                           (Toy.config "sgd" 10 "mixup" "multitask")))).
    discriminate.
Defined.

End CriterionFacts.

(** ** Epoch averages *)

Section EpochAverages.
Import Torch EntireLeafClf.
Context {B : Backend}.

Lemma sum_map_ext {A : Type} (f g : A -> Q) (l : list A) :
  (forall a, In a l -> f a == g a) ->
  Num.sum (map f l) == Num.sum (map g l).
Proof.
  induction l as [|a l IH]; intros H; simpl; [reflexivity|].
  assert (Ha : f a == g a) by (apply H; now left).
  assert (Hl : Num.sum (map f l) == Num.sum (map g l))
    by (apply IH; intros x Hx; apply H; now right).
  rewrite !sum_cons, Ha, Hl. reflexivity.
Qed.

Lemma sum_map_scale {A : Type} (f : A -> Q) (c : Q) (l : list A) :
  Num.sum (map (fun a => f a * c) l) == Num.sum (map f l) * c.
Proof.
  induction l as [|a l IH]; simpl.
  - unfold Num.sum; simpl. ring.
  - rewrite !sum_cons, IH. ring.
Qed.

Lemma eval_metrics_plain_inv (pred labels : list Z) (q : Q) :
  Metrics.eval_metrics "acc" pred labels None None = Ret (Some q) ->
  q = Metrics.fraction_agree pred labels.
Proof.
  unfold Metrics.eval_metrics. simpl.
  destruct (Metrics.accuracy_score labels pred) as [a|] eqn:E;
    [|discriminate].
  destruct (accuracy_score_Ret _ _ _ E) as [Hne Hlen].
  rewrite (accuracy_score_fraction _ _ Hne Hlen) in E.
  simpl. congruence.
Qed.

(** Without an accelerator a training pass leaves both accuracy sums at
    their initial value. *)
Lemma for_each_train_no_cuda (opt : Options) (criterion : Criterion)
    (aug : string) (bs : list Batch) (tr tr' : Trainer) (m m' : Metrics) :
  for_each (train_step opt false criterion aug) bs (tr, m) = Ret (tr', m') ->
  dis_acc m' = dis_acc m /\ sev_acc m' = sev_acc m.
Proof.
  revert tr m; induction bs as [|b bs IH]; intros tr m; simpl.
  - intros [= <- <-]. auto.
  - destruct (train_step opt false criterion aug (tr, m) b)
      as [[tr1 m1]|] eqn:E; [|discriminate].
    unfold Py.bind. intros H.
    destruct (train_step_Ret _ _ _ _ _ _ _ _ _ E) as (_ & _ & _ & _ & Hc).
    destruct (Hc eq_refl) as [Hd Hs].
    destruct (IH _ _ H) as [Hd' Hs'].
    split; [now rewrite Hd'|now rewrite Hs'].
Qed.

(** X11. Without an accelerator a training pass of the entire-leaf
    classifier that returns reports both accuracies as 0, whatever the
    predictions: the sums are only accumulated under the device test. *)
Lemma train_without_accelerator (opt : Options) (train_loader : Loader)
    (tr tr' : Trainer) (criterion : Criterion) (aug : string) (m : Metrics) :
  train opt false train_loader tr criterion aug = Ret (tr', m) ->
  dis_acc m == 0 /\ sev_acc m == 0.
Proof.
  unfold train.
  destruct (for_each _ _ _) as [[tr1 m1]|] eqn:E; [|discriminate].
  unfold Py.bind at 1. cbn [fst snd].
  destruct (for_each_train_no_cuda _ _ _ _ _ _ _ _ E) as [Hd Hs].
  unfold finish. destruct (dataset train_loader); [discriminate|].
  unfold Py.bind. intros [= _ <-]. cbn [dis_acc sev_acc].
  rewrite Hd, Hs. unfold zero_metrics; cbn [dis_acc sev_acc].
  split; unfold Qdiv; ring.
Qed.

(** The running sums of a validation pass. *)
Lemma for_each_validation (opt : Options) (cuda : bool) (m : Model)
    (criterion : Criterion) (bs : list Batch) (vm vm' : Metrics) :
  for_each (validation_step opt cuda m criterion) bs vm = Ret vm' ->
  loss vm'
  == loss vm
     + Num.sum (map (fun b => val_batch_loss opt m criterion b
                              * batch_size_of b) bs)
  /\ (cuda = true ->
      dis_acc vm'
      == dis_acc vm
         + Num.sum (map (fun b => val_batch_dis_acc m b * batch_size_of b) bs)
      /\ sev_acc vm'
         == sev_acc vm
            + Num.sum (map (fun b => val_batch_sev_acc m b * batch_size_of b)
                         bs))
  /\ (cuda = false -> dis_acc vm' = dis_acc vm /\ sev_acc vm' = sev_acc vm).
Proof.
  revert vm; induction bs as [|b bs IH]; intros vm; simpl.
  - intros [= <-]. unfold Num.sum; simpl.
    split; [ring|]. split; [intros _; split; ring|intros _; split; reflexivity].
  - destruct (validation_step opt cuda m criterion vm b) as [vm1|] eqn:E;
      [|discriminate].
    unfold Py.bind. intros H.
    destruct (validation_step_Ret _ _ _ _ _ _ _ E) as (Hl & Hd & Hs).
    destruct (IH _ H) as (Il & Ion & Ioff).
    split; [|split].
    + rewrite Il, Hl, sum_cons. unfold val_batch_loss, batch_size_of. ring.
    + intros ->. destruct (Ion eq_refl) as [Id Is].
      apply accumulate_on in Hd, Hs.
      destruct Hd as (qd & Ed & Hd), Hs as (qs & Es & Hs).
      apply eval_metrics_plain_inv in Ed, Es. subst qd qs.
      rewrite Id, Is, Hd, Hs, !sum_cons.
      unfold val_batch_dis_acc, val_batch_sev_acc, batch_size_of.
      split; ring.
    + intros ->. destruct (Ioff eq_refl) as [Id Is].
      rewrite accumulate_off in Hd, Hs. split; congruence.
Qed.

(** With an accelerator, a validation pass reports the size-weighted
    averages: each per-batch figure times the batch size, summed, over the
    dataset size; the accuracies as percentages. *)
Lemma validation_size_weighted (opt : Options) (val_loader : Loader)
    (m : Model) (criterion : Criterion) (vm : Metrics) :
  validation opt true val_loader m criterion = Ret vm ->
  loss vm
  == Num.sum (map (fun b => val_batch_loss opt m criterion b
                            * batch_size_of b) (batches val_loader))
     / inject_Z (Z.of_nat (dataset val_loader))
  /\ dis_acc vm
     == 100 * Num.sum (map (fun b => val_batch_dis_acc m b * batch_size_of b)
                         (batches val_loader))
        / inject_Z (Z.of_nat (dataset val_loader))
  /\ sev_acc vm
     == 100 * Num.sum (map (fun b => val_batch_sev_acc m b * batch_size_of b)
                         (batches val_loader))
        / inject_Z (Z.of_nat (dataset val_loader)).
Proof.
  unfold validation.
  destruct (for_each _ _ _) as [vm1|] eqn:E; [|discriminate].
  unfold Py.bind.
  destruct (for_each_validation _ _ _ _ _ _ _ E) as (Hl & Hon & _).
  destruct (Hon eq_refl) as [Hd Hs].
  unfold finish. destruct (dataset val_loader) as [|n] eqn:En; [discriminate|].
  intros [= <-]. cbn [loss dis_acc sev_acc].
  rewrite Hl, Hd, Hs. unfold zero_metrics; cbn [loss dis_acc sev_acc].
  change (Z.pos (Pos.of_succ_nat n)) with (Z.of_nat (Datatypes.S n)).
  split; [|split]; unfold Qdiv; ring.
Qed.

(** X13. On an accelerator, when all batches have one size [k] and the
    dataset holds exactly the batches, the size-weighted averages are
    unweighted means: the loss is the mean of the per-batch losses, and
    each accuracy is 100 times the mean of the per-batch accuracies. *)
Lemma validation_equal_batches (opt : Options) (val_loader : Loader)
    (m : Model) (criterion : Criterion) (vm : Metrics) (k : nat) :
  validation opt true val_loader m criterion = Ret vm ->
  (0 < k)%nat ->
  (forall b, In b (batches val_loader) -> batch_len (images b) = k) ->
  dataset val_loader = (k * length (batches val_loader))%nat ->
  loss vm
  == Num.sum (map (val_batch_loss opt m criterion) (batches val_loader))
     / Num.len (batches val_loader)
  /\ dis_acc vm
     == 100 * (Num.sum (map (val_batch_dis_acc m) (batches val_loader))
               / Num.len (batches val_loader))
  /\ sev_acc vm
     == 100 * (Num.sum (map (val_batch_sev_acc m) (batches val_loader))
               / Num.len (batches val_loader)).
Proof.
  intros H Hk Hall Hd.
  assert (Hbs : (0 < length (batches val_loader))%nat).
  { unfold validation in H.
    destruct (for_each _ _ _); [|discriminate]. unfold Py.bind, finish in H.
    destruct (dataset val_loader) eqn:E; [discriminate|]. nia. }
  destruct (validation_size_weighted _ _ _ _ _ H) as (Hl & Hda & Hsa).
  assert (Hscale : forall f : Batch -> Q,
             Num.sum (map (fun b => f b * batch_size_of b)
                        (batches val_loader))
             == Num.sum (map f (batches val_loader))
                * inject_Z (Z.of_nat k)).
  { intros f. rewrite <- sum_map_scale. apply sum_map_ext.
    intros b Hb. unfold batch_size_of. now rewrite (Hall b Hb). }
  rewrite Hl, Hda, Hsa, !Hscale, Hd. unfold Num.len.
  rewrite Nat2Z.inj_mul, inject_Z_mult.
  assert (~ inject_Z (Z.of_nat k) == 0).
  { intros E. assert (0 < inject_Z (Z.of_nat k))
      by (rewrite <- (Zlt_Qlt 0); lia). lra. }
  assert (~ inject_Z (Z.of_nat (length (batches val_loader))) == 0).
  { intros E.
    assert (0 < inject_Z (Z.of_nat (length (batches val_loader))))
      by (rewrite <- (Zlt_Qlt 0); lia). lra. }
  split; [|split]; field; auto.
Qed.

End EpochAverages.

Section AcceleratorClaims.
Import Torch Toy.

(** C6 (violated by the code). An epoch of one batch of two leaves, both
    classified correctly by both heads, run on a host without accelerator:
    the size-weighted average of the per-batch accuracy is
    [100 * (1 * 2) / 2 = 100], and both [train] and [validation] report an
    accuracy of 0, because the accuracy sums are accumulated only under
    [if torch.cuda.is_available()].  The loss is reported as its
    size-weighted mean, 2, on the same host. *)
Theorem epoch_accuracy_without_accelerator :
  match
    EntireLeafClf.train (B := backend) leaf_config false leaf_loader
      (trainer leaf_config 2) CrossEntropyLoss "standard",
    EntireLeafClf.validation (B := backend) leaf_config false leaf_loader 2
      CrossEntropyLoss
  with
  | Ret (_, tm), Ret vm =>
      EntireLeafClf.dis_acc tm == 0 /\ EntireLeafClf.sev_acc tm == 0
      /\ EntireLeafClf.dis_acc vm == 0 /\ EntireLeafClf.sev_acc vm == 0
      /\ EntireLeafClf.loss tm == 2 /\ EntireLeafClf.loss vm == 2
  | _, _ => False
  end
  /\ EntireLeafClf.val_batch_dis_acc (B := backend) 2 leaf_batch == 1
  /\ EntireLeafClf.val_batch_sev_acc (B := backend) 2 leaf_batch == 1
  /\ EntireLeafClf.batch_size_of (B := backend) leaf_batch == 2
  /\ EntireLeafClf.dataset leaf_loader = 2%nat
  /\ 100 * (EntireLeafClf.val_batch_dis_acc (B := backend) 2 leaf_batch
            * EntireLeafClf.batch_size_of (B := backend) leaf_batch)
     / inject_Z (Z.of_nat (EntireLeafClf.dataset leaf_loader)) == 100.
Proof. vm_compute. repeat split. Qed.

(** C10 (violated by the code). On the same batches, outputs and labels
    the accuracies that [train] and [validation] of the entire-leaf
    classifier and [train] of the lesion-spot classifier return are 100
    with an accelerator and 0 without one: the running sums stay at their
    zero initialisation on a host without accelerator. *)
Theorem accuracy_depends_on_accelerator :
  match
    EntireLeafClf.train (B := backend) leaf_config true leaf_loader
      (trainer leaf_config 2) CrossEntropyLoss "standard",
    EntireLeafClf.train (B := backend) leaf_config false leaf_loader
      (trainer leaf_config 2) CrossEntropyLoss "standard"
  with
  | Ret (_, gpu), Ret (_, cpu) =>
      EntireLeafClf.dis_acc gpu == 100 /\ EntireLeafClf.dis_acc cpu == 0
      /\ EntireLeafClf.sev_acc gpu == 100 /\ EntireLeafClf.sev_acc cpu == 0
  | _, _ => False
  end
  /\ match
       EntireLeafClf.validation (B := backend) leaf_config true leaf_loader 2
         CrossEntropyLoss,
       EntireLeafClf.validation (B := backend) leaf_config false leaf_loader 2
         CrossEntropyLoss
     with
     | Ret gpu, Ret cpu =>
         EntireLeafClf.dis_acc gpu == 100 /\ EntireLeafClf.dis_acc cpu == 0
         /\ EntireLeafClf.sev_acc gpu == 100
         /\ EntireLeafClf.sev_acc cpu == 0
     | _, _ => False
     end
  /\ match
       LesionSpotClf.train (B := backend) true spot_loader
         (trainer leaf_config 2) CrossEntropyLoss "standard",
       LesionSpotClf.train (B := backend) false spot_loader
         (trainer leaf_config 2) CrossEntropyLoss "standard"
     with
     | Ret (_, gpu), Ret (_, cpu) =>
         LesionSpotClf.acc gpu == 100 /\ LesionSpotClf.acc cpu == 0
     | _, _ => False
     end.
Proof. vm_compute. repeat split. Qed.

(** The sibling path: [validation] of the lesion-spot classifier counts
    the correct predictions on every host. *)
Example lesion_spot_validation_counts :
  match
    LesionSpotClf.validation (B := backend) spot_loader 2 CrossEntropyLoss
  with
  | Ret vm => LesionSpotClf.acc vm == 100
  | Raise _ => False
  end.
Proof. vm_compute. reflexivity. Qed.

End AcceleratorClaims.

(** * Further properties of the code *)

(** ** Metric helper *)

Section MetricsMore.
Import Metrics.

Lemma agree_le (y_true y_pred : list Z) :
  (agree y_true y_pred <= length y_pred)%nat.
Proof.
  revert y_pred; induction y_true as [|t l IH]; intros [|p y_pred]; simpl;
    try lia.
  specialize (IH y_pred). destruct (t =? p)%Z; lia.
Qed.

Lemma agree_full (y_true y_pred : list Z) :
  length y_pred = length y_true ->
  (agree y_true y_pred = length y_pred <-> y_pred = y_true).
Proof.
  revert y_pred; induction y_true as [|t l IH]; intros [|p y_pred]; simpl;
    try discriminate; [tauto|].
  intros [= Hlen]. specialize (IH y_pred Hlen).
  pose proof (agree_le l y_pred).
  destruct (Z.eqb_spec t p) as [->|Hne].
  - split.
    + intros H1. f_equal. apply IH. lia.
    + intros [= ->]. simpl. f_equal. now apply IH.
  - split; [lia|]. intros [= -> _]. congruence.
Qed.

(** X1. What [eval_metrics] returns without a second label set: a fraction in
    [0,1] when the vectors are not empty and have one length,
    [ValueError] when their lengths differ, and the value [None], without
    looking at the vectors, for any metric name other than 'acc'. *)
Theorem eval_metrics_outcome (pred labels : list Z) :
  (pred <> [] ->
   length pred = length labels ->
   exists q, eval_metrics "acc" pred labels None None = Ret (Some q)
             /\ 0 <= q <= 1)
  /\ (length pred <> length labels ->
      eval_metrics "acc" pred labels None None = Raise ValueError)
  /\ (forall metric y2 lam,
        metric <> "acc"%string ->
        eval_metrics metric pred labels y2 lam = Ret None).
Proof.
  split; [|split].
  - intros Hne H. exists (fraction_agree pred labels). split.
    + now apply eval_metrics_plain.
    + apply fraction_agree_bounds.
  - intros H. unfold eval_metrics. simpl.
    now rewrite accuracy_score_mismatch.
  - intros metric y2 lam H. apply String.eqb_neq in H.
    unfold eval_metrics. rewrite H. destruct y2; reflexivity.
Qed.

Lemma eval_metrics_outcome_witness :
  (exists q, eval_metrics "acc" [1; 2]%Z [1; 0]%Z None None = Ret (Some q)
             /\ 0 <= q <= 1)
  /\ eval_metrics "acc" [1; 2]%Z [1; 2; 3]%Z None None = Raise ValueError
  /\ eval_metrics "f1" [1; 2]%Z [1; 2; 3]%Z None None = Ret None.
Proof.
  destruct (eval_metrics_outcome [1; 2]%Z [1; 0]%Z) as (H0 & _ & _).
  destruct (eval_metrics_outcome [1; 2]%Z [1; 2; 3]%Z) as (_ & H1 & H2).
  split; [apply H0; [discriminate|reflexivity]|].
  split; [apply H1; discriminate|apply H2; discriminate].
Defined.

(** X2. The plain accuracy of non-empty vectors is 1 exactly when every
    prediction is right. *)
Theorem accuracy_perfect_iff (pred labels : list Z) (q : Q) :
  pred <> [] ->
  eval_metrics "acc" pred labels None None = Ret (Some q) ->
  (q == 1 <-> pred = labels).
Proof.
  intros Hne H.
  assert (Hlen : length pred = length labels).
  { destruct (Nat.eq_dec (length pred) (length labels)) as [E|E]; [exact E|].
    unfold eval_metrics in H. simpl in H.
    rewrite accuracy_score_mismatch in H by assumption. discriminate. }
  rewrite (eval_metrics_plain _ _ Hne Hlen) in H. injection H as <-.
  unfold fraction_agree, Num.len. rewrite <- agree_filter.
  assert (Hpos : 0 < inject_Z (Z.of_nat (length pred))).
  { rewrite <- (Zlt_Qlt 0). destruct pred; [congruence|simpl; lia]. }
  assert (Hnz : ~ inject_Z (Z.of_nat (length pred)) == 0).
  { intros Hz. rewrite Hz in Hpos. discriminate. }
  rewrite <- (agree_full labels pred Hlen).
  split.
  - intros E.
    assert (E' : inject_Z (Z.of_nat (agree labels pred))
                 == inject_Z (Z.of_nat (length pred))).
    { rewrite <- (Qmult_1_l (inject_Z (Z.of_nat (length pred)))), <- E.
      field. exact Hnz. }
    unfold Qeq in E'. simpl in E'. lia.
  - intros ->. field. exact Hnz.
Qed.

Lemma accuracy_perfect_iff_witness :
  (3 # 3) == 1 <-> [4; 0; 2]%Z = [4; 0; 2]%Z.
Proof.
  apply (accuracy_perfect_iff [4; 0; 2]%Z [4; 0; 2]%Z (3 # 3));
    [discriminate|reflexivity].
Defined.

(** X3. On non-empty vectors of one length the mixed-label accuracy stays
    in [0,1] for [lam] in [0,1], is unchanged when the two label sides
    are swapped together with [lam] and [1 - lam], and is the plain
    accuracy when both sides are the same labels. *)
Theorem eval_metrics_mixup_algebra (pred a b : list Z) (lam : Q) :
  pred <> [] ->
  length pred = length a ->
  length pred = length b ->
  exists q q' p,
    eval_metrics "acc" pred a (Some b) (Some lam) = Ret (Some q)
    /\ eval_metrics "acc" pred b (Some a) (Some (1 - lam)) = Ret (Some q')
    /\ eval_metrics "acc" pred a None None = Ret (Some p)
    /\ q == q'
    /\ (0 <= lam <= 1 -> 0 <= q <= 1)
    /\ (a = b -> q == p).
Proof.
  intros Hne Ha Hb.
  exists (lam * fraction_agree pred a + (1 - lam) * fraction_agree pred b),
         ((1 - lam) * fraction_agree pred b
          + (1 - (1 - lam)) * fraction_agree pred a),
         (fraction_agree pred a).
  split; [|split; [|split; [|split; [|split]]]].
  - unfold eval_metrics. simpl.
    now rewrite !accuracy_score_fraction.
  - unfold eval_metrics. simpl.
    now rewrite !accuracy_score_fraction.
  - now apply eval_metrics_plain.
  - ring.
  - intros Hl. now apply mixup_accuracy_bounds.
  - intros <-. ring.
Qed.

Lemma eval_metrics_mixup_algebra_witness :
  exists q q',
    eval_metrics "acc" [1; 2; 0]%Z [1; 2; 2]%Z (Some [0; 2; 0]%Z)
      (Some (1 # 4)) = Ret (Some q)
    /\ eval_metrics "acc" [1; 2; 0]%Z [0; 2; 0]%Z (Some [1; 2; 2]%Z)
         (Some (1 - (1 # 4))) = Ret (Some q')
    /\ q == q'.
Proof.
  destruct (eval_metrics_mixup_algebra [1; 2; 0]%Z [1; 2; 2]%Z [0; 2; 0]%Z
              (1 # 4) ltac:(discriminate) eq_refl eq_refl)
    as (q & q' & p & H1 & H2 & _ & H3 & _).
  exists q, q'. auto.
Defined.

End MetricsMore.

(** ** Imbalance-aware sampler *)

Section SamplerMore.
Import Sampler.

Lemma sliceable_table (d : list (list Z)) (k : nat) :
  d <> [] ->
  (forall row, In row d -> length row = k) ->
  sliceable d = (2 <=? k)%nat.
Proof.
  destruct d as [|row rows]; [congruence|]. intros _ H. simpl.
  rewrite (H row (or_introl eq_refl)).
  replace (forallb _ rows) with true; [apply andb_true_r|].
  symmetry. apply forallb_forall. intros r Hr.
  rewrite (H r (or_intror Hr)). apply Nat.eqb_refl.
Qed.

(** X4. The outcome of the sampler.  On an empty dataset it raises
    ([IndexError] from the column slice in the joint case, [ValueError]
    from the sampler object otherwise); in the joint case it raises
    [IndexError] as well on a table whose rows have fewer than two
    columns; on a non-empty dataset that, in the joint case, is a table
    of two columns or more, it returns; and whenever it returns, the
    schedule and the weight vector are as long as the dataset. *)
Theorem sampler_outcome (dataset : Dataset) (opt : Options) :
  (size dataset opt = 0%nat ->
   sampler dataset opt
   = Raise (if (select_classifier opt =? 1)%Z
            then IndexError else ValueError))
  /\ (select_classifier opt = 1%Z ->
      forall k,
        (k < 2)%nat ->
        (forall row, In row (data dataset) -> length row = k) ->
        sampler dataset opt = Raise IndexError)
  /\ ((0 < size dataset opt)%nat ->
      (select_classifier opt = 1%Z ->
       exists k,
         (2 <= k)%nat
         /\ forall row, In row (data dataset) -> length row = k) ->
      exists smp, sampler dataset opt = Ret smp)
  /\ (forall smp,
        sampler dataset opt = Ret smp ->
        num_samples smp = size dataset opt
        /\ length (weights smp) = size dataset opt).
Proof.
  split; [|split; [|split]].
  - unfold size, sampler. destruct (select_classifier opt =? 1)%Z.
    + destruct (data dataset); [reflexivity|discriminate].
    + destruct (samples dataset); [reflexivity|discriminate].
  - intros Hsel k Hk Hrows. unfold sampler. rewrite Hsel. simpl.
    destruct (data dataset) as [|row rows] eqn:E; [reflexivity|].
    rewrite (sliceable_table (row :: rows) k); [|discriminate|exact Hrows].
    destruct (Nat.leb_spec 2 k); [lia|reflexivity].
  - intros Hpos Htab. apply sampler_returns.
    + rewrite raw_weights_length. exact Hpos.
    + intros Hsel. destruct (Htab Hsel) as (k & Hk & Hrows).
      rewrite (sliceable_table _ k); [now apply Nat.leb_le| |exact Hrows].
      unfold size in Hpos. apply Z.eqb_eq in Hsel. rewrite Hsel in Hpos.
      destruct (data dataset); [simpl in Hpos; lia|discriminate].
  - intros smp H. destruct (sampler_Ret _ _ _ H) as (Hw & Hn & _).
    pose proof (raw_weights_length dataset opt) as Hl.
    fold (size dataset opt) in Hl.
    rewrite Hn, Hw. unfold normalise. rewrite length_map. auto.
Qed.

Lemma sampler_outcome_witness :
  sampler {| data := []; samples := [] |} single_mode = Raise ValueError
  /\ sampler {| data := [[3]; [4]]%Z; samples := [] |} joint_mode
     = Raise IndexError
  /\ exists smp, sampler leaves_4 joint_mode = Ret smp.
Proof.
  destruct (sampler_outcome {| data := []; samples := [] |} single_mode)
    as (H0 & _).
  destruct (sampler_outcome {| data := [[3]; [4]]%Z; samples := [] |}
              joint_mode) as (_ & H1 & _).
  destruct (sampler_outcome leaves_4 joint_mode) as (_ & _ & H2 & _).
  split; [exact (H0 eq_refl)|]. split.
  - apply (H1 eq_refl 1%nat); [lia|].
    intros row [<-|[<-|[]]]; reflexivity.
  - apply H2; [unfold size; simpl; lia|].
    intros _. exists 3%nat. split; [lia|].
    intros row [<-|[<-|[<-|[<-|[]]]]]; reflexivity.
Defined.

(** X5. In the joint case, as soon as one example lies in the 5 x 5 grid, an
    example whose labels lie outside it keeps the initial weight zero,
    so the schedule never draws it, while the example of the grid has a
    positive weight. *)
Theorem joint_out_of_grid_weight (dataset : Dataset) (opt : Options)
    (smp : WeightedRandomSampler) (i j : nat) (d s d' s' : Z) :
  sampler dataset opt = Ret smp ->
  select_classifier opt = 1%Z ->
  nth_error (dis_of dataset) i = Some d ->
  nth_error (sev_of dataset) i = Some s ->
  in_grid d s = false ->
  nth_error (dis_of dataset) j = Some d' ->
  nth_error (sev_of dataset) j = Some s' ->
  in_grid d' s' = true ->
  nth i (weights smp) 0 == 0 /\ 0 < nth j (weights smp) 0.
Proof.
  intros Hs Hsel Hd Hv Hg Hd' Hv' Hg'.
  destruct (sampler_Ret _ _ _ Hs) as (Hw & _ & _).
  assert (Hpos : (0 < length (dis_of dataset))%nat).
  { assert (i < length (dis_of dataset))%nat
      by (apply nth_error_Some; congruence). lia. }
  rewrite Hw. split.
  - rewrite nth_normalise. unfold raw_weights. rewrite Hsel. simpl.
    fold (dis_of dataset). fold (sev_of dataset).
    rewrite (nth_joint_weights _ _ _ _ _ Hd Hv), Hg.
    unfold Qdiv. ring.
  - apply normalise_pos; [apply raw_weights_nonneg|].
    unfold raw_weights. rewrite Hsel. simpl.
    fold (dis_of dataset). fold (sev_of dataset).
    rewrite (nth_joint_weights _ _ _ _ _ Hd' Hv'), Hg'.
    now apply joint_formula_pos.
Qed.

Lemma joint_out_of_grid_weight_witness :
  exists smp,
    sampler {| data := [[1; 0; 0]; [2; 7; 1]]%Z; samples := [] |} joint_mode
    = Ret smp
    /\ nth 1 (weights smp) 0 == 0 /\ 0 < nth 0 (weights smp) 0.
Proof.
  destruct (sampler_returns
              {| data := [[1; 0; 0]; [2; 7; 1]]%Z; samples := [] |}
              joint_mode) as [smp Hs].
  - rewrite raw_weights_length. simpl. lia.
  - reflexivity.
  - exists smp. split; [exact Hs|].
    apply (joint_out_of_grid_weight _ _ _ 1%nat 0%nat 7%Z 1%Z 0%Z 0%Z Hs);
      reflexivity.
Defined.

Lemma cell_count_le (dis sev : list Z) (d s : Z) :
  (cell_count dis sev d s <= length dis)%nat.
Proof.
  unfold cell_count. etransitivity; [apply filter_length_le|].
  rewrite length_combine. apply Nat.le_min_l.
Qed.

Lemma joint_formula_times (n total : nat) :
  (0 < total)%nat ->
  joint_formula n total * (inject_Z (Z.of_nat n) + 20)
  == inject_Z (Z.of_nat total).
Proof.
  intros Ht. unfold joint_formula, balance_factor.
  change (inject_Z 20) with 20.
  assert (0 < inject_Z (Z.of_nat total)) by (rewrite <- (Zlt_Qlt 0); lia).
  assert (0 <= inject_Z (Z.of_nat n)) by (rewrite <- (Zle_Qle 0); lia).
  field. split; lra.
Qed.

(** X6. The smoothing constant bounds how far the joint weights can spread:
    between two examples of the grid, one is drawn at most
    [(total + 20) / 20] times as often as the other. *)
Theorem joint_weight_spread (dataset : Dataset) (opt : Options)
    (smp : WeightedRandomSampler) (i j : nat) (d s d' s' : Z) :
  sampler dataset opt = Ret smp ->
  select_classifier opt = 1%Z ->
  nth_error (dis_of dataset) i = Some d ->
  nth_error (sev_of dataset) i = Some s ->
  in_grid d s = true ->
  nth_error (dis_of dataset) j = Some d' ->
  nth_error (sev_of dataset) j = Some s' ->
  in_grid d' s' = true ->
  nth i (weights smp) 0 * 20
  <= nth j (weights smp) 0 * (inject_Z (Z.of_nat (size dataset opt)) + 20).
Proof.
  intros Hs Hsel Hd Hv Hg Hd' Hv' Hg'.
  destruct (sampler_Ret _ _ _ Hs) as (Hw & _ & _).
  pose proof (raw_weights_nonneg dataset opt) as Hnn.
  assert (Hsum : 0 <= Num.sum (raw_weights dataset opt))
    by (apply sum_nonneg, In_nth_nonneg, Hnn).
  rewrite Hw, !nth_normalise.
  assert (Hsize : size dataset opt = length (dis_of dataset)).
  { unfold size, dis_of, dis_column. apply Z.eqb_eq in Hsel.
    now rewrite Hsel, length_map. }
  assert (Hpos : (0 < length (dis_of dataset))%nat).
  { assert (i < length (dis_of dataset))%nat
      by (apply nth_error_Some; congruence). lia. }
  unfold raw_weights in *. rewrite Hsel in *. simpl in *.
  fold (dis_of dataset) in *. fold (sev_of dataset) in *.
  rewrite (nth_joint_weights _ _ _ _ _ Hd Hv), Hg.
  rewrite (nth_joint_weights _ _ _ _ _ Hd' Hv'), Hg'.
  rewrite Hsize.
  set (T := length (dis_of dataset)) in *.
  set (n := cell_count (dis_of dataset) (sev_of dataset) d s).
  set (n' := cell_count (dis_of dataset) (sev_of dataset) d' s').
  pose proof (joint_formula_times n T Hpos) as E.
  pose proof (joint_formula_times n' T Hpos) as E'.
  pose proof (joint_formula_pos n T Hpos) as P.
  pose proof (joint_formula_pos n' T Hpos) as P'.
  assert (Hn : 0 <= inject_Z (Z.of_nat n)) by (rewrite <- (Zle_Qle 0); lia).
  assert (Hn' : inject_Z (Z.of_nat n') <= inject_Z (Z.of_nat T)).
  { rewrite <- Zle_Qle. apply inj_le. apply cell_count_le. }
  assert (Hraw : joint_formula n T * 20
                 <= joint_formula n' T * (inject_Z (Z.of_nat T) + 20))
    by nra.
  set (S := Num.sum _) in *.
  destruct (Qeq_dec S 0) as [Z0|NZ].
  - rewrite Z0. unfold Qdiv. change (/ 0) with 0. lra.
  - assert (0 < / S) by (apply Qinv_lt_0_compat; lra).
    unfold Qdiv. nra.
Qed.

Lemma joint_weight_spread_witness :
  exists smp,
    sampler leaves_4 joint_mode = Ret smp
    /\ nth 0 (weights smp) 0 * 20
       <= nth 1 (weights smp) 0 * (inject_Z (Z.of_nat 4) + 20).
Proof.
  destruct (sampler_returns leaves_4 joint_mode) as [smp Hs].
  - rewrite raw_weights_length. simpl. lia.
  - reflexivity.
  - exists smp. split; [exact Hs|].
    apply (joint_weight_spread leaves_4 joint_mode smp 0%nat 1%nat
             0%Z 0%Z 2%Z 1%Z Hs); reflexivity.
Defined.

(** X7. In the single-label case two examples of classes of one size weigh
    the same, and an example of a strictly rarer class weighs strictly
    more. *)
Theorem single_weight_order (dataset : Dataset) (opt : Options)
    (smp : WeightedRandomSampler) (i j : nat) (ti tj : Z) :
  sampler dataset opt = Ret smp ->
  select_classifier opt <> 1%Z ->
  nth_error (targets_of dataset) i = Some ti ->
  nth_error (targets_of dataset) j = Some tj ->
  ((class_count (targets_of dataset) ti
    = class_count (targets_of dataset) tj)%nat ->
   nth i (weights smp) 0 == nth j (weights smp) 0)
  /\ ((class_count (targets_of dataset) ti
       < class_count (targets_of dataset) tj)%nat ->
      nth j (weights smp) 0 < nth i (weights smp) 0).
Proof.
  intros Hs Hsel Hi Hj.
  destruct (sampler_Ret _ _ _ Hs) as (Hw & _ & _).
  apply Z.eqb_neq in Hsel. unfold raw_weights in Hw. rewrite Hsel in Hw.
  fold (targets_of dataset) in Hw. rewrite Hw.
  pose proof (single_weights_ratio _ _ _ _ _ Hi Hj) as R.
  pose proof (class_count_pos _ _ _ Hi) as Pi.
  pose proof (class_count_pos _ _ _ Hj) as Pj.
  assert (Ht : (0 < length (targets_of dataset))%nat).
  { assert (i < length (targets_of dataset))%nat
      by (apply nth_error_Some; congruence). lia. }
  assert (Wi : 0 < nth i (normalise (single_weights (targets_of dataset))) 0).
  { apply normalise_pos; [apply single_weights_nonneg|].
    rewrite (nth_single_weights _ _ _ Hi).
    now apply single_formula_pos. }
  assert (Wj : 0 < nth j (normalise (single_weights (targets_of dataset))) 0).
  { apply normalise_pos; [apply single_weights_nonneg|].
    rewrite (nth_single_weights _ _ _ Hj).
    now apply single_formula_pos. }
  set (wi := nth i _ 0) in *. set (wj := nth j _ 0) in *.
  set (ni := class_count (targets_of dataset) ti) in *.
  set (nj := class_count (targets_of dataset) tj) in *.
  assert (Qi : 0 < inject_Z (Z.of_nat ni)) by (rewrite <- (Zlt_Qlt 0); lia).
  assert (Qj : 0 < inject_Z (Z.of_nat nj)) by (rewrite <- (Zlt_Qlt 0); lia).
  split.
  - intros E. rewrite E in R. nra.
  - intros L.
    assert (inject_Z (Z.of_nat ni) < inject_Z (Z.of_nat nj))
      by (rewrite <- Zlt_Qlt; lia).
    nra.
Qed.

Lemma single_weight_order_witness :
  exists smp,
    sampler imbalanced_90_10 single_mode = Ret smp
    /\ nth 0 (weights smp) 0 < nth 99 (weights smp) 0.
Proof.
  destruct (sampler_returns imbalanced_90_10 single_mode) as [smp Hs].
  - rewrite raw_weights_length. simpl. lia.
  - discriminate.
  - exists smp. split; [exact Hs|].
    apply (single_weight_order imbalanced_90_10 single_mode smp 99%nat 0%nat
             1%Z 0%Z Hs); [discriminate|reflexivity|reflexivity|].
    vm_compute. lia.
Defined.

End SamplerMore.

Section ClassMass.
Import Sampler.

Lemma insert_unique_sorted (x : Z) (l : list Z) :
  StronglySorted Z.lt l -> StronglySorted Z.lt (insert_unique x l).
Proof.
  induction l as [|y l IH]; intros Hs; simpl.
  - constructor; constructor.
  - inversion Hs as [|? ? Hl Hy]; subst.
    destruct (Z.ltb_spec x y) as [Hlt|Hge].
    + constructor; [assumption|]. constructor; [assumption|].
      eapply Forall_impl; [|exact Hy]. intros z Hz. simpl in Hz. lia.
    + destruct (Z.eqb_spec x y) as [->|Hne]; [assumption|].
      constructor; [now apply IH|].
      apply Forall_forall. intros z Hz.
      apply In_insert_unique in Hz. destruct Hz as [->|Hz]; [lia|].
      rewrite Forall_forall in Hy. now apply Hy.
Qed.

Lemma unique_sorted (l : list Z) : StronglySorted Z.lt (unique l).
Proof.
  induction l as [|x l IH]; simpl; [constructor|].
  now apply insert_unique_sorted.
Qed.

(** [np.unique] lists every observed class once. *)
Lemma unique_NoDup (l : list Z) : NoDup (unique l).
Proof.
  pose proof (unique_sorted l) as H.
  induction H as [|x u Hu IH Hx]; constructor; [|assumption].
  intros Hin. rewrite Forall_forall in Hx. specialize (Hx x Hin). lia.
Qed.

Lemma sum_indicator (f : Z -> Q) (x : Z) (cs : list Z) :
  NoDup cs -> In x cs ->
  Num.sum (map (fun c => if Z.eq_dec x c then f c else 0) cs) == f x.
Proof.
  induction cs as [|c cs IH]; intros Hnd Hin; [contradiction|].
  inversion Hnd as [|? ? Hc Hnd']; subst. simpl. rewrite sum_cons.
  destruct (Z.eq_dec x c) as [->|Hne].
  - assert (Hz : Num.sum (map (fun c0 => if Z.eq_dec c c0 then f c0 else 0) cs)
                 == 0).
    { clear IH Hnd Hnd' Hin. induction cs as [|y cs IH']; simpl.
      - reflexivity.
      - rewrite sum_cons.
        destruct (Z.eq_dec c y) as [->|]; [exfalso; apply Hc; now left|].
        rewrite IH'; [ring|]. intros H. apply Hc. now right. }
    rewrite Hz. ring.
  - destruct Hin as [->|Hin]; [congruence|].
    rewrite IH by assumption. ring.
Qed.

Lemma sum_const {A : Type} (c : Q) (f : A -> Q) (l : list A) :
  (forall a, In a l -> f a == c) ->
  Num.sum (map f l) == Num.len l * c.
Proof.
  induction l as [|a l IH]; intros H.
  - simpl. unfold Num.len. simpl. change (Num.sum []) with 0. ring.
  - assert (Ha : f a == c) by (apply H; now left).
    assert (Hl : Num.sum (map f l) == Num.len l * c)
      by (apply IH; intros x Hx; apply H; now right).
    simpl map. rewrite sum_cons, Hl, Ha.
    unfold Num.len. simpl length. rewrite Nat2Z.inj_succ. unfold Z.succ.
    rewrite inject_Z_plus. change (inject_Z 1) with 1. ring.
Qed.

(** Summing over a list is summing over its distinct values, each counted
    as often as it occurs. *)
Lemma sum_by_class (f : Z -> Q) (l cs : list Z) :
  NoDup cs -> (forall x, In x l -> In x cs) ->
  Num.sum (map f l)
  == Num.sum (map (fun c => inject_Z (Z.of_nat (count_occ Z.eq_dec l c))
                            * f c) cs).
Proof.
  intros Hnd. induction l as [|x l IH]; intros Hin.
  - simpl map at 1. rewrite (sum_const 0).
    + change (Num.sum []) with 0. ring.
    + intros c _. simpl. ring.
  - simpl map at 1. rewrite sum_cons, IH by (intros y Hy; apply Hin; now right).
    rewrite <- (sum_indicator f x cs Hnd) at 1 by (apply Hin; now left).
    clear IH Hin. induction cs as [|c cs IHc].
    + simpl. change (Num.sum []) with 0. ring.
    + inversion Hnd; subst. simpl map. rewrite !sum_cons.
      rewrite <- IHc by assumption. simpl count_occ.
      destruct (Z.eq_dec x c) as [E|E].
      * rewrite Nat2Z.inj_succ. unfold Z.succ. rewrite inject_Z_plus.
        change (inject_Z 1) with 1. ring.
      * ring.
Qed.

Lemma single_weights_map (targets : list Z) :
  single_weights targets
  = map (fun t => single_formula (class_count targets t) (length targets))
        targets.
Proof.
  apply (nth_ext _ _ 0 0).
  - now rewrite single_weights_length, length_map.
  - intros i Hi. rewrite single_weights_length in Hi.
    destruct (nth_error targets i) as [t|] eqn:E;
      [|apply nth_error_None in E; lia].
    rewrite (nth_single_weights _ _ _ E).
    rewrite (nth_indep _ 0
               (single_formula (class_count targets 0%Z) (length targets)))
      by (now rewrite length_map).
    rewrite (map_nth (fun t => single_formula (class_count targets t)
                                 (length targets))).
    now rewrite (nth_error_nth _ _ _ E).
Qed.

(** The pre-normalisation weights of the single-label case add up to the
    number of classes times the number of examples. *)
Lemma single_weights_sum (targets : list Z) :
  Num.sum (single_weights targets)
  == Num.len (unique targets) * Num.len targets.
Proof.
  rewrite single_weights_map.
  rewrite (sum_by_class _ targets (unique targets) (unique_NoDup targets))
    by (intros x Hx; now apply In_unique).
  apply sum_const. intros c Hc. apply (proj1 (In_unique _ _)) in Hc.
  assert (Pc : (0 < class_count targets c)%nat)
    by (unfold class_count; apply count_occ_In; exact Hc).
  assert (Pt : (0 < length targets)%nat)
    by (destruct targets; [contradiction|simpl; lia]).
  unfold single_formula, class_count, Num.len in *.
  assert (0 < inject_Z (Z.of_nat (count_occ Z.eq_dec targets c)))
    by (rewrite <- (Zlt_Qlt 0); lia).
  assert (0 < inject_Z (Z.of_nat (length targets)))
    by (rewrite <- (Zlt_Qlt 0); lia).
  field. split; lra.
Qed.

(** X8. Balance of the single-label sampler: every observed class receives
    the same share of the draws.  The weight of an example times the size
    of its class is one over the number of observed classes. *)
Theorem single_class_mass (dataset : Dataset) (opt : Options)
    (smp : WeightedRandomSampler) (i : nat) (t : Z) :
  sampler dataset opt = Ret smp ->
  select_classifier opt <> 1%Z ->
  nth_error (targets_of dataset) i = Some t ->
  nth i (weights smp) 0
  * inject_Z (Z.of_nat (class_count (targets_of dataset) t))
  == 1 / inject_Z (Z.of_nat (length (unique (targets_of dataset)))).
Proof.
  intros Hs Hsel Hi.
  destruct (sampler_Ret _ _ _ Hs) as (Hw & _ & _).
  apply Z.eqb_neq in Hsel. unfold raw_weights in Hw. rewrite Hsel in Hw.
  fold (targets_of dataset) in Hw.
  rewrite Hw, nth_normalise, (nth_single_weights _ _ _ Hi),
    single_weights_sum.
  pose proof (class_count_pos _ _ _ Hi) as Pc.
  assert (Pt : (0 < length (targets_of dataset))%nat).
  { assert (i < length (targets_of dataset))%nat
      by (apply nth_error_Some; congruence). lia. }
  assert (Pu : (0 < length (unique (targets_of dataset)))%nat).
  { assert (Hin : In t (unique (targets_of dataset)))
      by (apply In_unique; eapply nth_error_In; eauto).
    destruct (unique (targets_of dataset)); [contradiction|simpl; lia]. }
  unfold single_formula, Num.len.
  assert (0 < inject_Z (Z.of_nat (class_count (targets_of dataset) t)))
    by (rewrite <- (Zlt_Qlt 0); lia).
  assert (0 < inject_Z (Z.of_nat (length (targets_of dataset))))
    by (rewrite <- (Zlt_Qlt 0); lia).
  assert (0 < inject_Z (Z.of_nat (length (unique (targets_of dataset)))))
    by (rewrite <- (Zlt_Qlt 0); lia).
  field. repeat split; lra.
Qed.

Lemma single_class_mass_witness :
  exists smp,
    sampler imbalanced_90_10 single_mode = Ret smp
    /\ nth 95 (weights smp) 0 * inject_Z (Z.of_nat 10) == 1 / inject_Z 2.
Proof.
  destruct (sampler_returns imbalanced_90_10 single_mode) as [smp Hs].
  - rewrite raw_weights_length. simpl. lia.
  - discriminate.
  - exists smp. split; [exact Hs|].
    apply (single_class_mass imbalanced_90_10 single_mode smp 95%nat 1%Z Hs);
      [discriminate|reflexivity].
Defined.

End ClassMass.

(** ** Learning-rate schedule *)

Section LearningRateMore.
Import LearningRate.

Lemma schedule_safe_iff_witness :
  raises (adjust_learning_rate sgd_optimizer 9 (sgd_run 10)) = false.
Proof.
  assert (H1 : (1 <= epochs (sgd_run 10))%Z) by (simpl; lia).
  assert (H9 : (0 <= 9 < epochs (sgd_run 10))%Z) by (simpl; lia).
  apply (proj2 (schedule_safe_iff sgd_optimizer (sgd_run 10) eq_refl H1)
           (or_introl eq_refl) 9%Z H9).
Defined.

Lemma getitem_lr_values_Ret (i : Z) :
  (0 <= i < 5)%Z ->
  getitem lr_values i = Ret (nth (Z.to_nat i) lr_values 0).
Proof.
  intros Hi.
  assert (Hc : (i = 0 \/ i = 1 \/ i = 2 \/ i = 3 \/ i = 4)%Z) by lia.
  destruct Hc as [->|[->|[->|[->| ->]]]]; reflexivity.
Qed.

Lemma lr_values_decay (i j : Z) :
  (0 <= i <= j)%Z -> (j < 5)%Z ->
  nth (Z.to_nat j) lr_values 0 <= nth (Z.to_nat i) lr_values 0.
Proof.
  intros Hij Hj.
  assert (Hi : (i = 0 \/ i = 1 \/ i = 2 \/ i = 3 \/ i = 4)%Z) by lia.
  assert (Hj' : (j = 0 \/ j = 1 \/ j = 2 \/ j = 3 \/ j = 4)%Z) by lia.
  destruct Hi as [->|[->|[->|[->| ->]]]];
    destruct Hj' as [->|[->|[->|[->| ->]]]];
    try lia; simpl; discriminate.
Qed.

(** What a successful SGD adjustment does. *)
Lemma adjust_learning_rate_sgd_Ret (optim optim' : Optimizer) (e : Z)
    (opt : Options) :
  optimizer opt = "sgd"%string ->
  (0 <= e)%Z -> (0 <= epochs opt)%Z ->
  adjust_learning_rate optim e opt = Ret optim' ->
  (0 < lr_step (epochs opt))%Z
  /\ (e / lr_step (epochs opt) < 5)%Z
  /\ param_groups optim'
     = map (fun _ => nth (Z.to_nat (e / lr_step (epochs opt))) lr_values 0)
           (param_groups optim).
Proof.
  intros Ho He Hn H.
  pose proof (adjust_learning_rate_raises optim e opt Ho He Hn) as R.
  rewrite H in R. simpl raises in R. symmetry in R.
  apply orb_false_iff in R. destruct R as [Rz Rl].
  apply Z.eqb_neq in Rz. apply Z.leb_gt in Rl.
  assert (Hpos : (0 < lr_step (epochs opt))%Z).
  { rewrite lr_step_spec in *.
    assert (0 <= (2 * epochs opt + 5) / 10)%Z by (apply Z.div_pos; lia).
    lia. }
  assert (Hq : (0 <= e / lr_step (epochs opt) < 5)%Z).
  { split; [apply Z.div_pos; lia|apply Z.div_lt_upper_bound; lia]. }
  split; [exact Hpos|]. split; [lia|].
  unfold adjust_learning_rate in H. rewrite Ho in H.
  change ("sgd" =? "sgd")%string with true in H. cbv iota in H.
  rewrite lr_index_spec in H by assumption. unfold Py.bind at 1 in H.
  rewrite Z.min_l in H by lia.
  rewrite getitem_lr_values_Ret in H by assumption.
  unfold Py.bind in H. now injection H as <-.
Qed.

(** X10. The SGD schedule decays: an adjustment that returns gives every
    parameter group one rate of the table, the first entry at epoch 0,
    keeps the number of groups, and a later epoch never gets a larger
    rate than an earlier one. *)
Theorem lr_schedule_decays (optim o1 o2 : Optimizer) (e e' : Z)
    (opt : Options) :
  optimizer opt = "sgd"%string ->
  (0 <= epochs opt)%Z ->
  (0 <= e <= e')%Z ->
  adjust_learning_rate optim e opt = Ret o1 ->
  adjust_learning_rate optim e' opt = Ret o2 ->
  exists r1 r2,
    param_groups o1 = map (fun _ => r1) (param_groups optim)
    /\ param_groups o2 = map (fun _ => r2) (param_groups optim)
    /\ In r1 lr_values /\ In r2 lr_values
    /\ r2 <= r1
    /\ (e = 0%Z -> r1 = 1 # 100).
Proof.
  intros Ho Hn He H1 H2.
  assert (He0 : (0 <= e)%Z) by lia.
  assert (He0' : (0 <= e')%Z) by lia.
  destruct (adjust_learning_rate_sgd_Ret _ _ _ _ Ho He0 Hn H1)
    as (Hs & Hq1 & G1).
  destruct (adjust_learning_rate_sgd_Ret _ _ _ _ Ho He0' Hn H2)
    as (_ & Hq2 & G2).
  assert (Hq0 : (0 <= e / lr_step (epochs opt))%Z)
    by (apply Z.div_pos; lia).
  assert (Hmono : (e / lr_step (epochs opt) <= e' / lr_step (epochs opt))%Z)
    by (apply Z.div_le_mono; lia).
  exists (nth (Z.to_nat (e / lr_step (epochs opt))) lr_values 0),
         (nth (Z.to_nat (e' / lr_step (epochs opt))) lr_values 0).
  split; [exact G1|]. split; [exact G2|].
  split; [apply nth_In; simpl; lia|]. split; [apply nth_In; simpl; lia|].
  split; [apply lr_values_decay; lia|].
  intros ->. rewrite Z.div_0_l by lia. reflexivity.
Qed.

Lemma lr_schedule_decays_witness :
  exists r1 r2,
    param_groups {| param_groups := [1 # 1000] |} = [r1]
    /\ param_groups {| param_groups := [1 # 10000] |} = [r2]
    /\ r2 <= r1.
Proof.
  destruct (lr_schedule_decays sgd_optimizer
              {| param_groups := [1 # 1000] |}
              {| param_groups := [1 # 10000] |} 4 9 (sgd_run 10)
              eq_refl ltac:(simpl; lia) ltac:(lia) eq_refl eq_refl)
    as (r1 & r2 & G1 & G2 & _ & _ & Hle & _).
  exists r1, r2. auto.
Defined.

End LearningRateMore.

(** ** Epoch functions *)

Section EpochMore.
Import Torch.

Lemma train_without_accelerator_witness :
  match
    EntireLeafClf.train (B := Toy.backend) Toy.leaf_config false
      Toy.leaf_loader (Toy.trainer Toy.leaf_config 2) CrossEntropyLoss
      "standard"
  with
  | Ret (_, m) => EntireLeafClf.dis_acc m == 0 /\ EntireLeafClf.sev_acc m == 0
  | Raise _ => False
  end.
Proof.
  destruct (EntireLeafClf.train (B := Toy.backend) Toy.leaf_config false
              Toy.leaf_loader (Toy.trainer Toy.leaf_config 2)
              CrossEntropyLoss "standard") as [[tr m]|e] eqn:E.
  - exact (train_without_accelerator _ _ _ _ _ _ _ E).
  - vm_compute in E. discriminate.
Defined.

Lemma validation_equal_batches_witness :
  match
    EntireLeafClf.validation (B := Toy.backend) Toy.leaf_config true
      Toy.leaf_loader 2 CrossEntropyLoss
  with
  | Ret vm =>
      EntireLeafClf.dis_acc vm
      == 100 * (Num.sum
                  (map (EntireLeafClf.val_batch_dis_acc (B := Toy.backend) 2)
                     (EntireLeafClf.batches Toy.leaf_loader))
                / Num.len (EntireLeafClf.batches Toy.leaf_loader))
  | Raise _ => False
  end.
Proof.
  destruct (EntireLeafClf.validation (B := Toy.backend) Toy.leaf_config true
              Toy.leaf_loader 2 CrossEntropyLoss) as [vm|e] eqn:E.
  - refine (proj1 (proj2 (validation_equal_batches (B := Toy.backend)
                            _ _ _ _ _ 2%nat E _ _ _))).
    + lia.
    + intros b [<-|[]]. reflexivity.
    + reflexivity.
  - vm_compute in E. discriminate.
Defined.

Section WithBackend.
Context {B : Backend}.

Lemma weighted_fraction_bound (f : EntireLeafClf.Batch -> Q)
    (bs : list EntireLeafClf.Batch) :
  (forall b, 0 <= f b <= 1) ->
  0 <= Num.sum (map (fun b => f b * EntireLeafClf.batch_size_of b) bs)
  <= inject_Z (Z.of_nat
                 (list_sum (map (fun b => batch_len (EntireLeafClf.images b))
                              bs))).
Proof.
  intros Hf. induction bs as [|b bs IH]; simpl.
  - change (Num.sum []) with 0. split; discriminate.
  - rewrite sum_cons, Nat2Z.inj_add, inject_Z_plus.
    unfold EntireLeafClf.batch_size_of at 1 3.
    assert (0 <= inject_Z (Z.of_nat (batch_len (EntireLeafClf.images b))))
      by (rewrite <- (Zle_Qle 0); lia).
    pose proof (Hf b). nra.
Qed.

(** X14. With an accelerator, and a loader whose dataset size is the total of
    its batch sizes, the two accuracies a validation pass reports are
    percentages: they lie between 0 and 100. *)
Theorem validation_accuracy_range (opt : Options)
    (val_loader : EntireLeafClf.Loader) (m : Model) (criterion : Criterion)
    (vm : EntireLeafClf.Metrics) :
  EntireLeafClf.validation opt true val_loader m criterion = Ret vm ->
  EntireLeafClf.dataset val_loader
  = list_sum (map (fun b => batch_len (EntireLeafClf.images b))
                (EntireLeafClf.batches val_loader)) ->
  0 <= EntireLeafClf.dis_acc vm <= 100
  /\ 0 <= EntireLeafClf.sev_acc vm <= 100.
Proof.
  intros H Hd.
  destruct (validation_size_weighted _ _ _ _ _ H) as (_ & Hda & Hsa).
  assert (Hn : (0 < EntireLeafClf.dataset val_loader)%nat).
  { unfold EntireLeafClf.validation in H.
    destruct (for_each _ _ _); [|discriminate].
    unfold Py.bind, EntireLeafClf.finish in H.
    destruct (EntireLeafClf.dataset val_loader); [discriminate|lia]. }
  assert (HN : 0 < inject_Z (Z.of_nat (EntireLeafClf.dataset val_loader)))
    by (rewrite <- (Zlt_Qlt 0); lia).
  pose proof (weighted_fraction_bound (EntireLeafClf.val_batch_dis_acc m)
                (EntireLeafClf.batches val_loader)
                (fun b => fraction_agree_bounds _ _)) as Bd.
  pose proof (weighted_fraction_bound (EntireLeafClf.val_batch_sev_acc m)
                (EntireLeafClf.batches val_loader)
                (fun b => fraction_agree_bounds _ _)) as Bs.
  rewrite <- Hd in Bd, Bs. rewrite Hda, Hsa.
  set (N := inject_Z (Z.of_nat (EntireLeafClf.dataset val_loader))) in *.
  set (Sd := Num.sum _) in Bd |- *. set (Ss := Num.sum _) in Bs |- *.
  split; split.
  - apply Qle_shift_div_l; [exact HN|]. lra.
  - apply Qle_shift_div_r; [exact HN|]. lra.
  - apply Qle_shift_div_l; [exact HN|]. lra.
  - apply Qle_shift_div_r; [exact HN|]. lra.
Qed.

(** Without an accelerator a training pass of the lesion-spot classifier
    that returns reports an accuracy of 0, whatever the predictions. *)
Lemma lesion_for_each_no_cuda (criterion : Criterion) (aug : string)
    (bs : list LesionSpotClf.Batch) (tr tr' : Trainer)
    (c c' : LesionSpotClf.Counters) :
  for_each (LesionSpotClf.train_step false criterion aug) bs (tr, c)
  = Ret (tr', c') ->
  LesionSpotClf.correct c = 0 ->
  LesionSpotClf.acc (LesionSpotClf.metrics c) == 0 ->
  LesionSpotClf.correct c' = 0
  /\ LesionSpotClf.acc (LesionSpotClf.metrics c') == 0.
Proof.
  revert tr c; induction bs as [|b bs IH]; intros tr c; simpl.
  - intros [= <- <-]. auto.
  - destruct (LesionSpotClf.train_step false criterion aug (tr, c) b)
      as [[tr1 c1]|] eqn:E; [|discriminate].
    unfold Py.bind. intros H Hc Ha.
    apply (IH _ _ H).
    + unfold LesionSpotClf.train_step in E. cbn [fst snd] in E.
      unfold Py.bind at 1 in E.
      destruct (LesionSpotClf.percentage _ _); [|discriminate].
      unfold Py.bind in E. injection E as _ <-. exact Hc.
    + unfold LesionSpotClf.train_step in E. cbn [fst snd] in E.
      unfold Py.bind at 1 in E. rewrite Hc in E.
      unfold LesionSpotClf.percentage in E.
      destruct (LesionSpotClf.total c + _)%nat; [discriminate|].
      unfold Py.bind in E. injection E as _ <-. simpl.
      unfold Qdiv. ring.
Qed.

(** X12. Without an accelerator a training pass of the lesion-spot
    classifier that returns reports the accuracy 0, whatever the
    predictions: [correct] only grows under the device test, while
    [total] counts the labels on every host. *)
Theorem lesion_accuracy_zero_on_cpu (train_loader : LesionSpotClf.Loader)
    (tr tr' : Trainer) (criterion : Criterion) (aug : string)
    (m : LesionSpotClf.Metrics) :
  LesionSpotClf.train false train_loader tr criterion aug = Ret (tr', m) ->
  LesionSpotClf.acc m == 0.
Proof.
  unfold LesionSpotClf.train.
  destruct (for_each _ _ _) as [[tr1 c1]|] eqn:E; [|discriminate].
  unfold Py.bind at 1. cbn [fst snd].
  destruct (lesion_for_each_no_cuda _ _ _ _ _ _ _ E eq_refl (Qeq_refl _))
    as [_ Ha].
  unfold LesionSpotClf.finish.
  destruct (LesionSpotClf.dataset train_loader); [discriminate|].
  unfold Py.bind. intros [= _ <-]. exact Ha.
Qed.

End WithBackend.

Lemma validation_accuracy_range_witness :
  match
    EntireLeafClf.validation (B := Toy.backend) Toy.leaf_config true
      Toy.leaf_loader' 2 CrossEntropyLoss
  with
  | Ret vm => 0 <= EntireLeafClf.sev_acc vm <= 100
  | Raise _ => False
  end.
Proof.
  destruct (EntireLeafClf.validation (B := Toy.backend) Toy.leaf_config true
              Toy.leaf_loader' 2 CrossEntropyLoss) as [vm|e] eqn:E.
  - exact (proj2 (validation_accuracy_range (B := Toy.backend) _ _ _ _ _ E
                    eq_refl)).
  - vm_compute in E. discriminate.
Defined.

Lemma lesion_accuracy_zero_on_cpu_witness :
  match
    LesionSpotClf.train (B := Toy.backend) false Toy.spot_loader
      (Toy.trainer Toy.leaf_config 2) CrossEntropyLoss "standard"
  with
  | Ret (_, m) => LesionSpotClf.acc m == 0
  | Raise _ => False
  end.
Proof.
  destruct (LesionSpotClf.train (B := Toy.backend) false Toy.spot_loader
              (Toy.trainer Toy.leaf_config 2) CrossEntropyLoss "standard")
    as [[tr m]|e] eqn:E.
  - exact (lesion_accuracy_zero_on_cpu (B := Toy.backend) _ _ _ _ _ _ E).
  - vm_compute in E. discriminate.
Defined.

End EpochMore.

(** ** Validation and test accuracy of the lesion-spot classifier *)

Section LesionAccuracy.
Import Torch.
Context {B : Backend}.

Lemma agree_app (t1 t2 p1 p2 : list Z) :
  length p1 = length t1 ->
  Metrics.agree (t1 ++ t2) (p1 ++ p2)
  = (Metrics.agree t1 p1 + Metrics.agree t2 p2)%nat.
Proof.
  revert p1; induction t1 as [|t l IH]; intros [|p p1]; simpl;
    try discriminate; [reflexivity|].
  intros [= H]. rewrite (IH _ H). lia.
Qed.

Lemma collect_from (m : Model) (bs : list LesionSpotClf.Batch)
    (acc : list Z * list Z) :
  fold_left
    (fun a b =>
       (fst a ++ argmax (forward1 m false (LesionSpotClf.images b)),
        snd a ++ LesionSpotClf.labels b)) bs acc
  = (fst acc
     ++ flat_map (fun b => argmax (forward1 m false (LesionSpotClf.images b)))
          bs,
     snd acc ++ flat_map LesionSpotClf.labels bs).
Proof.
  revert acc; induction bs as [|b bs IH]; intros [p l]; simpl.
  - now rewrite !app_nil_r.
  - rewrite IH. simpl. now rewrite !app_assoc.
Qed.

Lemma percentage_Ret (correct : Q) (total : nat) (x : Q) :
  LesionSpotClf.percentage correct total = Ret x ->
  (0 < total)%nat /\ x = 100 * correct / inject_Z (Z.of_nat total).
Proof.
  unfold LesionSpotClf.percentage. destruct total; [discriminate|].
  intros [= <-]. split; [lia|reflexivity].
Qed.

Lemma lesion_validation_step_Ret (m : Model) (criterion : Criterion)
    (c c' : LesionSpotClf.Counters) (b : LesionSpotClf.Batch) :
  LesionSpotClf.validation_step m criterion c b = Ret c' ->
  length (argmax (forward1 m false (LesionSpotClf.images b)))
  = length (LesionSpotClf.labels b) ->
  LesionSpotClf.total c'
  = (LesionSpotClf.total c + length (LesionSpotClf.labels b))%nat
  /\ LesionSpotClf.correct c'
     = LesionSpotClf.correct c
       + inject_Z (Z.of_nat
                     (Metrics.agree (LesionSpotClf.labels b)
                        (argmax (forward1 m false (LesionSpotClf.images b)))))
  /\ (0 < LesionSpotClf.total c')%nat
  /\ LesionSpotClf.acc (LesionSpotClf.metrics c')
     = 100 * LesionSpotClf.correct c'
       / inject_Z (Z.of_nat (LesionSpotClf.total c')).
Proof.
  unfold LesionSpotClf.validation_step, LesionSpotClf.count_equal.
  intros H E. rewrite E, Nat.eqb_refl in H.
  unfold Py.bind at 1 in H.
  destruct (LesionSpotClf.percentage _ _) as [x|] eqn:P; [|discriminate].
  unfold Py.bind in H. injection H as <-. simpl.
  destruct (percentage_Ret _ _ _ P) as [Hpos ->]. auto.
Qed.

Lemma lesion_validation_sums (m : Model) (criterion : Criterion)
    (bs : list LesionSpotClf.Batch) (c c' : LesionSpotClf.Counters) :
  for_each (LesionSpotClf.validation_step m criterion) bs c = Ret c' ->
  (forall b, In b bs ->
     length (argmax (forward1 m false (LesionSpotClf.images b)))
     = length (LesionSpotClf.labels b)) ->
  length (flat_map
            (fun b => argmax (forward1 m false (LesionSpotClf.images b))) bs)
  = length (flat_map LesionSpotClf.labels bs)
  /\ LesionSpotClf.total c'
     = (LesionSpotClf.total c
        + length (flat_map LesionSpotClf.labels bs))%nat
  /\ LesionSpotClf.correct c'
     == LesionSpotClf.correct c
        + inject_Z
            (Z.of_nat
               (Metrics.agree (flat_map LesionSpotClf.labels bs)
                  (flat_map
                     (fun b =>
                        argmax (forward1 m false (LesionSpotClf.images b)))
                     bs)))
  /\ (bs <> [] ->
      (0 < LesionSpotClf.total c')%nat
      /\ LesionSpotClf.acc (LesionSpotClf.metrics c')
         == 100 * LesionSpotClf.correct c'
            / inject_Z (Z.of_nat (LesionSpotClf.total c'))).
Proof.
  revert c; induction bs as [|b bs IH]; intros c; simpl.
  - intros [= <-] _. split; [reflexivity|]. split; [lia|].
    split; [simpl; ring|]. intros H. congruence.
  - destruct (LesionSpotClf.validation_step m criterion c b) as [c1|] eqn:E;
      [|discriminate].
    unfold Py.bind. intros H Hsize.
    assert (Hl : length (argmax (forward1 m false (LesionSpotClf.images b)))
                 = length (LesionSpotClf.labels b))
      by (apply Hsize; now left).
    destruct (lesion_validation_step_Ret _ _ _ _ _ E Hl)
      as (Ht & Hc & Hp & Ha).
    destruct (IH _ H (fun x Hx => Hsize x (or_intror Hx)))
      as (Il & It & Ic & Ia).
    split; [rewrite !length_app; congruence|].
    split; [rewrite It, Ht, length_app; lia|].
    split.
    + rewrite Ic, Hc, agree_app by assumption.
      rewrite Nat2Z.inj_add, inject_Z_plus. ring.
    + intros _. destruct bs as [|b' bs'].
      * simpl in H. injection H as <-. split; [exact Hp|].
        rewrite Ha. reflexivity.
      * apply Ia. discriminate.
Qed.

(** X15. When the network gives one prediction per label in every batch, the
    accuracy a validation pass of the lesion-spot classifier reports is,
    as a percentage, the accuracy that [run_test] computes over the
    concatenated predictions and labels of the same batches.  (A batch
    with a single label for several predictions, or the reverse, is
    compared by broadcasting in the validation pass and rejected by
    [accuracy_score].) *)
Theorem lesion_validation_is_test_accuracy (val_loader : LesionSpotClf.Loader)
    (m : Model) (criterion : Criterion) (vm : LesionSpotClf.Metrics) :
  LesionSpotClf.validation val_loader m criterion = Ret vm ->
  LesionSpotClf.batches val_loader <> [] ->
  (forall b, In b (LesionSpotClf.batches val_loader) ->
     length (argmax (forward1 m false (LesionSpotClf.images b)))
     = length (LesionSpotClf.labels b)) ->
  exists q,
    Evaluation.test_accuracy m (LesionSpotClf.batches val_loader) = Ret q
    /\ LesionSpotClf.acc vm == 100 * q
    /\ 0 <= LesionSpotClf.acc vm <= 100.
Proof.
  unfold LesionSpotClf.validation. intros H Hne Hsize.
  destruct (for_each _ _ _) as [c|] eqn:E; [|discriminate].
  unfold Py.bind in H.
  destruct (lesion_validation_sums _ _ _ _ _ E Hsize) as (Hl & Ht & Hc & Ha).
  destruct (Ha Hne) as [Hpos Hacc].
  unfold LesionSpotClf.finish in H.
  destruct (LesionSpotClf.dataset val_loader); [discriminate|].
  injection H as <-. cbn [LesionSpotClf.acc].
  unfold Evaluation.test_accuracy, Evaluation.collect.
  rewrite collect_from. cbn [fst snd app].
  simpl LesionSpotClf.total in Ht. simpl LesionSpotClf.correct in Hc.
  rewrite Ht in Hacc, Hpos. simpl in Hacc, Hpos.
  set (preds := flat_map
                  (fun b => argmax (forward1 m false (LesionSpotClf.images b)))
                  (LesionSpotClf.batches val_loader)) in *.
  set (lbls := flat_map LesionSpotClf.labels
                 (LesionSpotClf.batches val_loader)) in *.
  assert (Hp : preds <> []).
  { intros Hnil. rewrite Hnil in Hl. simpl in Hl. lia. }
  rewrite (accuracy_score_fraction _ _ Hp Hl).
  eexists. split; [reflexivity|].
  assert (Hq : LesionSpotClf.acc (LesionSpotClf.metrics c)
               == 100 * Metrics.fraction_agree preds lbls).
  { rewrite Hacc, Hc. unfold Metrics.fraction_agree, Num.len.
    rewrite <- agree_filter, Hl. unfold Qdiv. ring. }
  split; [exact Hq|].
  rewrite Hq.
  pose proof (fraction_agree_bounds preds lbls) as Fb.
  lra.
Qed.

End LesionAccuracy.

Lemma lesion_validation_is_test_accuracy_witness :
  match
    LesionSpotClf.validation (B := Toy.backend) Toy.spot_loader 2
      Torch.CrossEntropyLoss
  with
  | Ret vm =>
      exists q,
        Evaluation.test_accuracy (B := Toy.backend) 2
          (LesionSpotClf.batches Toy.spot_loader) = Ret q
        /\ LesionSpotClf.acc vm == 100 * q
  | Raise _ => False
  end.
Proof.
  destruct (LesionSpotClf.validation (B := Toy.backend) Toy.spot_loader 2
              Torch.CrossEntropyLoss) as [vm|e] eqn:E.
  - destruct (lesion_validation_is_test_accuracy (B := Toy.backend) _ _ _ _ E)
      as (q & H1 & H2 & _);
      [discriminate|intros b [<-|[]]; reflexivity|].
    exists q. auto.
  - vm_compute in E. discriminate.
Defined.

(** ** Runs of the entire-leaf classifier *)

Section RunMore.
Import Torch Checkpoint.

(** Invariants of the epoch loop. *)
Lemma run_loop_ind {S : Type} (body : S -> nat -> py S) (P : S -> Prop) :
  (forall st e st', body st e = Ret st' -> P st -> P st') ->
  forall l st0 st o, run_loop body l st0 = (st, o) -> P st0 -> P st.
Proof.
  intros Hbody l; induction l as [|e l IH]; intros st0 st o; simpl.
  - intros [= <- _]. auto.
  - destruct (body st0 e) as [st1|] eqn:E.
    + intros H P0. eapply IH; eauto.
    + intros [= <- _]. auto.
Qed.

(** The epochs a run completes are the first ones of its range, and each
    of them got through the loop body. *)
Lemma run_loop_completed {S : Type} (body : S -> nat -> py S)
    (count : S -> nat) (Q : nat -> Prop) :
  (forall st e st',
      body st e = Ret st' -> count st' = Datatypes.S (count st) /\ Q e) ->
  forall n st0 st o,
    run_loop body (seq (count st0) n) st0 = (st, o) ->
    (forall e, (count st0 <= e < count st)%nat -> Q e)
    /\ (count st <= count st0 + n)%nat
    /\ (o = None -> count st = (count st0 + n)%nat)
    /\ (o <> None -> (count st < count st0 + n)%nat).
Proof.
  intros Hbody n; induction n as [|n IH]; intros st0 st o; simpl.
  - intros [= <- <-]. repeat split; try lia; congruence.
  - destruct (body st0 (count st0)) as [st1|ex] eqn:E.
    + destruct (Hbody _ _ _ E) as [Hc Hq]. rewrite <- Hc. intros H.
      destruct (IH _ _ _ H) as (I1 & I2 & I3 & I4).
      split; [|split; [lia|split]].
      * intros e He. destruct (Nat.eq_dec e (count st0)) as [->|Hne];
          [exact Hq|]. apply I1. lia.
      * intros Ho. specialize (I3 Ho). lia.
      * intros Ho. specialize (I4 Ho). lia.
    + intros [= <- <-]. repeat split; try lia; try congruence.
Qed.

Section WithBackend.
Context {B : Backend}.

Lemma entire_leaf_body_full (opt : Options) (cuda : bool)
    (train_loader val_loader : EntireLeafClf.Loader)
    (st st' : EntireLeafClf.Run) (e : nat) :
  EntireLeafClf.epoch_body opt cuda train_loader val_loader st e = Ret st' ->
  exists t vm lr',
    EntireLeafClf.train opt cuda train_loader (EntireLeafClf.trainer st)
      (EntireLeafClf.criterion_train opt) (data_augmentation opt) = Ret t
    /\ EntireLeafClf.validation opt cuda val_loader (net (fst t))
         EntireLeafClf.criterion_val = Ret vm
    /\ LearningRate.adjust_learning_rate (lrs (optim (fst t))) (Z.of_nat e)
         opt = Ret lr'
    /\ EntireLeafClf.record st'
       = EntireLeafClf.append_metrics (EntireLeafClf.record st) (snd t) vm
    /\ EntireLeafClf.log_file st' = Some (EntireLeafClf.record st')
    /\ lrs (optim (EntireLeafClf.trainer st')) = lr'
    /\ ((EntireLeafClf.saved st' = EntireLeafClf.saved st ++ [e]
         /\ EntireLeafClf.checkpoint st'
            = Some (net (EntireLeafClf.trainer st')))
        \/ (EntireLeafClf.saved st' = EntireLeafClf.saved st
            /\ EntireLeafClf.checkpoint st' = EntireLeafClf.checkpoint st)).
Proof.
  unfold EntireLeafClf.epoch_body.
  destruct (EntireLeafClf.train _ _ _ _ _ _) as [t|] eqn:Et; [|discriminate].
  unfold Py.bind at 1.
  destruct (EntireLeafClf.validation _ _ _ _ _) as [vm|] eqn:Ev;
    [|discriminate].
  unfold Py.bind at 1.
  destruct (LearningRate.adjust_learning_rate _ _ _) as [lr'|] eqn:El;
    [|discriminate].
  unfold Py.bind. intros H. exists t, vm, lr'.
  split; [reflexivity|]. split; [exact Ev|]. split; [exact El|].
  destruct (improves _ _ _); injection H as <-; simpl;
    repeat (split; [reflexivity|]); [left|right]; split; reflexivity.
Qed.

(** X16. The record of a run, completed or stopped by an exception: its six
    sequences have one entry per completed epoch, at most the configured
    number of epochs and exactly that many when the run completes; its
    hyperparameters are those of the configuration; and the log on disk
    is the record itself as soon as one epoch has completed. *)
Theorem run_training_record (opt : Options) (cuda : bool)
    (train_loader val_loader : EntireLeafClf.Loader) (m : Model) (r : Rng)
    (st : EntireLeafClf.Run) (o : option exn) :
  EntireLeafClf.run_training opt cuda train_loader val_loader m r = (st, o) ->
  length (EntireLeafClf.train_loss (EntireLeafClf.record st))
  = length (EntireLeafClf.val_loss (EntireLeafClf.record st))
  /\ length (EntireLeafClf.train_dis_acc (EntireLeafClf.record st))
     = length (EntireLeafClf.val_loss (EntireLeafClf.record st))
  /\ length (EntireLeafClf.val_dis_acc (EntireLeafClf.record st))
     = length (EntireLeafClf.val_loss (EntireLeafClf.record st))
  /\ length (EntireLeafClf.train_sev_acc (EntireLeafClf.record st))
     = length (EntireLeafClf.val_loss (EntireLeafClf.record st))
  /\ length (EntireLeafClf.val_sev_acc (EntireLeafClf.record st))
     = length (EntireLeafClf.val_loss (EntireLeafClf.record st))
  /\ (length (EntireLeafClf.val_loss (EntireLeafClf.record st))
      <= Z.to_nat (epochs opt))%nat
  /\ (o = None ->
      length (EntireLeafClf.val_loss (EntireLeafClf.record st))
      = Z.to_nat (epochs opt))
  /\ EntireLeafClf.r_model (EntireLeafClf.record st) = model opt
  /\ EntireLeafClf.r_batch_size (EntireLeafClf.record st) = batch_size opt
  /\ EntireLeafClf.r_weight_decay (EntireLeafClf.record st) = weight_decay opt
  /\ EntireLeafClf.r_optimizer (EntireLeafClf.record st) = optimizer opt
  /\ EntireLeafClf.r_pretrained (EntireLeafClf.record st) = pretrained opt
  /\ EntireLeafClf.r_data_augmentation (EntireLeafClf.record st)
     = data_augmentation opt
  /\ EntireLeafClf.r_epochs (EntireLeafClf.record st) = epochs opt
  /\ EntireLeafClf.log_file st
     = match EntireLeafClf.val_loss (EntireLeafClf.record st) with
       | [] => None
       | _ => Some (EntireLeafClf.record st)
       end.
Proof.
  intros H.
  pose proof H as H'. unfold EntireLeafClf.run_training,
    EntireLeafClf.run_epochs in H'.
  destruct (run_loop_completed
              (EntireLeafClf.epoch_body opt cuda train_loader val_loader)
              (fun s => length (EntireLeafClf.val_loss (EntireLeafClf.record s)))
              (fun _ => True)
              ltac:(intros s e s' E;
                    destruct (entire_leaf_body_full _ _ _ _ _ _ _ E)
                      as (t & vm & lr' & _ & _ & _ & Hr & _);
                    rewrite Hr; simpl; rewrite length_app; simpl; split;
                    [lia|exact I])
              (Z.to_nat (epochs opt)) (EntireLeafClf.start opt m r) st o H')
    as (_ & Hle & Hnone & _).
  simpl in Hle, Hnone.
  pose proof (run_loop_ind
                (EntireLeafClf.epoch_body opt cuda train_loader val_loader)
                (fun s =>
                   let rc := EntireLeafClf.record s in
                   let k := length (EntireLeafClf.val_loss rc) in
                   length (EntireLeafClf.train_loss rc) = k
                   /\ length (EntireLeafClf.train_dis_acc rc) = k
                   /\ length (EntireLeafClf.val_dis_acc rc) = k
                   /\ length (EntireLeafClf.train_sev_acc rc) = k
                   /\ length (EntireLeafClf.val_sev_acc rc) = k
                   /\ EntireLeafClf.r_model rc = model opt
                   /\ EntireLeafClf.r_batch_size rc = batch_size opt
                   /\ EntireLeafClf.r_weight_decay rc = weight_decay opt
                   /\ EntireLeafClf.r_optimizer rc = optimizer opt
                   /\ EntireLeafClf.r_pretrained rc = pretrained opt
                   /\ EntireLeafClf.r_data_augmentation rc
                      = data_augmentation opt
                   /\ EntireLeafClf.r_epochs rc = epochs opt
                   /\ EntireLeafClf.log_file s
                      = match EntireLeafClf.val_loss rc with
                        | [] => None
                        | _ => Some rc
                        end)) as Hind.
  cbv zeta in Hind.
  destruct (Hind
              ltac:(intros s e s' E P;
                    destruct (entire_leaf_body_full _ _ _ _ _ _ _ E)
                      as (t & vm & lr' & _ & _ & _ & Hr & Hlog & _);
                    rewrite Hlog, Hr; simpl; rewrite !length_app; simpl;
                    destruct P as (P1 & P2 & P3 & P4 & P5 & P6 & P7 & P8
                                   & P9 & P10 & P11 & P12 & _);
                    repeat (split; [congruence|]);
                    destruct (EntireLeafClf.val_loss (EntireLeafClf.record s));
                    reflexivity)
              _ _ _ _ H'
              ltac:(simpl; repeat (split; [reflexivity|]); reflexivity))
    as (P1 & P2 & P3 & P4 & P5 & P6 & P7 & P8 & P9 & P10 & P11 & P12 & P13).
  repeat (split; [assumption|]). exact P13.
Qed.

End WithBackend.

Lemma run_training_record_witness :
  length (EntireLeafClf.train_loss (EntireLeafClf.record (fst (Toy.leaf_run 2))))
  = length (EntireLeafClf.val_loss (EntireLeafClf.record (fst (Toy.leaf_run 2)))).
Proof.
  unfold Toy.leaf_run.
  exact (proj1 (run_training_record (B := Toy.backend) Toy.leaf_config true
                  Toy.leaf_loader Toy.leaf_loader 2 O _ _
                  (surjective_pairing _))).
Defined.

End RunMore.

Section CheckpointMore.
Import Torch Checkpoint.

Lemma seq_strongly_sorted (a n : nat) : StronglySorted lt (seq a n).
Proof.
  revert a; induction n as [|n IH]; intros a; simpl; constructor.
  - apply IH.
  - apply Forall_forall. intros x Hx. apply in_seq in Hx. lia.
Qed.

Lemma filter_strongly_sorted {A : Type} (R : A -> A -> Prop)
    (f : A -> bool) (l : list A) :
  StronglySorted R l -> StronglySorted R (filter f l).
Proof.
  induction 1 as [|x l Hl IH Hx]; simpl; [constructor|].
  destruct (f x); [|assumption].
  constructor; [assumption|].
  apply Forall_forall. intros y Hy. apply filter_In in Hy.
  rewrite Forall_forall in Hx. now apply Hx.
Qed.

Lemma expected_saves_short (ls : list Q) :
  (length ls <= 5)%nat -> expected_saves ls = [].
Proof.
  intros H. destruct (expected_saves ls) as [|e l] eqn:E; [reflexivity|].
  assert (Hin : In e (expected_saves ls)) by (rewrite E; now left).
  apply expected_saves_warm in Hin. lia.
Qed.

Lemma keep_min_le_r (a x : Q) : keep_min a x <= x.
Proof.
  unfold keep_min. destruct (Num.Qlt_bool x a) eqn:E; [apply Qle_refl|].
  apply Qnot_lt_le. intros H. apply Qlt_bool_iff in H. congruence.
Qed.

Lemma fold_keep_min_lower (l : list Q) (a x : Q) :
  In x l -> fold_left keep_min l a <= x.
Proof.
  revert a; induction l as [|y l IH]; intros a; simpl; [contradiction|].
  intros [->|Hin].
  - apply Qle_trans with (keep_min a x);
      [apply fold_keep_min_le|apply keep_min_le_r].
  - now apply IH.
Qed.

Lemma best_after_lower (ls : list Q) (e : nat) :
  (5 <= e < length ls)%nat -> best_after ls <= nth e ls 0.
Proof.
  intros He. unfold best_after. apply fold_keep_min_lower.
  rewrite <- (firstn_skipn 5 ls) at 1.
  rewrite app_nth2; rewrite length_firstn, Nat.min_l by lia; [|lia].
  apply nth_In. rewrite length_skipn. lia.
Qed.

Section WithBackend.
Context {B : Backend}.

(** The completed epochs of a run: they are counted by the recorded
    validation losses, and the learning-rate adjustment of each of them
    returned. *)
Lemma entire_leaf_completed (opt : Options) (cuda : bool)
    (train_loader val_loader : EntireLeafClf.Loader) (m : Model) (r : Rng)
    (st : EntireLeafClf.Run) (o : option exn) :
  EntireLeafClf.run_training opt cuda train_loader val_loader m r = (st, o) ->
  (forall e,
      (e < length (EntireLeafClf.val_loss (EntireLeafClf.record st)))%nat ->
      exists lr lr',
        LearningRate.adjust_learning_rate lr (Z.of_nat e) opt = Ret lr')
  /\ (length (EntireLeafClf.val_loss (EntireLeafClf.record st))
      <= Z.to_nat (epochs opt))%nat
  /\ (o = None ->
      length (EntireLeafClf.val_loss (EntireLeafClf.record st))
      = Z.to_nat (epochs opt))
  /\ (o <> None ->
      (length (EntireLeafClf.val_loss (EntireLeafClf.record st))
       < Z.to_nat (epochs opt))%nat).
Proof.
  unfold EntireLeafClf.run_training, EntireLeafClf.run_epochs. intros H.
  destruct (run_loop_completed
              (EntireLeafClf.epoch_body opt cuda train_loader val_loader)
              (fun s => length (EntireLeafClf.val_loss (EntireLeafClf.record s)))
              (fun e => exists lr lr',
                   LearningRate.adjust_learning_rate lr (Z.of_nat e) opt
                   = Ret lr')
              ltac:(intros s e s' E;
                    destruct (entire_leaf_body_full _ _ _ _ _ _ _ E)
                      as (t & vm & lr' & _ & _ & Hl & Hr & _);
                    rewrite Hr; simpl; rewrite length_app; simpl; split;
                    [lia|eauto])
              (Z.to_nat (epochs opt)) (EntireLeafClf.start opt m r) st o H)
    as (H1 & H2 & H3 & H4).
  simpl in H1, H2, H3, H4.
  split; [|split; [|split]]; auto.
  intros e He. apply H1. lia.
Qed.

Lemma entire_leaf_checkpoint_iff (opt : Options) (cuda : bool)
    (train_loader val_loader : EntireLeafClf.Loader) (m : Model) (r : Rng)
    (st : EntireLeafClf.Run) (o : option exn) :
  EntireLeafClf.run_training opt cuda train_loader val_loader m r = (st, o) ->
  (EntireLeafClf.checkpoint st = None <-> EntireLeafClf.saved st = []).
Proof.
  unfold EntireLeafClf.run_training, EntireLeafClf.run_epochs. intros H.
  refine (run_loop_ind _
            (fun s => EntireLeafClf.checkpoint s = None
                      <-> EntireLeafClf.saved s = [])
            _ _ _ _ _ H _).
  - intros s e s' E P.
    destruct (entire_leaf_body_full _ _ _ _ _ _ _ E)
      as (t & vm & lr' & _ & _ & _ & _ & _ & _ & [[Hsv Hck]|[Hsv Hck]]).
    + rewrite Hsv, Hck. split; [discriminate|].
      intros Hnil. destruct (EntireLeafClf.saved s); discriminate.
    + now rewrite Hsv, Hck.
  - simpl. tauto.
Qed.

(** X17. The checkpoint of a run, completed or stopped by an exception: the
    file exists exactly when some epoch wrote it; the writing epochs are
    strictly increasing, none is below the warm-up index 5 and none past
    the completed epochs; and a run configured for at most five epochs
    never writes it. *)
Theorem run_training_checkpoint (opt : Options) (cuda : bool)
    (train_loader val_loader : EntireLeafClf.Loader) (m : Model) (r : Rng)
    (st : EntireLeafClf.Run) (o : option exn) :
  EntireLeafClf.run_training opt cuda train_loader val_loader m r = (st, o) ->
  (EntireLeafClf.checkpoint st = None <-> EntireLeafClf.saved st = [])
  /\ StronglySorted lt (EntireLeafClf.saved st)
  /\ (forall e, In e (EntireLeafClf.saved st) ->
                (5 <= e < length (EntireLeafClf.val_loss
                                    (EntireLeafClf.record st)))%nat)
  /\ ((epochs opt <= 5)%Z -> EntireLeafClf.checkpoint st = None).
Proof.
  intros H.
  destruct (entire_leaf_run_follows _ _ _ _ _ _ _ _ H) as (_ & Hs & _).
  destruct (entire_leaf_completed _ _ _ _ _ _ _ _ H) as (_ & Hle & _).
  pose proof (entire_leaf_checkpoint_iff _ _ _ _ _ _ _ _ H) as Hiff.
  split; [exact Hiff|]. split; [|split].
  - rewrite Hs. unfold expected_saves.
    apply filter_strongly_sorted, seq_strongly_sorted.
  - intros e He. rewrite Hs in He. apply expected_saves_warm in He. lia.
  - intros Hep. apply Hiff. rewrite Hs. apply expected_saves_short. lia.
Qed.

(** X18. [best_loss] at the end of a run is the least of the sentinel 1000 and
    the validation losses recorded from epoch 5 on: it is below each of
    them, and it is one of them. *)
Theorem run_training_best_loss (opt : Options) (cuda : bool)
    (train_loader val_loader : EntireLeafClf.Loader) (m : Model) (r : Rng)
    (st : EntireLeafClf.Run) (o : option exn) :
  EntireLeafClf.run_training opt cuda train_loader val_loader m r = (st, o) ->
  EntireLeafClf.best_loss st <= 1000
  /\ (forall e,
        (5 <= e < length (EntireLeafClf.val_loss (EntireLeafClf.record st)))%nat ->
        EntireLeafClf.best_loss st
        <= nth e (EntireLeafClf.val_loss (EntireLeafClf.record st)) 0)
  /\ (EntireLeafClf.best_loss st = 1000
      \/ exists e,
           (5 <= e < length (EntireLeafClf.val_loss
                               (EntireLeafClf.record st)))%nat
           /\ EntireLeafClf.best_loss st
              = nth e (EntireLeafClf.val_loss (EntireLeafClf.record st)) 0).
Proof.
  intros H.
  destruct (entire_leaf_run_follows _ _ _ _ _ _ _ _ H) as (Hb & _ & _).
  rewrite Hb. split; [apply best_after_le|]. split.
  - intros e He. now apply best_after_lower.
  - set (ls := EntireLeafClf.val_loss (EntireLeafClf.record st)).
    unfold best_after.
    destruct (fold_keep_min_choice (skipn 5 ls) initial_best_loss)
      as [E|Hin]; [now left|right].
    destruct (In_nth _ _ 0 Hin) as (j & Hj & Ej).
    rewrite length_skipn in Hj.
    exists (5 + j)%nat. split; [lia|].
    rewrite <- Ej. rewrite nth_skipn. reflexivity.
Qed.

(** X19. An SGD run whose epoch count leaves remainder 1 or 2 modulo 5 never
    completes: the learning-rate adjustment stops it by epoch
    [5 * (epochs / 5)] at the latest, and with fewer than 10 epochs it
    stops before any checkpoint is written. *)
Theorem sgd_run_stops (opt : Options) (cuda : bool)
    (train_loader val_loader : EntireLeafClf.Loader) (m : Model) (r : Rng)
    (st : EntireLeafClf.Run) (o : option exn) :
  optimizer opt = "sgd"%string ->
  (1 <= epochs opt)%Z ->
  (epochs opt mod 5 = 1 \/ epochs opt mod 5 = 2)%Z ->
  EntireLeafClf.run_training opt cuda train_loader val_loader m r = (st, o) ->
  o <> None
  /\ (Z.of_nat (length (EntireLeafClf.val_loss (EntireLeafClf.record st)))
      <= 5 * (epochs opt / 5))%Z
  /\ ((epochs opt < 10)%Z -> EntireLeafClf.checkpoint st = None).
Proof.
  intros Ho Hn Hmod H.
  destruct (entire_leaf_completed _ _ _ _ _ _ _ _ H) as (Hq & Hle & Hnone & _).
  destruct (entire_leaf_run_follows _ _ _ _ _ _ _ _ H) as (_ & Hs & _).
  pose proof (entire_leaf_checkpoint_iff _ _ _ _ _ _ _ _ H) as Hiff.
  set (k := length (EntireLeafClf.val_loss (EntireLeafClf.record st))) in *.
  pose proof (Z.div_mod (epochs opt) 5 ltac:(lia)) as Hd.
  assert (Hstep : LearningRate.lr_step (epochs opt) = (epochs opt / 5)%Z).
  { rewrite lr_step_spec. symmetry.
    apply Z.div_unique with (r := (2 * (epochs opt mod 5) + 5)%Z); lia. }
  assert (Hdiv : (0 <= epochs opt / 5)%Z) by (apply Z.div_pos; lia).
  assert (Hk : (Z.of_nat k <= 5 * (epochs opt / 5))%Z).
  { destruct (Z.le_gt_cases (Z.of_nat k) (5 * (epochs opt / 5)))
      as [Hok|Hbad]; [exact Hok|exfalso].
    destruct (Hq (Z.to_nat (5 * (epochs opt / 5)))) as (lr & lr' & Hr);
      [lia|].
    pose proof (adjust_learning_rate_raises lr
                  (Z.of_nat (Z.to_nat (5 * (epochs opt / 5)))) opt Ho
                  ltac:(lia) ltac:(lia)) as R.
    rewrite Hr, Hstep in R. simpl raises in R. symmetry in R.
    apply orb_false_iff in R. destruct R as [_ R].
    apply Z.leb_gt in R. lia. }
  split; [|split; [exact Hk|]].
  - intros ->. specialize (Hnone eq_refl). lia.
  - intros Hlt. apply Hiff. rewrite Hs. apply expected_saves_short.
    fold k. assert (epochs opt / 5 < 2)%Z by (apply Z.div_lt_upper_bound; lia).
    lia.
Qed.

End WithBackend.

Lemma run_training_checkpoint_witness :
  StronglySorted lt (EntireLeafClf.saved (fst (Toy.leaf_run 2))).
Proof.
  unfold Toy.leaf_run.
  exact (proj1 (proj2 (run_training_checkpoint (B := Toy.backend)
                         Toy.leaf_config true Toy.leaf_loader Toy.leaf_loader
                         2 O _ _ (surjective_pairing _)))).
Defined.

Lemma run_training_best_loss_witness :
  EntireLeafClf.best_loss (fst (Toy.leaf_run 2)) <= 1000.
Proof.
  unfold Toy.leaf_run.
  exact (proj1 (run_training_best_loss (B := Toy.backend)
                  Toy.leaf_config true Toy.leaf_loader Toy.leaf_loader
                  2 O _ _ (surjective_pairing _))).
Defined.

Lemma sgd_run_stops_witness :
  snd (EntireLeafClf.run_training (B := Toy.backend)
         (Toy.config "sgd" 7 "standard" "multitask") true Toy.leaf_loader
         Toy.leaf_loader 2 O) <> None
  /\ EntireLeafClf.checkpoint
       (fst (EntireLeafClf.run_training (B := Toy.backend)
               (Toy.config "sgd" 7 "standard" "multitask") true
               Toy.leaf_loader Toy.leaf_loader 2 O)) = None.
Proof.
  destruct (sgd_run_stops (B := Toy.backend)
              (Toy.config "sgd" 7 "standard" "multitask") true
              Toy.leaf_loader Toy.leaf_loader 2 O _ _ eq_refl
              ltac:(simpl; lia) (or_intror eq_refl) (surjective_pairing _))
    as (H1 & _ & H2).
  split; [exact H1|]. apply H2. simpl. lia.
Defined.

End CheckpointMore.

Section RateInForce.
Import Torch Checkpoint.

(** Invariants of the epoch loop that depend on the epoch index. *)
Lemma run_loop_counted {S : Type} (body : S -> nat -> py S)
    (count : S -> nat) (P : S -> Prop) :
  (forall st st',
      body st (count st) = Ret st' -> P st ->
      count st' = Datatypes.S (count st) /\ P st') ->
  forall n st0 st o,
    run_loop body (seq (count st0) n) st0 = (st, o) -> P st0 -> P st.
Proof.
  intros Hbody n; induction n as [|n IH]; intros st0 st o; simpl.
  - intros [= <- _]. auto.
  - destruct (body st0 (count st0)) as [st1|] eqn:E.
    + intros H P0. destruct (Hbody _ _ E P0) as [Hc P1].
      rewrite <- Hc in H. eapply IH; eauto.
    + intros [= <- _]. auto.
Qed.

Section WithBackend.
Context {B : Backend}.

Lemma for_each_train_lrs (opt : Options) (cuda : bool)
    (criterion : Criterion) (aug : string) (bs : list EntireLeafClf.Batch)
    (tr tr' : Trainer) (m m' : EntireLeafClf.Metrics) :
  for_each (EntireLeafClf.train_step opt cuda criterion aug) bs (tr, m)
  = Ret (tr', m') ->
  lrs (optim tr') = lrs (optim tr).
Proof.
  revert tr m; induction bs as [|b bs IH]; intros tr m; simpl.
  - now intros [= <- _].
  - destruct (EntireLeafClf.train_step opt cuda criterion aug (tr, m) b)
      as [[tr1 m1]|] eqn:E; [|discriminate].
    unfold Py.bind. intros H. rewrite (IH _ _ H).
    destruct (train_step_Ret _ _ _ _ _ _ _ _ _ E) as (_ & _ & Ho & _).
    rewrite Ho. reflexivity.
Qed.

(** A training pass leaves the learning rates of the optimizer as they
    were. *)
Lemma train_keeps_lrs (opt : Options) (cuda : bool)
    (train_loader : EntireLeafClf.Loader) (tr : Trainer)
    (criterion : Criterion) (aug : string)
    (t : Trainer * EntireLeafClf.Metrics) :
  EntireLeafClf.train opt cuda train_loader tr criterion aug = Ret t ->
  lrs (optim (fst t)) = lrs (optim tr).
Proof.
  unfold EntireLeafClf.train.
  destruct (for_each _ _ _) as [[tr1 m1]|] eqn:E; [|discriminate].
  unfold Py.bind at 1. cbn [fst snd].
  destruct (EntireLeafClf.finish _ _); [|discriminate].
  unfold Py.bind. intros [= <-]. cbn [fst].
  eapply for_each_train_lrs; eauto.
Qed.

(** X20. The learning rate in force in an SGD run: the rate is adjusted after
    the training pass of an epoch, so epoch 0 trains at the initial rate
    0.01, and after [k >= 1] completed epochs the single parameter group
    holds the table entry of epoch [k - 1]. *)
Theorem sgd_rate_in_force (opt : Options) (cuda : bool)
    (train_loader val_loader : EntireLeafClf.Loader) (m : Model) (r : Rng)
    (st : EntireLeafClf.Run) (o : option exn) :
  optimizer opt = "sgd"%string ->
  EntireLeafClf.run_training opt cuda train_loader val_loader m r = (st, o) ->
  LearningRate.param_groups (lrs (optim (EntireLeafClf.trainer st)))
  = match length (EntireLeafClf.val_loss (EntireLeafClf.record st)) with
    | O => [1 # 100]
    | Datatypes.S e =>
        [nth (Z.to_nat (Z.of_nat e / LearningRate.lr_step (epochs opt)))
           LearningRate.lr_values 0]
    end.
Proof.
  intros Ho H.
  unfold EntireLeafClf.run_training, EntireLeafClf.run_epochs in H.
  destruct (Z.le_gt_cases (epochs opt) 0) as [Hn|Hn].
  { replace (Z.to_nat (epochs opt)) with 0%nat in H by lia.
    simpl in H. injection H as <- _. simpl.
    unfold EntireLeafClf.new_optimizer. rewrite Ho. reflexivity. }
  refine (run_loop_counted
            (EntireLeafClf.epoch_body opt cuda train_loader val_loader)
            (fun s => length (EntireLeafClf.val_loss (EntireLeafClf.record s)))
            (fun s =>
               LearningRate.param_groups
                 (lrs (optim (EntireLeafClf.trainer s)))
               = match length (EntireLeafClf.val_loss
                                 (EntireLeafClf.record s)) with
                 | O => [1 # 100]
                 | Datatypes.S e =>
                     [nth (Z.to_nat
                             (Z.of_nat e / LearningRate.lr_step (epochs opt)))
                        LearningRate.lr_values 0]
                 end)
            _ (Z.to_nat (epochs opt)) (EntireLeafClf.start opt m r) st o H _).
  - intros s s' E P.
    destruct (entire_leaf_body_full _ _ _ _ _ _ _ E)
      as (t & vm & lr' & Ht & _ & Hl & Hr & _ & Hlr & _).
    rewrite Hr. simpl EntireLeafClf.val_loss. rewrite length_app.
    simpl length. rewrite Nat.add_1_r. split; [reflexivity|].
    rewrite Hlr.
    destruct (adjust_learning_rate_sgd_Ret _ _ _ _ Ho
                (Nat2Z.is_nonneg _) ltac:(lia) Hl) as (_ & _ & G).
    rewrite G, (train_keeps_lrs _ _ _ _ _ _ _ Ht), P.
    destruct (length (EntireLeafClf.val_loss (EntireLeafClf.record s)));
      reflexivity.
  - simpl. unfold EntireLeafClf.new_optimizer. rewrite Ho. reflexivity.
Qed.

End WithBackend.

Lemma sgd_rate_in_force_witness :
  LearningRate.param_groups
    (lrs (optim (EntireLeafClf.trainer (fst (Toy.leaf_run 2)))))
  = match
      length (EntireLeafClf.val_loss
                (EntireLeafClf.record (fst (Toy.leaf_run 2))))
    with
    | O => [1 # 100]
    | Datatypes.S e =>
        [nth (Z.to_nat (Z.of_nat e / LearningRate.lr_step 10))
           LearningRate.lr_values 0]
    end.
Proof.
  unfold Toy.leaf_run.
  exact (sgd_rate_in_force (B := Toy.backend) Toy.leaf_config true
           Toy.leaf_loader Toy.leaf_loader 2 O _ _ eq_refl
           (surjective_pairing _)).
Defined.

End RateInForce.

(** ** Parameter count *)

Section ParameterCount.
Import Evaluation.

Lemma fold_mul_acc (p : list Z) (a : Z) :
  fold_left (fun nn s => (nn * s)%Z) p a
  = (a * fold_right Z.mul 1 p)%Z.
Proof.
  revert a; induction p as [|s p IH]; intros a; simpl; [lia|].
  rewrite IH. lia.
Qed.

Lemma get_n_params_acc (ps : list (list Z)) (a : Z) :
  fold_left
    (fun pp p => (pp + fold_left (fun nn s => (nn * s)%Z) p 1)%Z) ps a
  = (a + fold_right Z.add 0 (map (fold_right Z.mul 1) ps))%Z.
Proof.
  revert a; induction ps as [|p ps IH]; intros a; simpl; [lia|].
  rewrite IH, fold_mul_acc. lia.
Qed.

(** X21. [get_n_params] is the sum over the parameters of the product of their
    dimensions: it adds up over a model made of two parts, a parameter
    with a dimension 0 counts for nothing, and the count is never
    negative when no dimension is. *)
Theorem get_n_params_sum (ps qs : list (list Z)) :
  get_n_params ps = fold_right Z.add 0%Z (map (fold_right Z.mul 1%Z) ps)
  /\ get_n_params (ps ++ qs) = (get_n_params ps + get_n_params qs)%Z
  /\ (forall p, In 0%Z p -> get_n_params (p :: ps) = get_n_params ps)
  /\ ((forall p s, In p ps -> In s p -> (0 <= s)%Z) ->
      (0 <= get_n_params ps)%Z).
Proof.
  assert (E : forall l, get_n_params l
                        = fold_right Z.add 0%Z (map (fold_right Z.mul 1%Z) l)).
  { intros l. unfold get_n_params. rewrite get_n_params_acc. lia. }
  split; [apply E|]. split; [|split].
  - rewrite !E, map_app, fold_right_app.
    generalize (map (fold_right Z.mul 1%Z) ps). intros l.
    induction l as [|x l IH]; simpl; lia.
  - intros p Hp. rewrite !E. simpl.
    assert (Hz : fold_right Z.mul 1%Z p = 0%Z).
    { induction p as [|s p IH]; [contradiction|]. simpl.
      destruct Hp as [->|Hp]; [lia|]. rewrite (IH Hp). lia. }
    rewrite Hz. lia.
  - intros Hnn. rewrite E.
    induction ps as [|p ps IH]; simpl; [lia|].
    assert (0 <= fold_right Z.mul 1 p)%Z.
    { assert (Hp : forall s, In s p -> (0 <= s)%Z)
        by (intros s Hs; apply (Hnn p s); [now left|exact Hs]).
      clear -Hp. induction p as [|s p IH]; simpl; [lia|].
      apply Z.mul_nonneg_nonneg; [apply Hp; now left|].
      apply IH. intros x Hx. apply Hp. now right. }
    assert (0 <= fold_right Z.add 0 (map (fold_right Z.mul 1) ps))%Z
      by (apply IH; intros q s Hq Hs; apply (Hnn q s); [now right|exact Hs]).
    lia.
Qed.

Lemma get_n_params_sum_witness :
  get_n_params [[64; 3; 7; 7]; [64]; [5; 0]]%Z
  = get_n_params [[64; 3; 7; 7]; [64]]%Z.
Proof.
  destruct (get_n_params_sum [[64; 3; 7; 7]; [64]]%Z []) as (_ & H & _).
  destruct (get_n_params_sum [[64; 3; 7; 7]; [64]]%Z [[5; 0]]%Z)
    as (_ & Happ & _).
  destruct (get_n_params_sum [] []) as (_ & _ & Hz & _).
  change ([[64; 3; 7; 7]; [64]; [5; 0]]%Z)
    with ([[64; 3; 7; 7]; [64]]%Z ++ [[5; 0]]%Z).
  rewrite Happ, (Hz [5; 0]%Z) by (simpl; auto). reflexivity.
Defined.

End ParameterCount.

(** ** Runs of the lesion-spot classifier *)

Section LesionRun.
Import Torch Checkpoint.

Section WithBackend.
Context {B : Backend}.

Lemma lesion_spot_body_full (opt : Options) (cuda : bool)
    (train_loader val_loader : LesionSpotClf.Loader)
    (st st' : LesionSpotClf.Run) (e : nat) :
  LesionSpotClf.epoch_body opt cuda train_loader val_loader st e = Ret st' ->
  exists t vm lr',
    LesionSpotClf.train cuda train_loader (LesionSpotClf.trainer st)
      (LesionSpotClf.criterion_train opt) (data_augmentation opt) = Ret t
    /\ LearningRate.adjust_learning_rate (lrs (optim (fst t))) (Z.of_nat e)
         opt = Ret lr'
    /\ LesionSpotClf.record st'
       = LesionSpotClf.append_metrics (LesionSpotClf.record st) (snd t) vm
    /\ LesionSpotClf.log_file st' = Some (LesionSpotClf.record st')
    /\ lrs (optim (LesionSpotClf.trainer st')) = lr'
    /\ ((LesionSpotClf.saved st' = LesionSpotClf.saved st ++ [e]
         /\ LesionSpotClf.checkpoint st'
            = Some (net (LesionSpotClf.trainer st')))
        \/ (LesionSpotClf.saved st' = LesionSpotClf.saved st
            /\ LesionSpotClf.checkpoint st' = LesionSpotClf.checkpoint st)).
Proof.
  unfold LesionSpotClf.epoch_body.
  destruct (LesionSpotClf.train _ _ _ _ _) as [t|] eqn:Et; [|discriminate].
  unfold Py.bind at 1.
  destruct (LesionSpotClf.validation _ _ _) as [vm|]; [|discriminate].
  unfold Py.bind at 1.
  destruct (LearningRate.adjust_learning_rate _ _ _) as [lr'|] eqn:El;
    [|discriminate].
  unfold Py.bind. intros H.
  exists t, vm, lr'.
  split; [reflexivity|]. split; [exact El|].
  destruct (improves _ _ _); injection H as <-; simpl;
    repeat (split; [reflexivity|]); [left|right]; split; reflexivity.
Qed.

Lemma lesion_for_each_lrs (cuda : bool) (criterion : Criterion)
    (aug : string) (bs : list LesionSpotClf.Batch)
    (tr tr' : Trainer) (c c' : LesionSpotClf.Counters) :
  for_each (LesionSpotClf.train_step cuda criterion aug) bs (tr, c)
  = Ret (tr', c') ->
  lrs (optim tr') = lrs (optim tr).
Proof.
  revert tr c; induction bs as [|b bs IH]; intros tr c; simpl.
  - now intros [= <- _].
  - destruct (LesionSpotClf.train_step cuda criterion aug (tr, c) b)
      as [[tr1 c1]|] eqn:E; [|discriminate].
    unfold Py.bind. intros H. rewrite (IH _ _ H).
    unfold LesionSpotClf.train_step in E. cbn [fst snd] in E.
    match type of E with
    | Py.bind ?x _ = _ => destruct x; [|discriminate]
    end.
    unfold Py.bind at 1 in E.
    destruct (LesionSpotClf.percentage _ _); [|discriminate].
    unfold Py.bind in E. injection E as <- _. reflexivity.
Qed.

(** A training pass of the lesion-spot classifier leaves the learning
    rates of the optimizer as they were. *)
Lemma lesion_train_keeps_lrs (cuda : bool)
    (train_loader : LesionSpotClf.Loader) (tr : Trainer)
    (criterion : Criterion) (aug : string)
    (t : Trainer * LesionSpotClf.Metrics) :
  LesionSpotClf.train cuda train_loader tr criterion aug = Ret t ->
  lrs (optim (fst t)) = lrs (optim tr).
Proof.
  unfold LesionSpotClf.train.
  destruct (for_each _ _ _) as [[tr1 c1]|] eqn:E; [|discriminate].
  unfold Py.bind at 1. cbn [fst snd].
  destruct (LesionSpotClf.finish _ _); [|discriminate].
  unfold Py.bind. intros [= <-]. cbn [fst].
  eapply lesion_for_each_lrs; eauto.
Qed.

(** X22. A run of the lesion-spot classifier, completed or stopped by an
    exception: the four sequences of its record have one entry per
    completed epoch, at most the configured number; the log on disk is
    the record as soon as one epoch has completed; the checkpoint exists
    exactly when some epoch wrote it, the writing epochs are strictly
    increasing and none is below index 5; and [best_loss] is at most
    1000 and at most every validation loss recorded from epoch 5 on. *)
Theorem lesion_run_training_outcome (opt : Options) (cuda : bool)
    (train_loader val_loader : LesionSpotClf.Loader) (m : Model) (r : Rng)
    (st : LesionSpotClf.Run) (o : option exn) :
  LesionSpotClf.run_training opt cuda train_loader val_loader m r = (st, o) ->
  let rc := LesionSpotClf.record st in
  let k := length (LesionSpotClf.val_loss rc) in
  (length (LesionSpotClf.train_loss rc) = k
   /\ length (LesionSpotClf.train_acc rc) = k
   /\ length (LesionSpotClf.val_acc rc) = k)
  /\ ((k <= Z.to_nat (epochs opt))%nat
      /\ (o = None -> k = Z.to_nat (epochs opt)))
  /\ LesionSpotClf.log_file st
     = match LesionSpotClf.val_loss rc with
       | [] => None
       | _ => Some rc
       end
  /\ (LesionSpotClf.checkpoint st = None <-> LesionSpotClf.saved st = [])
  /\ StronglySorted lt (LesionSpotClf.saved st)
  /\ (forall e, In e (LesionSpotClf.saved st) -> (5 <= e < k)%nat)
  /\ LesionSpotClf.best_loss st <= 1000
  /\ (forall e, (5 <= e < k)%nat ->
                LesionSpotClf.best_loss st
                <= nth e (LesionSpotClf.val_loss rc) 0).
Proof.
  intros H rc k. subst rc k.
  destruct (lesion_spot_run_follows _ _ _ _ _ _ _ _ H) as (Hb & Hs & Hn).
  unfold LesionSpotClf.run_training, LesionSpotClf.run_epochs in H.
  destruct (run_loop_completed
              (LesionSpotClf.epoch_body opt cuda train_loader val_loader)
              (fun s => length (LesionSpotClf.val_loss (LesionSpotClf.record s)))
              (fun _ => True)
              ltac:(intros s e s' E;
                    destruct (lesion_spot_body_full _ _ _ _ _ _ _ E)
                      as (t & vm & lr' & _ & _ & Hr & _);
                    rewrite Hr; simpl; rewrite length_app; simpl; split;
                    [lia|exact I])
              (Z.to_nat (epochs opt)) (LesionSpotClf.start opt m r) st o H)
    as (_ & Hle & _).
  simpl in Hle.
  pose proof (run_loop_ind
                (LesionSpotClf.epoch_body opt cuda train_loader val_loader)
                (fun s =>
                   (length (LesionSpotClf.train_loss (LesionSpotClf.record s))
                    = length (LesionSpotClf.val_loss (LesionSpotClf.record s))
                    /\ length (LesionSpotClf.train_acc (LesionSpotClf.record s))
                       = length (LesionSpotClf.val_loss (LesionSpotClf.record s))
                    /\ length (LesionSpotClf.val_acc (LesionSpotClf.record s))
                       = length (LesionSpotClf.val_loss (LesionSpotClf.record s)))
                   /\ LesionSpotClf.log_file s
                      = match LesionSpotClf.val_loss (LesionSpotClf.record s) with
                        | [] => None
                        | _ => Some (LesionSpotClf.record s)
                        end
                   /\ (LesionSpotClf.checkpoint s = None
                       <-> LesionSpotClf.saved s = [])))
    as Hind.
  destruct (Hind
              ltac:(intros s e s' E P;
                    destruct (lesion_spot_body_full _ _ _ _ _ _ _ E)
                      as (t & vm & lr' & _ & _ & Hr & Hlog & _ & Hck);
                    destruct P as ((P1 & P2 & P3) & _ & P5);
                    split; [|split];
                    [rewrite Hr; simpl; rewrite !length_app; simpl;
                     repeat split; congruence
                    |rewrite Hlog, Hr; simpl;
                     destruct (LesionSpotClf.val_loss (LesionSpotClf.record s));
                     reflexivity
                    |destruct Hck as [[Hsv Hc]|[Hsv Hc]]; rewrite Hsv, Hc;
                     [split; [discriminate|];
                      intros Hnil; destruct (LesionSpotClf.saved s);
                      discriminate
                     |exact P5]])
              _ _ _ _ H
              ltac:(simpl; tauto))
    as (P1 & P2 & P3).
  split; [exact P1|]. split; [split; [exact Hle|exact Hn]|].
  split; [exact P2|]. split; [exact P3|].
  split; [|split; [|split]].
  - rewrite Hs. unfold expected_saves.
    apply filter_strongly_sorted, seq_strongly_sorted.
  - intros e He. rewrite Hs in He. apply expected_saves_warm in He. lia.
  - rewrite Hb. apply best_after_le.
  - intros e He. rewrite Hb. now apply best_after_lower.
Qed.

(** X23. With any optimizer other than SGD the schedule leaves the optimizer
    alone: throughout a run of the lesion-spot classifier the single
    parameter group keeps the initial Adam rate 0.001. *)
Theorem lesion_adam_rate_constant (opt : Options) (cuda : bool)
    (train_loader val_loader : LesionSpotClf.Loader) (m : Model) (r : Rng)
    (st : LesionSpotClf.Run) (o : option exn) :
  optimizer opt <> "sgd"%string ->
  LesionSpotClf.run_training opt cuda train_loader val_loader m r = (st, o) ->
  LearningRate.param_groups (lrs (optim (LesionSpotClf.trainer st)))
  = [1 # 1000].
Proof.
  intros Ho H. apply String.eqb_neq in Ho.
  unfold LesionSpotClf.run_training, LesionSpotClf.run_epochs in H.
  refine (run_loop_ind
            (LesionSpotClf.epoch_body opt cuda train_loader val_loader)
            (fun s => LearningRate.param_groups
                        (lrs (optim (LesionSpotClf.trainer s)))
                      = [1 # 1000])
            _ _ _ _ _ H _).
  - intros s e s' E P.
    destruct (lesion_spot_body_full _ _ _ _ _ _ _ E)
      as (t & vm & lr' & Ht & Hl & _ & _ & Hlr & _).
    rewrite Hlr. unfold LearningRate.adjust_learning_rate in Hl.
    rewrite Ho in Hl. injection Hl as <-.
    now rewrite (lesion_train_keeps_lrs _ _ _ _ _ _ Ht).
  - simpl. unfold LesionSpotClf.new_optimizer. rewrite Ho. reflexivity.
Qed.

End WithBackend.

Lemma lesion_run_training_outcome_witness :
  length (LesionSpotClf.train_acc (LesionSpotClf.record (fst (Toy.spot_run 2))))
  = length (LesionSpotClf.val_loss (LesionSpotClf.record (fst (Toy.spot_run 2)))).
Proof.
  unfold Toy.spot_run.
  exact (proj1 (proj2 (proj1
           (lesion_run_training_outcome (B := Toy.backend) Toy.leaf_config
              true Toy.spot_loader Toy.spot_loader 2 O _ _
              (surjective_pairing _))))).
Defined.

Lemma lesion_adam_rate_constant_witness :
  LearningRate.param_groups
    (lrs (optim (LesionSpotClf.trainer
                   (fst (LesionSpotClf.run_training (B := Toy.backend)
                           (Toy.config "adam" 10 "standard" "disease") true
                           Toy.spot_loader Toy.spot_loader 2 O)))))
  = [1 # 1000].
Proof.
  apply (lesion_adam_rate_constant (B := Toy.backend)
           (Toy.config "adam" 10 "standard" "disease") true
           Toy.spot_loader Toy.spot_loader 2 O _ _
           ltac:(discriminate) (surjective_pairing _)).
Defined.

End LesionRun.

(** ** Validation and test accuracy of the entire-leaf classifier *)

Section LeafAccuracy.
Import Torch.
Context {B : Backend}.

Lemma collect_leaf_from (m : Model) (bs : list EntireLeafClf.Batch)
    (acc : (list Z * list Z) * (list Z * list Z)) :
  fold_left
    (fun acc b =>
       let outputs := forward m false (EntireLeafClf.images b) in
       ((fst (fst acc) ++ argmax (fst outputs),
         snd (fst acc) ++ EntireLeafClf.labels_dis b),
        (fst (snd acc) ++ argmax (snd outputs),
         snd (snd acc) ++ EntireLeafClf.labels_sev b)))
    bs acc
  = ((fst (fst acc) ++ flat_map (EntireLeafClf.val_pred_dis m) bs,
      snd (fst acc) ++ flat_map EntireLeafClf.labels_dis bs),
     (fst (snd acc) ++ flat_map (EntireLeafClf.val_pred_sev m) bs,
      snd (snd acc) ++ flat_map EntireLeafClf.labels_sev bs)).
Proof.
  revert acc; induction bs as [|b bs IH]; intros [[a1 a2] [a3 a4]]; simpl.
  - now rewrite !app_nil_r.
  - rewrite IH. cbn [fst snd]. rewrite <- !app_assoc. reflexivity.
Qed.

(** A validation pass that returns on an accelerator compared, in every
    batch, predictions and labels of one length. *)
Lemma leaf_validation_lengths (opt : Options) (m : Model)
    (criterion : Criterion) (bs : list EntireLeafClf.Batch)
    (vm vm' : EntireLeafClf.Metrics) :
  for_each (EntireLeafClf.validation_step opt true m criterion) bs vm
  = Ret vm' ->
  forall b, In b bs ->
    length (EntireLeafClf.val_pred_dis m b)
    = length (EntireLeafClf.labels_dis b)
    /\ length (EntireLeafClf.val_pred_sev m b)
       = length (EntireLeafClf.labels_sev b).
Proof.
  revert vm; induction bs as [|b0 bs IH]; intros vm; simpl.
  - intros _ b [].
  - destruct (EntireLeafClf.validation_step opt true m criterion vm b0)
      as [vm1|] eqn:E; [|discriminate].
    unfold Py.bind. intros H b [<-|Hin]; [|exact (IH _ H b Hin)].
    destruct (validation_step_Ret _ _ _ _ _ _ _ E) as (_ & Hd & Hs).
    apply accumulate_on in Hd. destruct Hd as (qd & Hd & _).
    apply accumulate_on in Hs. destruct Hs as (qs & Hs & _).
    split.
    + destruct (Nat.eq_dec (length (EntireLeafClf.val_pred_dis m b0))
                  (length (EntireLeafClf.labels_dis b0))) as [L|L];
        [exact L|].
      unfold Metrics.eval_metrics in Hd. simpl in Hd.
      rewrite accuracy_score_mismatch in Hd by assumption. discriminate.
    + destruct (Nat.eq_dec (length (EntireLeafClf.val_pred_sev m b0))
                  (length (EntireLeafClf.labels_sev b0))) as [L|L];
        [exact L|].
      unfold Metrics.eval_metrics in Hs. simpl in Hs.
      rewrite accuracy_score_mismatch in Hs by assumption. discriminate.
Qed.

(** The size-weighted sum of the per-batch accuracies counts the right
    predictions of the concatenated vectors. *)
Lemma weighted_agree_sum (pred lbl : EntireLeafClf.Batch -> list Z)
    (bs : list EntireLeafClf.Batch) :
  (forall b, In b bs ->
     length (pred b) = length (lbl b)
     /\ batch_len (EntireLeafClf.images b) = length (lbl b)) ->
  Num.sum (map (fun b => Metrics.fraction_agree (pred b) (lbl b)
                         * EntireLeafClf.batch_size_of b) bs)
  == inject_Z (Z.of_nat (Metrics.agree (flat_map lbl bs) (flat_map pred bs)))
  /\ length (flat_map pred bs) = length (flat_map lbl bs)
  /\ list_sum (map (fun b => batch_len (EntireLeafClf.images b)) bs)
     = length (flat_map lbl bs).
Proof.
  induction bs as [|b bs IH]; intros H.
  - simpl. repeat split; reflexivity.
  - destruct (H b (or_introl eq_refl)) as [Hp Hn].
    destruct (IH (fun x Hx => H x (or_intror Hx))) as (I1 & I2 & I3).
    cbn [map flat_map list_sum]. rewrite !length_app.
    split; [|split; [lia|simpl; lia]].
    rewrite sum_cons, I1, (agree_app _ _ _ _ Hp), Nat2Z.inj_add, inject_Z_plus.
    apply Qplus_inj_r.
    unfold Metrics.fraction_agree, EntireLeafClf.batch_size_of, Num.len.
    rewrite <- agree_filter, Hn, <- Hp.
    destruct (pred b) as [|p ps] eqn:Ep.
    + destruct (lbl b); simpl; unfold Qdiv; ring.
    + assert (Hnz : ~ inject_Z (Z.of_nat (length (p :: ps))) == 0).
      { intros Hz. unfold Qeq in Hz. simpl in Hz. lia. }
      field. exact Hnz.
Qed.

(** X24. A validation pass of the entire-leaf classifier on an accelerator,
    over a loader whose dataset size is the total of its batch sizes and
    whose batches hold one label pair per image, reports for each head,
    as a percentage, the accuracy that [run_test] computes over the
    concatenated predictions and labels of the same batches. *)
Theorem leaf_validation_is_test_accuracy (opt : Options)
    (val_loader : EntireLeafClf.Loader) (m : Model) (criterion : Criterion)
    (vm : EntireLeafClf.Metrics) :
  EntireLeafClf.validation opt true val_loader m criterion = Ret vm ->
  EntireLeafClf.dataset val_loader
  = list_sum (map (fun b => batch_len (EntireLeafClf.images b))
                (EntireLeafClf.batches val_loader)) ->
  (forall b, In b (EntireLeafClf.batches val_loader) ->
     batch_len (EntireLeafClf.images b) = length (EntireLeafClf.labels_dis b)
     /\ batch_len (EntireLeafClf.images b)
        = length (EntireLeafClf.labels_sev b)) ->
  exists qd qs,
    Evaluation.test_accuracy_dis m (EntireLeafClf.batches val_loader) = Ret qd
    /\ Evaluation.test_accuracy_sev m (EntireLeafClf.batches val_loader)
       = Ret qs
    /\ EntireLeafClf.dis_acc vm == 100 * qd
    /\ EntireLeafClf.sev_acc vm == 100 * qs.
Proof.
  intros H Hd Hb.
  destruct (validation_size_weighted _ _ _ _ _ H) as (_ & Hda & Hsa).
  unfold EntireLeafClf.validation in H.
  destruct (for_each _ _ _) as [vm1|] eqn:E; [|discriminate].
  pose proof (leaf_validation_lengths _ _ _ _ _ _ E) as Hlen.
  destruct (weighted_agree_sum (EntireLeafClf.val_pred_dis m)
              EntireLeafClf.labels_dis (EntireLeafClf.batches val_loader))
    as (D1 & D2 & D3).
  { intros b Hin. split; [apply (Hlen b Hin)|apply (Hb b Hin)]. }
  destruct (weighted_agree_sum (EntireLeafClf.val_pred_sev m)
              EntireLeafClf.labels_sev (EntireLeafClf.batches val_loader))
    as (S1 & S2 & S3).
  { intros b Hin. split; [apply (Hlen b Hin)|apply (Hb b Hin)]. }
  assert (Hn : (0 < EntireLeafClf.dataset val_loader)%nat).
  { unfold Py.bind, EntireLeafClf.finish in H.
    destruct (EntireLeafClf.dataset val_loader); [discriminate|lia]. }
  assert (Pd : flat_map (EntireLeafClf.val_pred_dis m)
                 (EntireLeafClf.batches val_loader) <> []).
  { intros Hnil. rewrite Hnil in D2. simpl in D2. lia. }
  assert (Ps : flat_map (EntireLeafClf.val_pred_sev m)
                 (EntireLeafClf.batches val_loader) <> []).
  { intros Hnil. rewrite Hnil in S2. simpl in S2. lia. }
  unfold Evaluation.test_accuracy_dis, Evaluation.test_accuracy_sev,
    Evaluation.collect_leaf.
  rewrite collect_leaf_from. cbn [fst snd app].
  rewrite (accuracy_score_fraction _ _ Pd D2),
    (accuracy_score_fraction _ _ Ps S2).
  eexists. eexists. split; [reflexivity|]. split; [reflexivity|].
  unfold EntireLeafClf.val_batch_dis_acc in Hda.
  unfold EntireLeafClf.val_batch_sev_acc in Hsa.
  rewrite Hda, Hsa, D1, S1. unfold Metrics.fraction_agree, Num.len.
  rewrite <- !agree_filter, D2, S2, <- D3, <- S3, <- Hd.
  split; unfold Qdiv; ring.
Qed.

End LeafAccuracy.

Lemma leaf_validation_is_test_accuracy_witness :
  match
    EntireLeafClf.validation (B := Toy.backend) Toy.leaf_config true
      Toy.leaf_loader 2 Torch.CrossEntropyLoss
  with
  | Ret vm =>
      exists qd qs,
        Evaluation.test_accuracy_dis (B := Toy.backend) 2
          (EntireLeafClf.batches Toy.leaf_loader) = Ret qd
        /\ Evaluation.test_accuracy_sev (B := Toy.backend) 2
             (EntireLeafClf.batches Toy.leaf_loader) = Ret qs
        /\ EntireLeafClf.dis_acc vm == 100 * qd
        /\ EntireLeafClf.sev_acc vm == 100 * qs
  | Raise _ => False
  end.
Proof.
  destruct (EntireLeafClf.validation (B := Toy.backend) Toy.leaf_config true
              Toy.leaf_loader 2 Torch.CrossEntropyLoss) as [vm|e] eqn:E.
  - apply (leaf_validation_is_test_accuracy (B := Toy.backend) _ _ _ _ _ E).
    + reflexivity.
    + intros b [<-|[]]. split; reflexivity.
  - vm_compute in E. discriminate.
Defined.
